(** * quant.ai.s: the strategy engine, the DQN trainer and the trade ledger

    A shallow embedding of [src/unnamed/part_004] (the trade ledger,
    [services/tradeUtils]) and of [src/services/pythonEngine.ts] (the Python
    wrapper run inside Pyodide, the worker message handler and the batch
    dispatcher), with the properties the specification states about them.

    Numbers.  JavaScript numbers and Python floats are modelled by exact
    rationals [Q]; the non-finite values (NaN, Infinity) are modelled
    explicitly where the code tests for them or can produce them.  Rounding
    error of binary floating point is outside the model. *)

From Stdlib Require Import ZArith QArith Qround Qabs Qminmax.
From Stdlib Require Import List String Ascii Bool Lia Lqa DecimalString DecimalNat.
From stdpp Require Import base list gmap strings.
Import ListNotations.

Local Open Scope Q_scope.

(** ** Comparisons on rationals, as booleans *)

Definition Qltb (a b : Q) : bool := negb (Qle_bool b a).
Definition Qgtb (a b : Q) : bool := Qltb b a.

(** * Part I: the trade ledger ([src/unnamed/part_004]) *)

Module TradeLedger.

Inductive Side := BUY | SELL.

Record CostConfig := {
  POINT_VALUE : Q;
  TAX_RATE : Q;
  COMMISSION : Q;
  SLIPPAGE : Q
}.

Definition DEFAULT_COSTS : CostConfig :=
  {| POINT_VALUE := 200; TAX_RATE := 2 # 100000; COMMISSION := 50; SLIPPAGE := 1 |}.

Definition COSTS : CostConfig := DEFAULT_COSTS.

Record Position := { size : Q; avgPrice : Q }.

(** The [Trade] record of the ledger.  The [id] of the source is
    [idPrefix-Date.now()-random]; the clock and the random suffix are the
    [stamp] argument of [processTradeLogic]. *)
Record Trade := {
  t_id : string;
  t_symbol : string;
  t_side : Side;
  t_price : Q;
  t_size : Q;
  t_time : string;
  t_status : string;
  t_pnl : Q;
  t_positionAfter : Q;
  t_note : option string
}.

Record Outcome := {
  trade : Trade;
  newPos : Position;
  realizedGrossPnL : Q;
  fees : Q;
  tax : Q;
  commission : Q;
  netPnL : Q
}.

(** [Math.round]: nearest integer, ties towards plus infinity. *)
Definition Math_round (x : Q) : Q := inject_Z (Qfloor (x + (1 # 2))).

(** Step 1 of [processTradeLogic]: the execution price. *)
Definition execPrice (side : Side) (rawPrice : Q) (costs : CostConfig)
  (useSlippage : bool) : Q :=
  if useSlippage
  then match side with
       | BUY => rawPrice + SLIPPAGE costs
       | SELL => rawPrice - SLIPPAGE costs
       end
  else rawPrice.

Definition tradeSign (side : Side) : Q :=
  match side with BUY => 1 | SELL => -1 end.

Definition isClosing (side : Side) (currentPos : Position) : bool :=
  match side with
  | SELL => Qgtb (size currentPos) 0
  | BUY => Qltb (size currentPos) 0
  end.

(** [processTradeLogic].  The result is [None] exactly when the source
    divides by a zero [totalSize] in the opening branch, where JavaScript
    yields a NaN or infinite [avgPrice]: such a position has no rational
    model. *)
Definition processTradeLogic (side : Side) (rawPrice sz : Q) (time idPrefix : string)
  (currentPos : Position) (note : option string) (costs : CostConfig)
  (useSlippage : bool) (stamp : string) : option Outcome :=
  let execPrice := execPrice side rawPrice costs useSlippage in
  let tax := Math_round (execPrice * POINT_VALUE costs * sz * TAX_RATE costs) in
  let commission := COMMISSION costs * sz in
  let fees := commission + tax in
  let tradeQty := sz * tradeSign side in
  let branch : option (Q * Q * Q) :=
    if isClosing side currentPos then
      let closeQty := Qmin (Qabs (size currentPos)) sz in
      let realized :=
        if Qgtb (size currentPos) 0
        then (execPrice - avgPrice currentPos) * closeQty * POINT_VALUE costs
        else (avgPrice currentPos - execPrice) * closeQty * POINT_VALUE costs in
      let newSize := size currentPos + tradeQty in
      let newAvgPrice :=
        if (Qgtb (size currentPos) 0 && Qltb newSize 0)
           || (Qltb (size currentPos) 0 && Qgtb newSize 0)
        then execPrice
        else if Qeq_bool newSize 0 then 0
        else avgPrice currentPos in
      Some (newSize, newAvgPrice, realized)
    else
      let totalValue := Qabs (size currentPos) * avgPrice currentPos + sz * execPrice in
      let totalSize := Qabs (size currentPos) + sz in
      if Qeq_bool totalSize 0 then None
      else Some (size currentPos + tradeQty, totalValue / totalSize, 0)
  in
  match branch with
  | None => None
  | Some (newSize, newAvgPrice, realized) =>
      let netPnL := realized - fees in
      Some {| trade := {| t_id := (idPrefix ++ "-" ++ stamp)%string;
                          t_symbol := "TXF";
                          t_side := side;
                          t_price := execPrice;
                          t_size := sz;
                          t_time := time;
                          t_status := "CLOSED";
                          t_pnl := netPnL;
                          t_positionAfter := newSize;
                          t_note := note |};
              newPos := {| size := newSize; avgPrice := newAvgPrice |};
              realizedGrossPnL := realized;
              fees := fees;
              tax := tax;
              commission := commission;
              netPnL := netPnL |}
  end.

(** A request to the ledger: the arguments of one call that vary from
    trade to trade. *)
Record Order := {
  o_side : Side;
  o_rawPrice : Q;
  o_size : Q;
  o_costs : CostConfig;
  o_useSlippage : bool
}.

Definition orderExecPrice (o : Order) : Q :=
  execPrice (o_side o) (o_rawPrice o) (o_costs o) (o_useSlippage o).

Definition signedQty (o : Order) : Q := o_size o * tradeSign (o_side o).

Definition flat : Position := {| size := 0; avgPrice := 0 |}.

(** The caller's loop: each trade is applied to the position the previous
    one returned (the [setCurrentPosition(newPos)] of the dashboard). *)
Fixpoint applyTrades (orders : list Order) (pos : Position) : option Position :=
  match orders with
  | [] => Some pos
  | o :: rest =>
      match processTradeLogic (o_side o) (o_rawPrice o) (o_size o) EmptyString "T"%string pos None
              (o_costs o) (o_useSlippage o) EmptyString with
      | Some out => applyTrades rest (newPos out)
      | None => None
      end
  end.

Fixpoint signedSum (orders : list Order) : Q :=
  match orders with
  | [] => 0
  | o :: rest => signedQty o + signedSum rest
  end.

End TradeLedger.

(** * Part II: the Python wrapper ([pythonWrapperTemplate] of
    [src/services/pythonEngine.ts]) *)

(** ** Python values *)

Module Py.

(** A Python [float]: a finite value, or one of the three non-finite
    ones. *)
Inductive float := Fin (q : Q) | NaN | PInf | NInf.

Definition isnan (f : float) : bool :=
  match f with NaN => true | _ => false end.

Definition isinf (f : float) : bool :=
  match f with PInf | NInf => true | _ => false end.

(** The values user code hands to the engine.  [VObj] is an object that
    is neither a number nor a string nor [None] and that the JSON encoder
    does not know. *)
Inductive value :=
| VNone
| VBool (b : bool)
| VInt (z : Z)
| VFloat (f : float)
| VStr (s : string)
| VObj (repr : string).

(** The integers that do not fit a double: [float(n)] raises
    [OverflowError] on them, and [JSON.parse] reads their decimal text as
    an infinity.  The bound is the midpoint between the largest double,
    [2^1024 - 2^971], and [2^1024], which rounds up. *)
Definition float_bound : Z := (2 ^ 1024 - 2 ^ 970)%Z.

Definition int_overflows (z : Z) : bool := (float_bound <=? Z.abs z)%Z.

(** [float(val)]; [None] when the conversion raises.  [parse] is
    Python's parser of float literals (it accepts ["nan"] and ["inf"]). *)
Definition to_float (parse : string -> option float) (val : value) : option float :=
  match val with
  | VFloat f => Some f
  | VInt z => if int_overflows z then None else Some (Fin (inject_Z z))
  | VBool b => Some (Fin (if b then 1 else 0))
  | VStr s => parse s
  | VNone | VObj _ => None
  end.

(** [int(val)] on a number; [None] when it raises ([ValueError] on NaN,
    [OverflowError] on an infinity).  Finite values are truncated towards
    zero. *)
Definition to_int (f : float) : option Z :=
  match f with
  | Fin q => Some (Z.quot (Qnum q) (Zpos (Qden q)))
  | NaN | PInf | NInf => None
  end.

(** [safe_float] (lines 43-50). *)
Definition safe_float (parse : string -> option float) (val : value) : float :=
  match to_float parse val with
  | Some f => if isnan f || isinf f then Fin 0 else f
  | None => Fin 0
  end.

(** A number as [json.dumps] writes it and [JSON.parse] reads it back:
    Python writes the tokens [NaN], [Infinity] and [-Infinity] for the
    non-finite floats, and [JSON.parse] rejects them. *)
Definition json_number_ok (f : float) : bool := negb (isnan f || isinf f).

(** ** Python sequences *)

(** [l[i]], with negative indices counted from the end; [None] is
    [IndexError]. *)
Definition index {A} (l : list A) (i : Z) : option A :=
  let n := Z.of_nat (length l) in
  if (0 <=? i)%Z then nth_error l (Z.to_nat i)
  else if (0 <=? n + i)%Z then nth_error l (Z.to_nat (n + i))
  else None.

(** [l[:k]]. *)
Definition slice_to {A} (l : list A) (k : Z) : list A :=
  if (0 <=? k)%Z then firstn (Z.to_nat k) l
  else firstn (Z.to_nat (Z.of_nat (length l) + k)) l.

(** [l[k:]]. *)
Definition slice_from {A} (l : list A) (k : Z) : list A :=
  if (0 <=? k)%Z then skipn (Z.to_nat k) l
  else skipn (Z.to_nat (Z.of_nat (length l) + k)) l.

(** [[x] * n]. *)
Definition replicate {A} (x : A) (n : Z) : list A := repeat x (Z.to_nat n).

(** [range(a, b)]. *)
Definition range (a b : Z) : list Z :=
  map (fun k => (a + Z.of_nat k)%Z) (seq 0 (Z.to_nat (b - a))).

(** [sum(l)]. *)
Fixpoint sum (l : list Q) : Q :=
  match l with
  | [] => 0
  | x :: r => x + sum r
  end.

(** [str(n)] for a non-negative integer. *)
Definition str_of_nat (n : nat) : string := NilEmpty.string_of_uint (Nat.to_uint n).

End Py.

(** ** Candles and signals *)

Record Level := { lv_price : Q; lv_volume : Q }.

Record OrderBook := { ob_bids : option (list Level); ob_asks : option (list Level) }.

(** A raw candle, as decoded from [raw_data_json]. *)
Record Candle := {
  time : string;
  open : Q;
  high : Q;
  low : Q;
  close : Q;
  volume : Q;
  orderBook : option OrderBook
}.

(** [CandleObj] (lines 535-549). *)
Record CandleObj := {
  co_time : string;
  co_open : Q;
  co_high : Q;
  co_low : Q;
  co_close : Q;
  co_volume : Q;
  co_bids : list Level;
  co_asks : list Level
}.

Definition mkCandleObj (d : Candle) : CandleObj :=
  {| co_time := time d; co_open := open d; co_high := high d; co_low := low d;
     co_close := close d; co_volume := volume d;
     co_bids := match orderBook d with
                | Some ob => match ob_bids ob with Some b => b | None => [] end
                | None => []
                end;
     co_asks := match orderBook d with
                | Some ob => match ob_asks ob with Some a => a | None => [] end
                | None => []
                end |}.

(** One entry of the signal log: the dictionaries appended by [order],
    [cancel] and [close_all].  A key that a dictionary does not have is
    [None]; a key bound to Python's [None] is [Some VNone]. *)
Record Signal := {
  sg_time : string;
  sg_action : Py.value;
  sg_price : Py.value;
  sg_size : Py.value;
  sg_reason : Py.value;
  sg_orderId : option Py.value;
  sg_orderType : option string;
  sg_limitPrice : option Py.value
}.

(** ** [StrategyContext] (lines 63-131) *)

Module StrategyContext.

Record t := {
  signals : list Signal;
  current_candle : option Candle;
  order_counter : nat
}.

(** [__init__]. *)
Definition init : t :=
  {| signals := []; current_candle := None; order_counter := 0 |}.

Definition set_current (self : t) (c : option Candle) : t :=
  {| signals := signals self; current_candle := c; order_counter := order_counter self |}.

Definition append (self : t) (s : Signal) : t :=
  {| signals := signals self ++ [s];
     current_candle := current_candle self;
     order_counter := order_counter self |}.

Definition order_id_of (n : nat) : string := ("ORD-" ++ Py.str_of_nat n)%string.

Definition of_float (o : option Py.float) : Py.value :=
  match o with Some f => Py.VFloat f | None => Py.VNone end.

(** [order(action, size=1, price=None, reason=...)]: the id it returns
    and the context it leaves. *)
Definition order (parse : string -> option Py.float) (self : t)
  (action size price reason : Py.value) : string * t :=
  let shim :=
    match price, reason with
    | Py.VStr _, Py.VStr EmptyString => true
    | _, _ => false
    end in
  let reason := if shim then price else reason in
  let price := if shim then Py.VNone else price in
  let counter := S (order_counter self) in
  let order_id := order_id_of counter in
  let self1 := {| signals := signals self;
                  current_candle := current_candle self;
                  order_counter := counter |} in
  match current_candle self with
  | Some candle =>
      let '(order_type, limit_price) :=
        match price with
        | Py.VNone => ("MARKET"%string, None)
        | _ => match Py.to_float parse price with
               | Some f => ("LIMIT"%string, Some f)
               | None => ("MARKET"%string, None)
               end
        end in
      let signal_price :=
        match limit_price with
        | Some f => Py.VFloat f
        | None => Py.VFloat (Py.Fin (close candle))
        end in
      (order_id,
       append self1 {| sg_time := time candle;
                       sg_action := action;
                       sg_price := signal_price;
                       sg_size := size;
                       sg_reason := reason;
                       sg_orderId := Some (Py.VStr order_id);
                       sg_orderType := Some order_type;
                       sg_limitPrice := Some (of_float limit_price) |})
  | None => (order_id, self1)
  end.

(** Truthiness of the [order_id] argument of [cancel]. *)
Definition truthy (v : Py.value) : bool :=
  match v with
  | Py.VNone => false
  | Py.VBool b => b
  | Py.VInt z => negb (z =? 0)%Z
  | Py.VFloat (Py.Fin q) => negb (Qeq_bool q 0)
  | Py.VFloat _ => true
  | Py.VStr s => negb (String.eqb s EmptyString)
  | Py.VObj _ => true
  end.

Definition cancel (self : t) (order_id reason : Py.value) : t :=
  match current_candle self with
  | Some candle =>
      if truthy order_id
      then append self {| sg_time := time candle;
                          sg_action := Py.VStr "CANCEL";
                          sg_price := Py.VNone;
                          sg_size := Py.VInt 0;
                          sg_reason := reason;
                          sg_orderId := Some order_id;
                          sg_orderType := None;
                          sg_limitPrice := None |}
      else self
  | None => self
  end.

Definition close_all (self : t) (reason : Py.value) : t :=
  match current_candle self with
  | Some candle =>
      append self {| sg_time := time candle;
                     sg_action := Py.VStr "CLOSE_ALL";
                     sg_price := Py.VFloat (Py.Fin (close candle));
                     sg_size := Py.VInt 0;
                     sg_reason := reason;
                     sg_orderId := None;
                     sg_orderType := None;
                     sg_limitPrice := None |}
  | None => self
  end.

(** The loop of [sma] (lines 128-130): [todo] are the indices still to
    visit. *)
Fixpoint sma_loop (data : list Q) (period : Z) (todo : list Z) (window_sum : Q)
  (ret : list Q) : option (list Q) :=
  match todo with
  | [] => Some ret
  | i :: rest =>
      match Py.index data (i - period), Py.index data i with
      | Some old, Some new =>
          let window_sum := window_sum - old + new in
          sma_loop data period rest window_sum (ret ++ [window_sum / inject_Z period])
      | _, _ => None
      end
  end.

(** [sma(data, period)]; [None] when the source raises ([IndexError] on
    an empty series, [ZeroDivisionError] on a zero period). *)
Definition sma (data : list Q) (period : Z) : option (list Q) :=
  let n := Z.of_nat (length data) in
  if (n <? period)%Z then
    match Py.index data (-1) with
    | Some x => Some (Py.replicate x n)
    | None => None
    end
  else if (period =? 0)%Z then None
  else
    let curr := Py.sum (Py.slice_to data period) / inject_Z period in
    let ret := Py.replicate curr (period - 1) ++ [curr] in
    let window_sum := Py.sum (Py.slice_to data period) in
    sma_loop data period (Py.range period n) window_sum ret.

End StrategyContext.

(** ** The DQN trainer (lines 135-274) *)

(** NumPy arrays of rank 2, as lists of rows.  The operations are those
    on operands of matching shapes: where NumPy raises [ValueError] on a
    mismatch, the functions below cut to the shorter operand. *)
Module Np.

Definition matrix := list (list Q).

Definition ncols (M : matrix) : nat :=
  match M with [] => 0%nat | r :: _ => length r end.

Definition vadd (u v : list Q) : list Q := zip_with Qplus u v.
Definition vscale (k : Q) (v : list Q) : list Q := map (Qmult k) v.

(** One row of [np.dot(X, W)]. *)
Definition row_dot (r : list Q) (W : matrix) : list Q :=
  fold_right (fun xw acc => vadd (vscale (fst xw) (snd xw)) acc)
    (repeat 0 (ncols W)) (zip r W).

Definition dot (X W : matrix) : matrix := map (fun r => row_dot r W) X.

(** [M.T] for a matrix of [k] columns. *)
Definition transpose (k : nat) (M : matrix) : matrix :=
  map (fun j => map (fun r => nth j r 0) M) (seq 0 k).

(** [M + b] with [b] of shape [(1, k)] broadcast over the rows. *)
Definition add_bias (M b : matrix) : matrix :=
  map (fun r => vadd r (nth 0 b [])) M.

Definition map2 (f : Q -> Q -> Q) (A B : matrix) : matrix :=
  zip_with (zip_with f) A B.

Definition mmap (f : Q -> Q) (A : matrix) : matrix := map (map f) A.

(** [np.sum(M, axis=0, keepdims=True)] for a matrix of [k] columns. *)
Definition sum_axis0 (k : nat) (M : matrix) : matrix :=
  [fold_right vadd (repeat 0 k) M].

Definition relu (x : Q) : Q := Qmax 0 x.

(** [np.clip(x, -1.0, 1.0)]. *)
Definition clip1 (x : Q) : Q := Qmin 1 (Qmax (-1) x).

(** [np.max(r)]; [None] on an empty row, where NumPy raises. *)
Definition row_max (r : list Q) : option Q :=
  match r with
  | [] => None
  | x :: xs => Some (fold_left Qmax xs x)
  end.

(** [M[i, j] = v]; [None] is [IndexError]. *)
Definition set2 (M : matrix) (i j : nat) (v : Q) : option matrix :=
  match M !! i with
  | Some r => if (j <? length r)%nat then Some (<[i := <[j := v]> r]> M) else None
  | None => None
  end.

(** [np.mean(M)]; [None] on an empty array (NumPy yields NaN). *)
Definition mean (M : matrix) : option Q :=
  let xs := concat M in
  match xs with
  | [] => None
  | _ => Some (Py.sum xs / inject_Z (Z.of_nat (length xs)))
  end.

End Np.

Module MicroModel.

Record Cache := { c_X : Np.matrix; c_z1 : Np.matrix; c_a1 : Np.matrix; c_z2 : Np.matrix }.

Record t := {
  W1 : Np.matrix;
  b1 : Np.matrix;
  W2 : Np.matrix;
  b2 : Np.matrix;
  lr : Q;
  cache : option Cache
}.

(** [__init__]: the He-initialised random weights are the arguments
    [w1] and [w2]. *)
Definition init (hidden_dim output_dim : nat) (learning_rate : Q) (w1 w2 : Np.matrix) : t :=
  {| W1 := w1; b1 := [repeat 0 hidden_dim];
     W2 := w2; b2 := [repeat 0 output_dim];
     lr := learning_rate; cache := None |}.

Definition forward (self : t) (X : Np.matrix) : Np.matrix * t :=
  let z1 := Np.add_bias (Np.dot X (W1 self)) (b1 self) in
  let a1 := Np.mmap Np.relu z1 in
  let z2 := Np.add_bias (Np.dot a1 (W2 self)) (b2 self) in
  (z2, {| W1 := W1 self; b1 := b1 self; W2 := W2 self; b2 := b2 self; lr := lr self;
          cache := Some {| c_X := X; c_z1 := z1; c_a1 := a1; c_z2 := z2 |} |}).

(** [backward]; [None] is the [KeyError] of an empty cache. *)
Definition backward (self : t) (d_loss_output : Np.matrix) : option t :=
  match cache self with
  | None => None
  | Some c =>
      let m := inject_Z (Z.of_nat (length d_loss_output)) in
      let hidden := Np.ncols (W1 self) in
      let out := Np.ncols (W2 self) in
      let dW2 := Np.dot (Np.transpose hidden (c_a1 c)) d_loss_output in
      let db2 := Np.sum_axis0 out d_loss_output in
      let da1 := Np.dot d_loss_output (Np.transpose out (W2 self)) in
      let dz1 := Np.map2 (fun d z => if Qgtb z 0 then d else 0) da1 (c_z1 c) in
      let dW1 := Np.dot (Np.transpose (Np.ncols (c_X c)) (c_X c)) dz1 in
      let db1 := Np.sum_axis0 hidden dz1 in
      let dW1 := Np.mmap Np.clip1 dW1 in
      let dW2 := Np.mmap Np.clip1 dW2 in
      let upd := fun w g => w - lr self * (g / m) in
      Some {| W1 := Np.map2 upd (W1 self) dW1;
              b1 := Np.map2 upd (b1 self) db1;
              W2 := Np.map2 upd (W2 self) dW2;
              b2 := Np.map2 upd (b2 self) db2;
              lr := lr self;
              cache := cache self |}
  end.

End MicroModel.

Record Transition := {
  tr_state : list Q;
  tr_action : nat;
  tr_reward : Q;
  tr_next_state : list Q;
  tr_done : bool
}.

Module ReplayBuffer.

Record t := { capacity : nat; buffer : list Transition; position : nat }.

Definition init (capacity : nat) : t :=
  {| capacity := capacity; buffer := []; position := 0 |}.

Definition len (self : t) : nat := length (buffer self).

(** [push]: the source appends a placeholder while the buffer is below
    its capacity and then assigns slot [position], which is always inside
    the buffer for the positive capacity the agent uses. *)
Definition push (self : t) (x : Transition) : t :=
  let buffer1 :=
    if (length (buffer self) <? capacity self)%nat
    then buffer self ++ [x] else buffer self in
  {| capacity := capacity self;
     buffer := <[position self := x]> buffer1;
     position := (S (position self) mod capacity self)%nat |}.

End ReplayBuffer.

Module DQNAgent.

Record t := {
  state_dim : nat;
  action_dim : nat;
  gamma : Q;
  epsilon : Q;
  epsilon_min : Q;
  epsilon_decay : Q;
  batch_size : nat;
  model : MicroModel.t;
  memory : ReplayBuffer.t
}.

(** [__init__]; [w1] and [w2] are the random initial weights. *)
Definition init (state_dim action_dim hidden_dim : nat) (lr gamma epsilon epsilon_decay : Q)
  (batch_size : nat) (w1 w2 : Np.matrix) : t :=
  {| state_dim := state_dim; action_dim := action_dim; gamma := gamma;
     epsilon := epsilon; epsilon_min := 1 # 100; epsilon_decay := epsilon_decay;
     batch_size := batch_size;
     model := MicroModel.init hidden_dim action_dim lr w1 w2;
     memory := ReplayBuffer.init 5000 |}.

Definition with_model (self : t) (m : MicroModel.t) : t :=
  {| state_dim := state_dim self; action_dim := action_dim self; gamma := gamma self;
     epsilon := epsilon self; epsilon_min := epsilon_min self;
     epsilon_decay := epsilon_decay self; batch_size := batch_size self;
     model := m; memory := memory self |}.

Definition with_epsilon (self : t) (e : Q) : t :=
  {| state_dim := state_dim self; action_dim := action_dim self; gamma := gamma self;
     epsilon := e; epsilon_min := epsilon_min self;
     epsilon_decay := epsilon_decay self; batch_size := batch_size self;
     model := model self; memory := memory self |}.

Definition remember (self : t) (x : Transition) : t :=
  {| state_dim := state_dim self; action_dim := action_dim self; gamma := gamma self;
     epsilon := epsilon self; epsilon_min := epsilon_min self;
     epsilon_decay := epsilon_decay self; batch_size := batch_size self;
     model := model self; memory := ReplayBuffer.push (memory self) x |}.

(** The loop over the minibatch that writes the Bellman targets
    (lines 258-262); [idx] is [range(self.batch_size)]. *)
Fixpoint write_targets (gamma : Q) (minibatch : list Transition) (max_next_qs : list Q)
  (idx : list nat) (target_qs : Np.matrix) : option Np.matrix :=
  match idx with
  | [] => Some target_qs
  | i :: rest =>
      match minibatch !! i, max_next_qs !! i with
      | Some x, Some mx =>
          let v := if tr_done x then tr_reward x else tr_reward x + gamma * mx in
          match Np.set2 target_qs i (tr_action x) v with
          | Some t' => write_targets gamma minibatch max_next_qs rest t'
          | None => None
          end
      | _, _ => None
      end
  end.

Fixpoint all_some {A} (l : list (option A)) : option (list A) :=
  match l with
  | [] => Some []
  | Some x :: r => match all_some r with Some xs => Some (x :: xs) | None => None end
  | None :: _ => None
  end.

(** [replay]: the loss it returns and the agent it leaves; [None] when
    the source raises.  [sample] is [random.sample] of the buffer. *)
Definition replay (sample : list Transition -> nat -> list Transition) (self : t)
  : option (Q * t) :=
  if (ReplayBuffer.len (memory self) <? batch_size self)%nat then Some (0, self)
  else
    let minibatch := sample (ReplayBuffer.buffer (memory self)) (batch_size self) in
    let states := map tr_state minibatch in
    let next_states := map tr_next_state minibatch in
    let '(current_qs, m1) := MicroModel.forward (model self) states in
    let '(next_qs, m2) := MicroModel.forward m1 next_states in
    match all_some (map Np.row_max next_qs) with
    | None => None
    | Some max_next_qs =>
        match write_targets (gamma self) minibatch max_next_qs
                (seq 0 (batch_size self)) current_qs with
        | None => None
        | Some target_qs =>
            let d_loss := Np.map2 Qminus current_qs target_qs in
            match MicroModel.backward m2 d_loss,
                  Np.mean (Np.mmap (fun x => x * x) d_loss) with
            | Some m3, Some loss => Some (loss, with_model self m3)
            | _, _ => None
            end
        end
    end.

(** [decay_epsilon] (lines 272-274). *)
Definition decay_epsilon (self : t) : t :=
  if Qgtb (epsilon self) (epsilon_min self)
  then with_epsilon self (epsilon self * epsilon_decay self)
  else self.

End DQNAgent.

(** ** The training history (lines 474-482) *)

Module Training.

(** Multiplication of Python floats, with the IEEE rules for the
    non-finite values. *)
Definition fmul (a b : Py.float) : Py.float :=
  match a, b with
  | Py.NaN, _ | _, Py.NaN => Py.NaN
  | Py.Fin x, Py.Fin y => Py.Fin (x * y)
  | Py.Fin x, Py.PInf | Py.PInf, Py.Fin x =>
      if Qeq_bool x 0 then Py.NaN else if Qltb 0 x then Py.PInf else Py.NInf
  | Py.Fin x, Py.NInf | Py.NInf, Py.Fin x =>
      if Qeq_bool x 0 then Py.NaN else if Qltb 0 x then Py.NInf else Py.PInf
  | Py.PInf, Py.PInf | Py.NInf, Py.NInf => Py.PInf
  | Py.PInf, Py.NInf | Py.NInf, Py.PInf => Py.NInf
  end.

Record RLTrainingStep := {
  episode : Z;
  totalReward : Py.float;
  epsilon : Py.float;
  winRate : Py.float
}.

(** [step_data] for episode index [e]. *)
Definition step_data (parse : string -> option Py.float) (e : Z)
  (total_reward agent_epsilon win_rate : Py.float) : RLTrainingStep :=
  {| episode := e + 1;
     totalReward := Py.safe_float parse (Py.VFloat (fmul total_reward (Py.Fin 1000)));
     epsilon := Py.safe_float parse (Py.VFloat agent_epsilon);
     winRate := Py.safe_float parse (Py.VFloat win_rate) |}.

Definition step_ok (s : RLTrainingStep) : bool :=
  Py.json_number_ok (totalReward s) && Py.json_number_ok (epsilon s)
  && Py.json_number_ok (winRate s).

End Training.

(** ** Strings and numbers on the JavaScript side *)

Module Js.

Fixpoint drop (n : nat) (s : string) : string :=
  match n, s with
  | O, _ => s
  | S n', String _ s' => drop n' s'
  | S _, EmptyString => EmptyString
  end.

(** The first occurrence of [m] in [s]: the text before it and the text
    after it. *)
Fixpoint find (m s : string) : option (string * string) :=
  if String.prefix m s then Some (EmptyString, drop (String.length m) s)
  else match s with
       | EmptyString => None
       | String c s' =>
           match find m s' with
           | Some (b, a) => Some (String c b, a)
           | None => None
           end
       end.

(** [s.includes(m)]. *)
Definition includes (s m : string) : bool :=
  match find m s with Some _ => true | None => false end.

(** [s.split(m)[1]]; [None] is [undefined]. *)
Definition split_1 (s m : string) : option string :=
  match find m s with
  | None => None
  | Some (_, a) =>
      match find m a with
      | Some (b, _) => Some b
      | None => Some a
      end
  end.

(** [a || b] on strings. *)
Definition or_else (a b : string) : string :=
  match a with EmptyString => b | _ => a end.

(** A JavaScript number. *)
Definition number := Py.float.

Definition truthy (x : number) : bool :=
  match x with
  | Py.Fin q => negb (Qeq_bool q 0)
  | Py.NaN => false
  | Py.PInf | Py.NInf => true
  end.

End Js.

(** ** Entry-point resolution and replay (lines 403-654) *)

(** User code is modelled by what evaluating it leaves in the namespace
    (its functions and classes, and what it did to the global
    [max_lookback]) and by what its functions do when they are called: to
    the user state, to the context, and to the list of candles they are
    handed.  It is taken not to rebind the other names of the wrapper. *)

Module Wrapper.

(** An exception, by what the wrapper can observe of it: which [except]
    clauses catch it, and the text of its traceback. *)
Inductive exn_class := BaseException | Exception | TypeError.

Record exn := { cls : exn_class; frames : string; summary : string }.

Definition is_Exception (e : exn) : bool :=
  match cls e with BaseException => false | _ => true end.

Definition is_TypeError (e : exn) : bool :=
  match cls e with TypeError => true | _ => false end.

Definition nl : string := String (ascii_of_nat 10) EmptyString.

(** [traceback.format_exc()]. *)
Definition format_exc (e : exn) : string :=
  ("Traceback (most recent call last):" ++ nl ++ frames e ++ summary e ++ nl)%string.

Definition window := list CandleObj.

(** [int(max_lookback)] under its [try] (lines 552-557); the global is
    absent when the worker deleted it. *)
Definition max_lookback_val (max_lookback : option Py.float) : option Z :=
  match max_lookback with
  | Some f => Py.to_int f
  | None => None
  end.

(** What evaluating the user code (line 405) did to the global
    [max_lookback], which the worker set or deleted before the script ran
    and which the wrapper reads afterwards (line 553): nothing, a [del], or
    a binding to a value whose conversion by [int] under the [try] of lines
    554-557 gives [as_int] ([None] when it raises). *)
Inductive Rebinding := Untouched | Deleted | Bound (as_int : option Z).

(** The cap the replay runs with: the global [max_lookback] is the one
    the worker set, unless the user code bound or deleted it. *)
Definition lookback_cap (user : Rebinding) (max_lookback : option Py.float) : option Z :=
  match user with
  | Untouched => max_lookback_val max_lookback
  | Deleted => None
  | Bound as_int => as_int
  end.

(** Lines 571-573: the candle is appended, then the window is cut. *)
Definition advance (mlv : option Z) (historical_candles : window) (raw : Candle) : window :=
  let h := (historical_candles ++ [mkCandleObj raw])%list in
  match mlv with
  | Some m =>
      if negb (m =? 0)%Z && (m <? Z.of_nat (length h))%Z
      then Py.slice_from h (- m)
      else h
  | None => h
  end.

Definition json_value_ok (v : Py.value) : bool :=
  match v with
  | Py.VFloat f => Py.json_number_ok f
  | _ => true
  end.

Definition json_option_ok (o : option Py.value) : bool :=
  match o with Some v => json_value_ok v | None => true end.

(** Whether [JSON.parse] accepts the text [json.dumps] wrote for a
    signal. *)
Definition signal_parses (s : Signal) : bool :=
  json_value_ok (sg_action s) && json_value_ok (sg_price s) && json_value_ok (sg_size s)
  && json_value_ok (sg_reason s) && json_option_ok (sg_orderId s)
  && json_option_ok (sg_limitPrice s).

Definition serializable (v : Py.value) : bool :=
  match v with Py.VObj _ => false | _ => true end.

Definition signal_serializable (s : Signal) : bool :=
  serializable (sg_action s) && serializable (sg_price s) && serializable (sg_size s)
  && serializable (sg_reason s)
  && match sg_orderId s with Some v => serializable v | None => true end.

Definition not_serializable : exn :=
  {| cls := TypeError; frames := EmptyString;
     summary := "TypeError: Object is not JSON serializable" |}.

(** [json.dumps(ctx.signals, cls=NumpyEncoder)]: the log itself, or the
    [TypeError] of a value the encoder does not know.  Non-finite numbers
    are written, as the tokens [NaN] and [Infinity]. *)
Definition dumps (signals : list Signal) : exn + list Signal :=
  if forallb signal_serializable signals then inr signals else inl not_serializable.

Definition no_strategy_class : exn :=
  {| cls := Exception; frames := EmptyString;
     summary := "Exception: No strategy class found." |}.

Definition builtin_names : list string :=
  ["StrategyContext"; "CandleObj"; "TradingEnv"; "DQNAgent"; "MicroModel";
   "ReplayBuffer"; "NumpyEncoder"]%string.

Definition fallback_names : list string :=
  ["StrategyContext"; "CandleObj"; "type"; "TradingEnv"; "DQNAgent"; "MicroModel";
   "ReplayBuffer"; "NumpyEncoder"; "CustomTradingEnv"]%string.

Definition mem (x : string) (l : list string) : bool := existsb (String.eqb x) l.

(** A value of the log as [JSON.parse] reads the text [json.dumps] wrote
    for it: an integer that does not fit a double comes back as an
    infinity. *)
Definition parsed (v : Py.value) : Py.value :=
  match v with
  | Py.VInt z =>
      if Py.int_overflows z
      then Py.VFloat (if (0 <? z)%Z then Py.PInf else Py.NInf)
      else v
  | _ => v
  end.

Definition parsed_signal (s : Signal) : Signal :=
  {| sg_time := sg_time s;
     sg_action := parsed (sg_action s);
     sg_price := parsed (sg_price s);
     sg_size := parsed (sg_size s);
     sg_reason := parsed (sg_reason s);
     sg_orderId := option_map parsed (sg_orderId s);
     sg_orderType := sg_orderType s;
     sg_limitPrice := option_map parsed (sg_limitPrice s) |}.

Section Execution.

(** The state user code owns: its globals and its strategy instance. *)
Variable U : Type.

(** What a call into user code does: it raises, or it returns with the
    user state and the context (on which it may have called [order],
    [cancel] and [close_all]) updated. *)
Definition action := U -> StrategyContext.t -> exn + (U * StrategyContext.t).

(** A call of the entry point.  It is handed the wrapper's own list
    [historical_candles], not a copy: besides the user state and the
    context it returns the content of that list when the call returns,
    which user code may have changed in place. *)
Definition tick :=
  window -> U -> StrategyContext.t -> exn + (window * U * StrategyContext.t).

(** A free function [on_tick] or [strategy]: its number of parameters
    ([None] when [inspect.signature] raises), and what calling it with
    one and with two arguments does. *)
Record Function := {
  parameters : option nat;
  call1 : tick;
  call2 : tick
}.

Record StartHook := {
  start_parameters : option nat;
  start0 : action;
  start1 : action
}.

(** A strategy instance: [on_start] if it has the attribute, and
    [on_tick]. *)
Record Instance := {
  inst_on_start : option action;
  inst_on_tick : tick
}.

(** A class bound to a name the user code introduced or rebound. *)
Record Class := {
  binding : string;
  in_main : bool;
  has_on_tick : bool;
  construct_kw : U -> U * (exn + Instance);
  construct_0 : U -> U * (exn + Instance)
}.

(** What evaluating the user code leaves in the namespace. *)
Record Namespace := {
  g_on_tick : option Function;
  g_strategy : option Function;
  g_on_start : option StartHook;
  g_types : list Class;
  g_max_lookback : Rebinding;
  g_heap : U
}.

(** [call_strategy] (lines 526-533). *)
Definition call_strategy (strategy_fn : Function) (candles : window)
  : U -> StrategyContext.t -> exn + (window * U * StrategyContext.t) :=
  let param_count := match parameters strategy_fn with Some n => n | None => 2%nat end in
  if (param_count <=? 1)%nat then call1 strategy_fn candles
  else call2 strategy_fn candles.

(** The start hook of the function form (lines 559-567). *)
Definition run_on_start (h : option StartHook) : action :=
  fun u ctx =>
    match h with
    | None => inr (u, ctx)
    | Some hook =>
        match start_parameters hook with
        | None | Some O => start0 hook u ctx
        | Some (S O) => start1 hook u ctx
        | Some _ => inr (u, ctx)
        end
    end.

(** The replay loop (lines 569-575 and 640-646).  Besides the outcome
    it returns the windows the entry point was called with, in order.  The
    next candle is appended to the list as the call left it. *)
Fixpoint replay (tick : tick) (mlv : option Z) (raw_data : list Candle)
  (historical_candles : window) (u : U) (ctx : StrategyContext.t)
  : list window * (exn + (U * StrategyContext.t)) :=
  match raw_data with
  | [] => ([], inr (u, ctx))
  | raw :: rest =>
      let h := advance mlv historical_candles raw in
      match tick h u (StrategyContext.set_current ctx (Some raw)) with
      | inl e => ([h], inl e)
      | inr (h', u', ctx') =>
          let '(calls, r) := replay tick mlv rest h' u' ctx' in
          (h :: calls, r)
      end
  end.

(** Lines 579-598: the class the wrapper picks. *)
Definition target_class (types : list Class) : option Class :=
  let all_classes :=
    filter (fun c => negb (mem (binding c) builtin_names) && in_main c) types in
  let strategy_classes := filter has_on_tick all_classes in
  match last strategy_classes with
  | Some c => Some c
  | None =>
      match last all_classes with
      | Some c => Some c
      | None => head (filter (fun c => negb (mem (binding c) fallback_names)) types)
      end
  end.

(** Lines 603-607: construction with the parameters, then without. *)
Definition instantiate (c : Class) (u : U) : exn + (U * Instance) :=
  match construct_kw c u with
  | (u1, inr strategy) => inr (u1, strategy)
  | (u1, inl e) =>
      if is_TypeError e then
        match construct_0 c u1 with
        | (u2, inr strategy) => inr (u2, strategy)
        | (u2, inl e2) => if is_TypeError e2 then inl e else inl e2
        end
      else inl e
  end.

(** The body of the [try] in standard mode (lines 504-648). *)
Definition standard_mode (ns : Namespace) (raw_data : list Candle)
  (max_lookback : option Py.float) : list window * (exn + list Signal) :=
  let strategy_fn :=
    match g_on_tick ns with
    | Some f => Some f
    | None => g_strategy ns
    end in
  let mlv := lookback_cap (g_max_lookback ns) max_lookback in
  let finish (r : list window * (exn + (U * StrategyContext.t))) :=
    match r with
    | (calls, inl e) => (calls, inl e)
    | (calls, inr (_, ctx)) => (calls, dumps (StrategyContext.signals ctx))
    end in
  match strategy_fn with
  | Some f =>
      match run_on_start (g_on_start ns) (g_heap ns) StrategyContext.init with
      | inl e => ([], inl e)
      | inr (u, ctx) => finish (replay (call_strategy f) mlv raw_data [] u ctx)
      end
  | None =>
      match target_class (g_types ns) with
      | None => ([], inl no_strategy_class)
      | Some c =>
          match instantiate c (g_heap ns) with
          | inl e => ([], inl e)
          | inr (u, strategy) =>
              let started :=
                match inst_on_start strategy with
                | Some f => f u StrategyContext.init
                | None => inr (u, StrategyContext.init)
                end in
              match started with
              | inl e => ([], inl e)
              | inr (u1, ctx) =>
                  finish (replay (inst_on_tick strategy) mlv raw_data [] u1 ctx)
              end
          end
      end
  end.

(** What the script leaves: an exception that escaped it, or the value
    of [final_result_json]. *)
Inductive final_result :=
| FR_signals (l : list Signal)
| FR_error (error_msg : string).

Inductive script_outcome :=
| Raised (e : exn)
| Returned (final_result_json : final_result).

(** The whole script in standard mode.  The user code (line 405) runs
    before the [try]; the handler (lines 650-652) catches [Exception]
    only. *)
Definition run_script (user_code : exn + Namespace) (raw_data : list Candle)
  (max_lookback : option Py.float) : script_outcome :=
  match user_code with
  | inl e => Raised e
  | inr ns =>
      match snd (standard_mode ns raw_data max_lookback) with
      | inr signals => Returned (FR_signals signals)
      | inl e =>
          if is_Exception e then Returned (FR_error (format_exc e)) else Raised e
      end
  end.

(** Steps 1 to 5 and the serialisation as one computation: the first
    exception raised, or the signal log. *)
Definition run_phases (user_code : exn + Namespace) (raw_data : list Candle)
  (max_lookback : option Py.float) : exn + list Signal :=
  match user_code with
  | inl e => inl e
  | inr ns => snd (standard_mode ns raw_data max_lookback)
  end.

(** The windows the entry point is called with during a run. *)
Definition entry_point_calls (user_code : exn + Namespace) (raw_data : list Candle)
  (max_lookback : option Py.float) : list window :=
  match user_code with
  | inl e => []
  | inr ns => fst (standard_mode ns raw_data max_lookback)
  end.

(** *** The worker's [RUN_STRATEGY] handler (lines 689-723) *)

Inductive JsResult :=
| R_signals (l : list Signal)
| R_errors (error : string).

Inductive WorkerMsg :=
| RUN_SUCCESS (result : JsResult)
| ERROR (error : string).

Record Payload := {
  code : exn + Namespace;
  candles : list Candle;
  maxLookbackCandles : option Js.number
}.

(** The text of the errors that are not the wrapper's: the [message] and
    the [toString()] of Pyodide's [PythonError], and the message of the
    [SyntaxError] of [JSON.parse]. *)
Variable pyodide_message : exn -> string.
Variable pyodide_toString : exn -> string.
Variable syntax_error_message : string.

(** The [catch] of the handler (lines 716-721). *)
Definition catch (message toString : string) : WorkerMsg :=
  let msg := Js.or_else message toString in
  if Js.includes msg "PythonError:"
  then ERROR (match Js.split_1 msg "PythonError:" with
              | Some part => part
              | None => msg
              end)
  else ERROR msg.

(** Lines 700-704: the global [max_lookback] the script sees. *)
Definition max_lookback_global (maxLookbackCandles : option Js.number)
  : option Py.float :=
  match maxLookbackCandles with
  | Some x => if Js.truthy x then Some x else None
  | None => None
  end.

Definition handle_RUN_STRATEGY (isReady : bool) (payload : Payload) : WorkerMsg :=
  if negb isReady then ERROR "Pyodide not ready"
  else
    match run_script (code payload) (candles payload)
            (max_lookback_global (maxLookbackCandles payload)) with
    | Raised e => catch (pyodide_message e) (pyodide_toString e)
    | Returned (FR_error error_msg) =>
        match error_msg with
        | EmptyString => RUN_SUCCESS (R_errors error_msg)
        | _ => catch error_msg ("Error: " ++ error_msg)
        end
    | Returned (FR_signals l) =>
        if forallb signal_parses l then RUN_SUCCESS (R_signals (map parsed_signal l))
        else catch syntax_error_message ("SyntaxError: " ++ syntax_error_message)
    end.

End Execution.

Arguments parameters {U} _.
Arguments call1 {U} _ _ _ _.
Arguments call2 {U} _ _ _ _.
Arguments start_parameters {U} _.
Arguments start0 {U} _ _ _.
Arguments start1 {U} _ _ _.
Arguments inst_on_start {U} _.
Arguments inst_on_tick {U} _ _ _ _.
Arguments binding {U} _.
Arguments in_main {U} _.
Arguments has_on_tick {U} _.
Arguments construct_kw {U} _ _.
Arguments construct_0 {U} _ _.
Arguments g_on_tick {U} _.
Arguments g_strategy {U} _.
Arguments g_on_start {U} _.
Arguments g_types {U} _.
Arguments g_max_lookback {U} _.
Arguments g_heap {U} _.
Arguments call_strategy {U} _ _ _ _.
Arguments run_on_start {U} _ _ _.
Arguments replay {U} _ _ _ _ _ _.
Arguments target_class {U} _.
Arguments instantiate {U} _ _.
Arguments standard_mode {U} _ _ _.
Arguments run_script {U} _ _ _.
Arguments run_phases {U} _ _ _.
Arguments entry_point_calls {U} _ _ _.
Arguments code {U} _.
Arguments candles {U} _.
Arguments maxLookbackCandles {U} _.
Arguments handle_RUN_STRATEGY {U} _ _ _ _ _.

End Wrapper.

(** * Part III: the batch dispatcher ([runPythonStrategyBatch],
    lines 843-883) *)

Module Batch.

Section Dispatcher.

Variable Task : Type.
Variable Signals : Type.

(** [runPythonStrategyOnWorker]: how the promise settles for a task run
    on handle [w], which ran the tasks [h] before (a handle keeps its
    Pyodide instance between tasks).  [Some (inl s)] resolves, [Some (inr
    msg)] rejects with that message, and [None] is a promise that never
    settles: the worker never answers. *)
Variable runOnWorker : nat -> list Task -> Task -> option (Signals + string).

(** [options.shouldCancel], if given: its answer at each successive
    call.  The callbacks [shouldCancel] and [onProgress] are taken to
    return. *)
Variable shouldCancel : option (nat -> bool).

(** An entry of [results]. *)
Record Entry := { signals : option Signals; error : option string }.

Definition entry_of (r : Signals + string) : Entry :=
  match r with
  | inl s => {| signals := Some s; error := None |}
  | inr msg => {| signals := None; error := Some msg |}
  end.

(** Where a [runNext] stands: at the head of its loop, suspended on the
    [await] of a task, or returned. *)
Inductive Worker := AtLoopHead | Awaiting (taskIndex : nat) | Done.

(** The variables the workers share, and the handles.  A slot of
    [results] never assigned is [None] (an empty slot of
    [new Array(n)]). *)
Record State := {
  nextIndex : nat;
  completed : nat;
  results : list (option Entry);
  workers : list Worker;
  ran : list (list Task);
  cancelCalls : nat;
  progress : list (nat * nat)
}.

(** [Math.max(1, Math.min(options?.workerCount || 1, tasks.length))]. *)
Definition maxWorkers (workerCount : option Z) (n : nat) : nat :=
  let wc := match workerCount with
            | Some z => if (z =? 0)%Z then 1%Z else z
            | None => 1%Z
            end in
  Z.to_nat (Z.max 1 (Z.min wc (Z.of_nat n))).

Definition initial (tasks : list Task) (workerCount : option Z) : State :=
  let k := maxWorkers workerCount (length tasks) in
  {| nextIndex := 0; completed := 0;
     results := replicate (length tasks) None;
     workers := replicate k AtLoopHead;
     ran := replicate k [];
     cancelCalls := 0;
     progress := [] |}.

(** One uninterrupted stretch of [runNext] on handle [w]: from the head
    of the loop to the [await] (lines 858-863), or from the settled
    promise back to the head of the loop (lines 864-872).  A worker that
    has returned, or that does not exist, does nothing; neither does one
    whose promise never settles. *)
Definition step (tasks : list Task) (w : nat) (st : State) : State :=
  match workers st !! w with
  | Some AtLoopHead =>
      let cancel := match shouldCancel with
                    | Some f => f (cancelCalls st)
                    | None => false
                    end in
      let calls := match shouldCancel with
                   | Some _ => S (cancelCalls st)
                   | None => cancelCalls st
                   end in
      if cancel then
        {| nextIndex := nextIndex st; completed := completed st;
           results := results st; workers := <[w := Done]> (workers st);
           ran := ran st; cancelCalls := calls; progress := progress st |}
      else
        let taskIndex := nextIndex st in
        {| nextIndex := S (nextIndex st); completed := completed st;
           results := results st;
           workers := <[w := if (length tasks <=? taskIndex)%nat
                             then Done else Awaiting taskIndex]> (workers st);
           ran := ran st; cancelCalls := calls; progress := progress st |}
  | Some (Awaiting taskIndex) =>
      match tasks !! taskIndex with
      | Some task =>
          let h := default [] (ran st !! w) in
          match runOnWorker w h task with
          | Some settled =>
              {| nextIndex := nextIndex st; completed := S (completed st);
                 results := <[taskIndex := Some (entry_of settled)]> (results st);
                 workers := <[w := AtLoopHead]> (workers st);
                 ran := <[w := (h ++ [task])%list]> (ran st);
                 cancelCalls := cancelCalls st;
                 progress := (progress st ++ [(S (completed st), length tasks)])%list |}
          | None => st
          end
      | None => st
      end
  | Some Done | None => st
  end.

(** An interleaving of the workers: the handle that runs next, in
    order. *)
Fixpoint run (tasks : list Task) (schedule : list nat) (st : State) : State :=
  match schedule with
  | [] => st
  | w :: rest => run tasks rest (step tasks w st)
  end.

Definition is_done (w : Worker) : bool :=
  match w with Done => true | _ => false end.

(** [Promise.all] over the workers has resolved. *)
Definition finished (st : State) : bool := forallb is_done (workers st).

(** How line 850, [await Promise.all(handles.map(initWorkerHandle))],
    settles: every handle initialised, one of them rejected with a
    message, or some handle never answers and none rejects. *)
Inductive PoolInit := Ready | InitRejected (message : string) | InitPending.

(** What a call of [runPythonStrategyBatch] has come to: it returned the
    array, it rejected, or it has not returned, because a promise it awaits
    has not settled. *)
Inductive Outcome :=
| Returns (results : list (option Entry))
| Rejects (message : string)
| Pending.

(** [runPythonStrategyBatch] under a schedule of the workers.  An empty
    task list returns at once; a pool that fails to initialise makes the
    call reject before any task is claimed; otherwise the array is returned
    once every worker has returned. *)
Definition runPythonStrategyBatch (tasks : list Task) (workerCount : option Z)
  (init : PoolInit) (schedule : list nat) : Outcome :=
  match tasks with
  | [] => Returns []
  | _ =>
      match init with
      | InitRejected message => Rejects message
      | InitPending => Pending
      | Ready =>
          let st := run tasks schedule (initial tasks workerCount) in
          if finished st then Returns (results st) else Pending
      end
  end.

(** *** The vocabulary of the dispatcher's invariants *)

(** [shouldCancel] is absent or never answers true. *)
Definition never_cancels : Prop :=
  match shouldCancel with
  | None => True
  | Some f => forall k, f k = false
  end.

(** Every run of a task settles, by resolving or by rejecting. *)
Definition always_settles : Prop :=
  forall w h task, runOnWorker w h task <> None.

(** Worker [w] is suspended on a promise that never settles. *)
Definition stuck (tasks : list Task) (st : State) (w : nat) : Prop :=
  exists i task h,
    workers st !! w = Some (Awaiting i)
    /\ tasks !! i = Some task
    /\ ran st !! w = Some h
    /\ runOnWorker w h task = None.

(** Slot [i] holds the entry of the run of task [i] on one handle of the
    pool, [w], which had run the tasks [h] before it (and has run the
    tasks [more] since). *)
Definition served (tasks : list Task) (st : State) (i : nat) : Prop :=
  exists w h more task settled,
    tasks !! i = Some task
    /\ ran st !! w = Some (h ++ task :: more)%list
    /\ runOnWorker w h task = Some settled
    /\ results st !! i = Some (Some (entry_of settled)).

(** What every reachable state satisfies: [results] keeps its length,
    every handle has its list of tasks, a suspended worker awaits a task
    that exists and that it claimed, every claimed task is served or
    awaited, a slot is only ever filled with the entry of its own task, and
    the slot of a task not yet claimed is empty. *)
Record Inv (tasks : list Task) (st : State) : Prop := {
  inv_length : length (results st) = length tasks;
  inv_handles : length (ran st) = length (workers st);
  inv_awaiting : forall w i, workers st !! w = Some (Awaiting i) -> (i < length tasks)%nat;
  inv_awaited : forall w i, workers st !! w = Some (Awaiting i) -> (i < nextIndex st)%nat;
  inv_claimed : forall i, (i < nextIndex st)%nat -> (i < length tasks)%nat ->
                          served tasks st i
                          \/ exists w, workers st !! w = Some (Awaiting i);
  inv_filled : forall i e, results st !! i = Some (Some e) -> served tasks st i;
  inv_unclaimed : forall i, (nextIndex st <= i)%nat -> (i < length tasks)%nat ->
                            results st !! i = Some None
}.

(** A worker that has returned has found the tasks exhausted. *)
Definition exhausted (tasks : list Task) (st : State) : Prop :=
  forall w, workers st !! w = Some Done -> (length tasks <= nextIndex st)%nat.

(** The measure that every step of a worker decreases. *)
Definition weight (x : Worker) : nat :=
  match x with
  | Awaiting _ => 2
  | AtLoopHead => 1
  | Done => 0
  end.

Definition measure (tasks : list Task) (st : State) : nat :=
  3 * (length tasks - nextIndex st) + sum_list (map weight (workers st)).

End Dispatcher.

Arguments never_cancels _ : clear implicits.
Arguments always_settles {Task Signals} _.
Arguments served {Task Signals} _ _ _ _.
Arguments stuck {Task Signals} _ _ _ _.
Arguments Inv {Task Signals} _ _ _.
Arguments inv_length {Task Signals} _ _ _ _.
Arguments inv_handles {Task Signals} _ _ _ _.
Arguments inv_awaiting {Task Signals} _ _ _ _ _ _ _.
Arguments inv_awaited {Task Signals} _ _ _ _ _ _ _.
Arguments inv_claimed {Task Signals} _ _ _ _ _ _ _.
Arguments inv_filled {Task Signals} _ _ _ _ _ _ _.
Arguments inv_unclaimed {Task Signals} _ _ _ _ _ _ _.
Arguments Returns {Signals} _.
Arguments Rejects {Signals} _.
Arguments Pending {Signals}.
Arguments exhausted {Task Signals} _ _.
Arguments measure {Task Signals} _ _.
Arguments signals {Signals} _.
Arguments error {Signals} _.
Arguments entry_of {Signals} _.
Arguments nextIndex {Task Signals} _.
Arguments completed {Task Signals} _.
Arguments results {Task Signals} _.
Arguments workers {Task Signals} _.
Arguments ran {Task Signals} _.
Arguments cancelCalls {Task Signals} _.
Arguments progress {Task Signals} _.
Arguments initial {Task} Signals _ _.
Arguments step {Task Signals} _ _ _ _ _.
Arguments run {Task Signals} _ _ _ _ _.
Arguments finished {Task Signals} _.
Arguments runPythonStrategyBatch {Task Signals} _ _ _ _ _ _.

End Batch.

(** * Part III-b: the rest of the engine and its callers *)

(** ** The dashboard's trade handler ([src/unnamed/part_005], lines 683-700) *)

Module Dashboard.

Record SimState := { balance : Q; equity : Q; dayPnL : Q }.

(** The three pieces of state the handler updates. *)
Record t := {
  currentPosition : TradeLedger.Position;
  executionTrades : list TradeLedger.Trade;
  simState : SimState
}.

(** [handleTradeLogic]: the ledger is called with its default
    [useSlippage]; the new trade is put in front of the list, which is cut
    to 200 entries.  [None] as for [processTradeLogic]. *)
Definition handleTradeLogic (costConfig : TradeLedger.CostConfig) (side : TradeLedger.Side)
  (price size : Q) (time prefix : string) (note : option string) (stamp : string)
  (st : t) : option t :=
  match TradeLedger.processTradeLogic side price size time prefix (currentPosition st)
          note costConfig true stamp with
  | None => None
  | Some out =>
      let newPos := TradeLedger.newPos out in
      let netPnL := TradeLedger.netPnL out in
      let s := simState st in
      Some {| currentPosition := newPos;
              executionTrades := firstn 200 (TradeLedger.trade out :: executionTrades st);
              simState :=
                {| balance := balance s + netPnL;
                   equity := balance s + netPnL
                             + (if negb (Qeq_bool (TradeLedger.size newPos) 0)
                                then (price - TradeLedger.avgPrice newPos)
                                     * TradeLedger.size newPos
                                     * TradeLedger.POINT_VALUE costConfig
                                else 0);
                   dayPnL := dayPnL s + netPnL |} |}
  end.

(** [handleManualTrade]: nothing happens without data; otherwise the last
    candle gives the price and the time. *)
Definition handleManualTrade (costConfig : TradeLedger.CostConfig) (data : list Candle)
  (manualOrderSize : Q) (side : TradeLedger.Side) (stamp : string) (st : t) : option t :=
  match last data with
  | None => Some st
  | Some candle =>
      handleTradeLogic costConfig side (close candle) manualOrderSize (time candle)
        "MAN" None stamp st
  end.

End Dashboard.

(** ** The default environment [TradingEnv] (lines 318-400) *)

Module TradingEnv.

(** A row of the data frame after [__init__]: the close and the three
    indicator columns pandas computed from the closes. *)
Record Row := { r_close : Q; r_sma_fast : Q; r_sma_slow : Q; r_rsi : Q }.

Record t := {
  df : list Row;
  current_step : Z;
  position : Z;
  entry_price : Q;
  done : bool
}.

(** [get_state]: the step is clamped to the last row first.  [None] when
    the row does not exist ([IndexError]) or its close is zero, where the
    quotient is not a finite number. *)
Definition get_state (self : t) : option (list Q * t) :=
  let n := Z.of_nat (length (df self)) in
  let step := if (n <=? current_step self)%Z then (n - 1)%Z else current_step self in
  let self1 := {| df := df self; current_step := step; position := position self;
                  entry_price := entry_price self; done := done self |} in
  match Py.index (df self) step with
  | None => None
  | Some row =>
      if Qeq_bool (r_close row) 0 then None
      else
        let rsi_norm := r_rsi row / 100 in
        let sma_diff := (r_sma_fast row - r_sma_slow row) / r_close row * 1000 in
        let pos_norm := inject_Z (position self) in
        Some ([rsi_norm; sma_diff; pos_norm], self1)
  end.

Definition reset (self : t) : option (list Q * t) :=
  get_state {| df := df self; current_step := 30; position := 0; entry_price := 0;
               done := false |}.

(** [__init__] on the frame pandas built; an empty candle list has no
    [close] column and raises. *)
Definition init (frame : list Row) : option t :=
  match frame with
  | [] => None
  | _ =>
      match reset {| df := frame; current_step := 0; position := 0; entry_price := 0;
                     done := false |} with
      | Some (_, self) => Some self
      | None => None
      end
  end.

(** The trade an action makes at [current_price] (lines 370-385): the
    reward it realises, the position and the entry price it leaves. *)
Definition trade (action : nat) (current_price : Q) (position : Z) (entry_price : Q)
  : Q * Z * Q :=
  match action with
  | 1%nat =>
      let '(reward, position) :=
        if (position =? -1)%Z then ((entry_price - current_price) * 200, 0%Z)
        else (0, position) in
      if (position =? 0)%Z then (reward, 1%Z, current_price)
      else (reward, position, entry_price)
  | 2%nat =>
      let '(reward, position) :=
        if (position =? 1)%Z then ((current_price - entry_price) * 200, 0%Z)
        else (0, position) in
      if (position =? 0)%Z then (reward, (-1)%Z, current_price)
      else (reward, position, entry_price)
  | _ => (0, position, entry_price)
  end.

(** [step]: the next state, the scaled reward and the [done] flag. *)
Definition step (self : t) (action : nat) : option (list Q * Q * bool * t) :=
  match Py.index (df self) (current_step self) with
  | None => None
  | Some row =>
      let current_price := r_close row in
      let '(reward, position, entry_price) :=
        trade action current_price (position self) (entry_price self) in
      let step_penalty := - (1 # 10) in
      let reward := reward + step_penalty in
      let current_step := (current_step self + 1)%Z in
      let finished := (Z.of_nat (length (df self)) - 1 <=? current_step)%Z in
      let reward :=
        if finished then
          if (position =? 1)%Z then reward + (current_price - entry_price) * 200
          else if (position =? -1)%Z then reward + (entry_price - current_price) * 200
          else reward
        else reward in
      let done := if finished then true else done self in
      let reward_scaled := reward / 1000 in
      match get_state {| df := df self; current_step := current_step;
                         position := position; entry_price := entry_price;
                         done := done |} with
      | Some (state, self') => Some (state, reward_scaled, done, self')
      | None => None
      end
  end.

End TradingEnv.

(** ** Action selection and the training loop (lines 224-230, 449-482) *)

Module Trainer.

(** The random draws of one step of the loop: [np.random.rand()],
    [random.randrange(action_dim)] and [random.sample]. *)
Record Draw := {
  rand : Q;
  randrange : nat -> nat;
  sample : list Transition -> nat -> list Transition
}.

(** [np.argmax] of a row: the first index of its maximum; [None] on an
    empty row, where NumPy raises. *)
Fixpoint argmax_from (best : Q) (best_i i : nat) (r : list Q) : nat :=
  match r with
  | [] => best_i
  | x :: rest =>
      if Qltb best x then argmax_from x i (S i) rest
      else argmax_from best best_i (S i) rest
  end.

Definition argmax (r : list Q) : option nat :=
  match r with
  | [] => None
  | x :: rest => Some (argmax_from x 0 1 rest)
  end.

(** [DQNAgent.act]: the action, and the agent, whose network keeps the
    cache of the forward pass when one is made. *)
Definition act (d : Draw) (self : DQNAgent.t) (state : list Q) : option (nat * DQNAgent.t) :=
  if Qle_bool (rand d) (DQNAgent.epsilon self)
  then Some (randrange d (DQNAgent.action_dim self), self)
  else
    let '(q_values, m) := MicroModel.forward (DQNAgent.model self) [state] in
    match q_values with
    | row :: _ =>
        match argmax row with
        | Some a => Some (a, DQNAgent.with_model self m)
        | None => None
        end
    | [] => None
    end.

Section Loop.

(** The environment, by the contract the loop uses: [reset], [step] and
    the length of its [df].  [None] is an exception. *)
Variable E : Type.
Variable env_reset : E -> option (list Q * E).
Variable env_step : E -> nat -> option (list Q * Q * bool * E).
Variable env_df_len : E -> option nat.

(** The random draws, numbered by the steps of the whole run. *)
Variable draws : nat -> Draw.

(** The counters of an episode. *)
Record Tally := { total_reward : Q; wins : nat; trades : nat; steps : nat }.

(** The [while True] loop of an episode (lines 457-470).  It leaves by
    [break] after at most [step_limit + 1] rounds; [fuel] bounds the
    rounds, and running out of it is [None]. *)
Fixpoint episode (fuel : nat) (step_limit : nat) (tick : nat) (env : E)
  (agent : DQNAgent.t) (state : list Q) (c : Tally)
  : option (nat * E * DQNAgent.t * Tally) :=
  match fuel with
  | O => None
  | S fuel' =>
      match act (draws tick) agent state with
      | None => None
      | Some (action, agent1) =>
          match env_step env action with
          | None => None
          | Some (next_state, reward, done, env') =>
              let agent2 :=
                DQNAgent.remember agent1
                  {| tr_state := state; tr_action := action; tr_reward := reward;
                     tr_next_state := next_state; tr_done := done |} in
              match DQNAgent.replay (sample (draws tick)) agent2 with
              | None => None
              | Some (_, agent3) =>
                  let c' := {| total_reward := total_reward c + reward;
                               wins := if Qltb 0 reward then S (wins c) else wins c;
                               trades := if (action =? 0)%nat then trades c
                                         else S (trades c);
                               steps := S (steps c) |} in
                  if done || (step_limit <? steps c')%nat
                  then Some (S tick, env', agent3, c')
                  else episode fuel' step_limit (S tick) env' agent3 next_state c'
              end
          end
      end
  end.

(** The body of the loop over the episodes, for episode index [e]. *)
Definition run_episode (parse : string -> option Py.float) (episodes e : nat) (tick : nat)
  (env : E) (agent : DQNAgent.t) (history : list Training.RLTrainingStep)
  : option (nat * E * DQNAgent.t * list Training.RLTrainingStep) :=
  match env_reset env with
  | None => None
  | Some (state, env0) =>
      match env_df_len env0 with
      | None => None
      | Some n =>
          let step_limit := (n + 100)%nat in
          match episode (S step_limit) step_limit tick env0 agent state
                  {| total_reward := 0; wins := 0; trades := 0; steps := 0 |} with
          | None => None
          | Some (tick', env', agent', c) =>
              let agent'' := DQNAgent.decay_epsilon agent' in
              if ((e mod 5 =? 0) || (e =? episodes - 1))%nat then
                let win_rate :=
                  if (0 <? trades c)%nat
                  then inject_Z (Z.of_nat (wins c)) / inject_Z (Z.of_nat (trades c))
                  else 0 in
                let step_data :=
                  Training.step_data parse (Z.of_nat e) (Py.Fin (total_reward c))
                    (Py.Fin (DQNAgent.epsilon agent'')) (Py.Fin win_rate) in
                Some (tick', env', agent'', (history ++ [step_data])%list)
              else Some (tick', env', agent'', history)
          end
      end
  end.

(** [for e in range(episodes)], over the indices [es] still to run. *)
Fixpoint train_from (parse : string -> option Py.float) (episodes : nat) (es : list nat)
  (tick : nat) (env : E) (agent : DQNAgent.t) (history : list Training.RLTrainingStep)
  : option (DQNAgent.t * list Training.RLTrainingStep) :=
  match es with
  | [] => Some (agent, history)
  | e :: rest =>
      match run_episode parse episodes e tick env agent history with
      | None => None
      | Some (tick', env', agent', history') =>
          train_from parse episodes rest tick' env' agent' history'
      end
  end.

Definition train (parse : string -> option Py.float) (episodes : nat) (env : E)
  (agent : DQNAgent.t) : option (DQNAgent.t * list Training.RLTrainingStep) :=
  train_from parse episodes (seq 0 episodes) 0 env agent [].

End Loop.

Arguments episode {E} _ _ _ _ _ _ _ _ _.
Arguments run_episode {E} _ _ _ _ _ _ _ _ _ _ _.
Arguments train_from {E} _ _ _ _ _ _ _ _ _ _ _.
Arguments train {E} _ _ _ _ _ _ _ _.

End Trainer.

(** ** The worker handle's message queue (lines 780-835, 892-967) *)

Module WorkerHandle.

Inductive MsgType :=
| INIT_SUCCESS | RUN_SUCCESS | TRAIN_SUCCESS | ERROR | TRAIN_PROGRESS
| OTHER (name : string).

Section Queue.

(** The results and the progress payloads the worker posts. *)
Variable R P : Type.

Record Message := {
  m_type : MsgType;
  m_id : string;
  m_result : R;
  m_error : string;
  m_payload : P
}.

(** A pending request: its promise, and whether it registered an
    [onProgress]. *)
Record Handler := { onProgress : bool }.

(** What the handle does to the promises and callbacks of its callers. *)
Inductive Event :=
| Resolved (id : string) (result : R)
| Rejected (id : string) (error : string)
| Progressed (id : string) (payload : P).

Definition is_final (t : MsgType) : bool :=
  match t with
  | INIT_SUCCESS | RUN_SUCCESS | TRAIN_SUCCESS | ERROR => true
  | TRAIN_PROGRESS | OTHER _ => false
  end.

(** [queue.set(id, handler)], as the request functions do before they
    post to the worker. *)
Definition register (queue : gmap string Handler) (id : string) (h : Handler)
  : gmap string Handler := <[id := h]> queue.

(** [workerInstance.onmessage] (lines 786-806). *)
Definition onmessage (queue : gmap string Handler) (m : Message)
  : gmap string Handler * list Event :=
  match m_type m with
  | TRAIN_PROGRESS =>
      match queue !! m_id m with
      | Some h => (queue, if onProgress h then [Progressed (m_id m) (m_payload m)] else [])
      | None => (queue, [])
      end
  | t =>
      match queue !! m_id m with
      | Some h =>
          (if is_final t then delete (m_id m) queue else queue,
           [match t with
            | ERROR => Rejected (m_id m) (m_error m)
            | _ => Resolved (m_id m) (m_result m)
            end])
      | None => (queue, [])
      end
  end.

(** The messages of a worker, handled in the order they arrive. *)
Fixpoint deliver (queue : gmap string Handler) (ms : list Message)
  : gmap string Handler * list Event :=
  match ms with
  | [] => (queue, [])
  | m :: rest =>
      let '(q1, ev1) := onmessage queue m in
      let '(q2, ev2) := deliver q1 rest in
      (q2, (ev1 ++ ev2)%list)
  end.

(** The events that settle the promise of request [id]. *)
Definition settles (id : string) (e : Event) : bool :=
  match e with
  | Resolved i _ | Rejected i _ => String.eqb i id
  | Progressed _ _ => false
  end.

End Queue.

Arguments m_type {R P} _.
Arguments m_id {R P} _.
Arguments m_result {R P} _.
Arguments m_error {R P} _.
Arguments m_payload {R P} _.
Arguments Resolved {R P} _ _.
Arguments Rejected {R P} _ _.
Arguments Progressed {R P} _ _.
Arguments onmessage {R P} _ _.
Arguments deliver {R P} _ _.
Arguments settles {R P} _ _.

End WorkerHandle.

(** * Part IV: the quantities the specification speaks of *)

(** The mean of a series. *)
Definition mean (l : list Q) : Q := Py.sum l / inject_Z (Z.of_nat (length l)).

(** The window of [p] values of [data] that ends at index [i]. *)
Definition window_at (data : list Q) (p i : nat) : list Q :=
  firstn p (skipn (S i - p) data).

(** The value a series of windowed means has at index [i]: the sum of the
    first window over [p] before index [p-1], the sum of the window that
    ends at [i] over [p] from there on. *)
Definition sma_expected (data : list Q) (p i : nat) : Q :=
  if (i <? p - 1)%nat then Py.sum (firstn p data) / inject_Z (Z.of_nat p)
  else Py.sum (window_at data p i) / inject_Z (Z.of_nat p).

(** Two buys of one lot executed at 100 and at 110 (slippage off). *)
Definition long_100 : TradeLedger.Order :=
  {| TradeLedger.o_side := TradeLedger.BUY; TradeLedger.o_rawPrice := 100;
     TradeLedger.o_size := 1; TradeLedger.o_costs := TradeLedger.DEFAULT_COSTS;
     TradeLedger.o_useSlippage := false |}.

Definition long_110 : TradeLedger.Order :=
  {| TradeLedger.o_side := TradeLedger.BUY; TradeLedger.o_rawPrice := 110;
     TradeLedger.o_size := 1; TradeLedger.o_costs := TradeLedger.DEFAULT_COSTS;
     TradeLedger.o_useSlippage := false |}.

(** A market sell of one lot at a quoted price of 1, with the default
    one-point slippage. *)
Definition short_at_1 : TradeLedger.Order :=
  {| TradeLedger.o_side := TradeLedger.SELL; TradeLedger.o_rawPrice := 1;
     TradeLedger.o_size := 1; TradeLedger.o_costs := TradeLedger.DEFAULT_COSTS;
     TradeLedger.o_useSlippage := true |}.

(** An agent built with the default arguments of [DQNAgent.__init__]
    (epsilon 1.0, decay 0.995, batch size 32) for a state of three
    features; the weights play no part in the decay of epsilon. *)
Definition default_agent : DQNAgent.t :=
  DQNAgent.init 3 3 24 (1 # 1000) (95 # 100) 1 (995 # 1000) 32 [] [].

(** A call of [order] by user code, with the candle that is current when
    it is made ([None] before the replay starts). *)
Record OrderCall := {
  oc_candle : option Candle;
  oc_action : Py.value;
  oc_size : Py.value;
  oc_price : Py.value;
  oc_reason : Py.value
}.

(** The ids returned by a sequence of calls of [order] on one context,
    and the context they leave. *)
Fixpoint place_orders (parse : string -> option Py.float) (ctx : StrategyContext.t)
  (calls : list OrderCall) : list string * StrategyContext.t :=
  match calls with
  | [] => ([], ctx)
  | c :: rest =>
      let r := StrategyContext.order parse (StrategyContext.set_current ctx (oc_candle c))
                 (oc_action c) (oc_size c) (oc_price c) (oc_reason c) in
      let rs := place_orders parse (snd r) rest in
      (fst r :: fst rs, snd rs)
  end.

(** One candle. *)
Definition candle_1 : Candle :=
  {| time := "2024-01-02 09:00"; open := 100; high := 102; low := 99; close := 101;
     volume := 10; orderBook := None |}.

Definition arity_error : Wrapper.exn :=
  {| Wrapper.cls := Wrapper.TypeError; Wrapper.frames := EmptyString;
     Wrapper.summary := "TypeError: on_tick() missing 1 required positional argument" |}.

(** The user code [def on_tick(candles, ctx): ctx.order("BUY", 1, float("nan"))]. *)
Definition nan_strategy (parse : string -> option Py.float) : Wrapper.Namespace unit :=
  {| Wrapper.g_on_tick :=
       Some {| Wrapper.parameters := Some 2%nat;
               Wrapper.call1 := fun _ _ _ => inl arity_error;
               Wrapper.call2 := fun w u ctx =>
                 inr (w, u, snd (StrategyContext.order parse ctx (Py.VStr "BUY") (Py.VInt 1)
                                   (Py.VFloat Py.NaN) (Py.VStr EmptyString))) |};
     Wrapper.g_strategy := None;
     Wrapper.g_on_start := None;
     Wrapper.g_types := [];
     Wrapper.g_max_lookback := Wrapper.Untouched;
     Wrapper.g_heap := tt |}.

(** An exception whose message contains the text [PythonError:]. *)
Definition boom : Wrapper.exn :=
  {| Wrapper.cls := Wrapper.Exception;
     Wrapper.frames := ("  File <exec>, line 4, in on_tick" ++ Wrapper.nl)%string;
     Wrapper.summary := "Exception: PythonError: boom" |}.

(** The user code
    [def on_tick(candles, ctx): ctx.order("BUY"); if len(candles) >= 2: raise Exception("PythonError: boom")]:
    an order on every bar, and an exception from the second bar on. *)
Definition raising_strategy : Wrapper.Namespace unit :=
  {| Wrapper.g_on_tick :=
       Some {| Wrapper.parameters := Some 2%nat;
               Wrapper.call1 := fun _ _ _ => inl arity_error;
               Wrapper.call2 := fun w u ctx =>
                 let ctx' := snd (StrategyContext.order (fun _ => None) ctx (Py.VStr "BUY")
                                    (Py.VInt 1) Py.VNone (Py.VStr EmptyString)) in
                 if (2 <=? length w)%nat then inl boom else inr (w, u, ctx') |};
     Wrapper.g_strategy := None;
     Wrapper.g_on_start := None;
     Wrapper.g_types := [];
     Wrapper.g_max_lookback := Wrapper.Untouched;
     Wrapper.g_heap := tt |}.

Definition raising_payload : Wrapper.Payload unit :=
  {| Wrapper.code := inr raising_strategy;
     Wrapper.candles := [candle_1; candle_1];
     Wrapper.maxLookbackCandles := None |}.

(** One choice of the texts that come from Pyodide and from the
    JavaScript engine. *)
Definition pyodide_message_model (e : Wrapper.exn) : string := Wrapper.format_exc e.
Definition pyodide_toString_model (e : Wrapper.exn) : string :=
  ("PythonError: " ++ Wrapper.format_exc e)%string.
Definition syntax_error_model : string := "Unexpected token N in JSON".

(** The cap of the lookback window is off: the parsed value is absent
    or zero. *)
Definition uncapped (mlv : option Z) : Prop := mlv = None \/ mlv = Some 0%Z.

(** *** Integers of the log that fit a double *)



(** *** User code and the wrapper's own list *)

(** A call of the entry point that leaves the candle list it is handed as
    it got it. *)
Definition keeps_window {U : Type} (t : Wrapper.tick U) : Prop :=
  forall w u ctx w' u' ctx', t w u ctx = inr (w', u', ctx') -> w' = w.

(** User code none of whose entry points changes the candle list: its
    free functions, and the [on_tick] of every instance its classes
    construct. *)
Definition keeps_windows {U : Type} (ns : Wrapper.Namespace U) : Prop :=
  (forall f, Wrapper.g_on_tick ns = Some f \/ Wrapper.g_strategy ns = Some f ->
             keeps_window (Wrapper.call1 f) /\ keeps_window (Wrapper.call2 f))
  /\ (forall c u u' strategy,
        In c (Wrapper.g_types ns) ->
        Wrapper.construct_kw c u = (u', inr strategy)
        \/ Wrapper.construct_0 c u = (u', inr strategy) ->
        keeps_window (Wrapper.inst_on_tick strategy)).

Definition windows_kept {U : Type} (user_code : Wrapper.exn + Wrapper.Namespace U) : Prop :=
  match user_code with
  | inl _ => True
  | inr ns => keeps_windows ns
  end.

(** User code that neither binds nor deletes the global [max_lookback]. *)
Definition lookback_untouched {U : Type} (user_code : Wrapper.exn + Wrapper.Namespace U)
  : Prop :=
  match user_code with
  | inl _ => True
  | inr ns => Wrapper.g_max_lookback ns = Wrapper.Untouched
  end.

(** The cap a run replays with. *)
Definition effective_cap {U : Type} (user_code : Wrapper.exn + Wrapper.Namespace U)
  (max_lookback : option Py.float) : option Z :=
  match user_code with
  | inl _ => None
  | inr ns => Wrapper.lookback_cap (Wrapper.g_max_lookback ns) max_lookback
  end.

(** What precedes the replay loop in standard mode: the entry point that
    is resolved, and the user state and the context the loop starts with,
    or the exception raised on the way. *)
Definition entry_setup {U : Type} (ns : Wrapper.Namespace U)
  : Wrapper.exn + (Wrapper.tick U * U * StrategyContext.t) :=
  match (match Wrapper.g_on_tick ns with Some f => Some f | None => Wrapper.g_strategy ns end)
  with
  | Some f =>
      match Wrapper.run_on_start (Wrapper.g_on_start ns) (Wrapper.g_heap ns)
              StrategyContext.init with
      | inl e => inl e
      | inr (u, ctx) => inr (Wrapper.call_strategy f, u, ctx)
      end
  | None =>
      match Wrapper.target_class (Wrapper.g_types ns) with
      | None => inl Wrapper.no_strategy_class
      | Some c =>
          match Wrapper.instantiate c (Wrapper.g_heap ns) with
          | inl e => inl e
          | inr (u, strategy) =>
              match (match Wrapper.inst_on_start strategy with
                     | Some f => f u StrategyContext.init
                     | None => inr (u, StrategyContext.init)
                     end) with
              | inl e => inl e
              | inr (u1, ctx) => inr (Wrapper.inst_on_tick strategy, u1, ctx)
              end
          end
      end
  end.

(** The run gets as far as bar [i]: the user code was evaluated, the entry
    point was set up, and the replay of the [i] bars before raised
    nothing. *)
Definition reaches_bar {U : Type} (user_code : Wrapper.exn + Wrapper.Namespace U)
  (raw_data : list Candle) (max_lookback : option Py.float) (i : nat) : bool :=
  match user_code with
  | inl _ => false
  | inr ns =>
      match entry_setup ns with
      | inl _ => false
      | inr (t, u, ctx) =>
          match snd (Wrapper.replay t (effective_cap user_code max_lookback)
                       (firstn i raw_data) [] u ctx) with
          | inr _ => true
          | inl _ => false
          end
      end
  end.

(** A second candle. *)
Definition candle_2 : Candle :=
  {| time := "2024-01-02 09:05"; open := 101; high := 103; low := 100; close := 102;
     volume := 12; orderBook := None |}.

(** The user code [def on_tick(candles, ctx): candles.pop(0)]: it removes
    the oldest candle from the list it is handed. *)
Definition popping_strategy : Wrapper.Namespace unit :=
  {| Wrapper.g_on_tick :=
       Some {| Wrapper.parameters := Some 2%nat;
               Wrapper.call1 := fun _ _ _ => inl arity_error;
               Wrapper.call2 := fun w u ctx => inr (tl w, u, ctx) |};
     Wrapper.g_strategy := None;
     Wrapper.g_on_start := None;
     Wrapper.g_types := [];
     Wrapper.g_max_lookback := Wrapper.Untouched;
     Wrapper.g_heap := tt |}.

(** The user code [max_lookback = 1] followed by
    [def on_tick(candles, ctx): pass]. *)
Definition rebinding_strategy : Wrapper.Namespace unit :=
  {| Wrapper.g_on_tick :=
       Some {| Wrapper.parameters := Some 2%nat;
               Wrapper.call1 := fun _ _ _ => inl arity_error;
               Wrapper.call2 := fun w u ctx => inr (w, u, ctx) |};
     Wrapper.g_strategy := None;
     Wrapper.g_on_start := None;
     Wrapper.g_types := [];
     Wrapper.g_max_lookback := Wrapper.Bound (Some 1%Z);
     Wrapper.g_heap := tt |}.


(** ** The vocabulary of the further properties *)

(** *** The ledger and the dashboard *)

(** The gross profit per lot and point the ledger books on a close at the
    execution price [exec]: the price over the average price on a long
    position, under it on a short one. *)
Definition closing_edge (pos : TradeLedger.Position) (exec : Q) : Q :=
  if Qgtb (TradeLedger.size pos) 0 then exec - TradeLedger.avgPrice pos
  else TradeLedger.avgPrice pos - exec.

(** The other side. *)
Definition opposite (s : TradeLedger.Side) : TradeLedger.Side :=
  match s with TradeLedger.BUY => TradeLedger.SELL | TradeLedger.SELL => TradeLedger.BUY end.

(** A call of the dashboard's trade handler. *)
Record TradeRequest := {
  q_side : TradeLedger.Side;
  q_price : Q;
  q_size : Q;
  q_time : string;
  q_prefix : string;
  q_note : option string;
  q_stamp : string
}.

(** The handler applied to a sequence of requests, each on the state the
    previous one left. *)
Fixpoint handle_all (costConfig : TradeLedger.CostConfig) (reqs : list TradeRequest)
  (st : Dashboard.t) : option Dashboard.t :=
  match reqs with
  | [] => Some st
  | r :: rest =>
      match Dashboard.handleTradeLogic costConfig (q_side r) (q_price r) (q_size r)
              (q_time r) (q_prefix r) (q_note r) (q_stamp r) st with
      | Some st1 => handle_all costConfig rest st1
      | None => None
      end
  end.

(** The request as the ledger sees it. *)
Definition request_order (costConfig : TradeLedger.CostConfig) (r : TradeRequest)
  : TradeLedger.Order :=
  {| TradeLedger.o_side := q_side r; TradeLedger.o_rawPrice := q_price r;
     TradeLedger.o_size := q_size r; TradeLedger.o_costs := costConfig;
     TradeLedger.o_useSlippage := true |}.

(** *** The strategy context *)

(** What user code and the replay loop do to a context: the three calls of
    the API, and the assignment of the current candle. *)
Inductive ApiCall :=
| CallOrder (action size price reason : Py.value)
| CallCancel (order_id reason : Py.value)
| CallCloseAll (reason : Py.value)
| SetCandle (c : option Candle).

Definition api_step (parse : string -> option Py.float) (ctx : StrategyContext.t)
  (c : ApiCall) : StrategyContext.t :=
  match c with
  | CallOrder a s p r => snd (StrategyContext.order parse ctx a s p r)
  | CallCancel i r => StrategyContext.cancel ctx i r
  | CallCloseAll r => StrategyContext.close_all ctx r
  | SetCandle c => StrategyContext.set_current ctx c
  end.

Definition api_run (parse : string -> option Py.float) (ctx : StrategyContext.t)
  (calls : list ApiCall) : StrategyContext.t :=
  fold_left (api_step parse) calls ctx.

Definition is_order (c : ApiCall) : bool :=
  match c with CallOrder _ _ _ _ => true | _ => false end.

Definition is_signal_call (c : ApiCall) : bool :=
  match c with SetCandle _ => false | _ => true end.

Definition sets_no_candle (c : ApiCall) : bool :=
  match c with SetCandle (Some _) => false | _ => true end.

(** The candles a run of calls can stamp its signals with. *)
Definition candle_times (ctx : StrategyContext.t) (calls : list ApiCall) : list string :=
  (match StrategyContext.current_candle ctx with Some c => [time c] | None => [] end
   ++ flat_map (fun c => match c with SetCandle (Some k) => [time k] | _ => [] end) calls)%list.

(** The signal [order] appends on candle [c]: the last entry of the log
    it leaves. *)
Definition order_signal (parse : string -> option Py.float) (ctx : StrategyContext.t)
  (c : Candle) (action size price reason : Py.value) : option Signal :=
  last (StrategyContext.signals
          (snd (StrategyContext.order parse (StrategyContext.set_current ctx (Some c))
                  action size price reason))).

(** [price] is a string that lands in the [reason] slot. *)
Definition shimmed (price reason : Py.value) : bool :=
  match price, reason with
  | Py.VStr _, Py.VStr EmptyString => true
  | _, _ => false
  end.

(** *** The network and the default environment *)

(** The Q-values of one state. *)
Definition q_row (self : MicroModel.t) (x : list Q) : list Q :=
  Np.vadd (Np.row_dot (map Np.relu (Np.vadd (Np.row_dot x (MicroModel.W1 self))
                                      (nth 0 (MicroModel.b1 self) [])))
             (MicroModel.W2 self))
    (nth 0 (MicroModel.b2 self) []).

(** Entry [(i, j)] of a matrix. *)
Definition entry (M : Np.matrix) (i j : nat) : option Q :=
  match M !! i with Some r => r !! j | None => None end.

(** The environment is usable: it has rows, no close is zero, and its step
    points at a row. *)
Definition env_ok (self : TradingEnv.t) : Prop :=
  TradingEnv.df self <> []
  /\ Forall (fun r => ~ TradingEnv.r_close r == 0) (TradingEnv.df self)
  /\ (0 <= TradingEnv.current_step self < Z.of_nat (length (TradingEnv.df self)))%Z.

(** A position is flat, long one lot or short one lot. *)
Definition unit_position (p : Z) : Prop := p = 0%Z \/ p = 1%Z \/ p = (-1)%Z.

(** The [done] flags of the steps an episode makes with the actions
    [actions], and the environment they leave; [None] when a step raises. *)
Fixpoint env_steps (self : TradingEnv.t) (actions : list nat)
  : option (list bool * TradingEnv.t) :=
  match actions with
  | [] => Some ([], self)
  | a :: rest =>
      match TradingEnv.step self a with
      | None => None
      | Some (_, _, d, self') =>
          match env_steps self' rest with
          | None => None
          | Some (flags, final) => Some (d :: flags, final)
          end
      end
  end.

(** What the decay of epsilon reads and writes of an agent. *)
Definition exploration (a : DQNAgent.t) : Q * Q * Q :=
  (DQNAgent.epsilon a, DQNAgent.epsilon_min a, DQNAgent.epsilon_decay a).

Local Close Scope Q_scope.

(** *** The replay buffer, the training loop, the worker handle, the dispatcher
    and the lookback window *)

(** The buffer after pushing the transitions [xs], oldest first. *)
Definition push_all (b : ReplayBuffer.t) (xs : list Transition) : ReplayBuffer.t :=
  fold_left ReplayBuffer.push xs b.

(** What the buffer holds after [n] pushes in all: the last [capacity]
    of them, each at the slot of its number modulo the capacity. *)
Definition holds_last (c : nat) (xs : list Transition) (b : ReplayBuffer.t) : Prop :=
  ReplayBuffer.capacity b = c
  /\ length (ReplayBuffer.buffer b) = Nat.min (length xs) c
  /\ ReplayBuffer.position b = length xs mod c
  /\ forall j, length xs - c <= j -> j < length xs ->
               ReplayBuffer.buffer b !! (j mod c) = xs !! j.

(** The episodes whose record goes to the history: every fifth, and the
    last. *)
Definition recorded (episodes e : nat) : bool :=
  ((e mod 5 =? 0) || (e =? episodes - 1))%nat.

(** The types of the messages the worker posts (lines 661-765): every
    one but [TRAIN_PROGRESS] ends its request. *)
Definition posted_by_worker (t : WorkerHandle.MsgType) : bool :=
  match t with
  | WorkerHandle.OTHER _ => false
  | _ => true
  end.

(** The messages that end request [id]. *)
Definition ends_request {R P : Type} (id : string) (m : WorkerHandle.Message R P) : bool :=
  String.eqb (WorkerHandle.m_id m) id && WorkerHandle.is_final (WorkerHandle.m_type m).

(** What the first message that ends a request does to its promise. *)
Definition outcome {R P : Type} (m : WorkerHandle.Message R P) : WorkerHandle.Event R P :=
  match WorkerHandle.m_type m with
  | WorkerHandle.ERROR =>
      WorkerHandle.Rejected (WorkerHandle.m_id m) (WorkerHandle.m_error m)
  | _ => WorkerHandle.Resolved (WorkerHandle.m_id m) (WorkerHandle.m_result m)
  end.

(** The tasks in flight: one for each worker suspended on an [await]. *)
Definition in_flight (x : Batch.Worker) : nat :=
  match x with
  | Batch.Awaiting _ => 1
  | _ => 0
  end.

(** The calls of [onProgress] after [k] tasks of [n] have settled. *)
Definition progress_calls (k n : nat) : list (nat * nat) :=
  map (fun j => (S j, n)) (seq 0 k).

(** The counters of the dispatcher agree with each other in every
    reachable state. *)
Record Counted {Task Signals : Type} (tasks : list Task) (st : Batch.State Task Signals)
  : Prop := {
  cnt_progress : Batch.progress st = progress_calls (Batch.completed st) (length tasks);
  cnt_claimed : Batch.completed st + sum_list (map in_flight (Batch.workers st))
                = Nat.min (Batch.nextIndex st) (length tasks);
  cnt_handles : length (Batch.ran st) = length (Batch.workers st);
  cnt_ran : sum_list (map (@length Task) (Batch.ran st)) = Batch.completed st
}.


(** A class the wrapper takes for a strategy: defined by the user code
    under a name that is not one of the wrapper's, with an [on_tick]. *)
Definition strategy_class {U : Type} (c : Wrapper.Class U) : bool :=
  negb (Wrapper.mem (Wrapper.binding c) Wrapper.builtin_names)
  && Wrapper.in_main c && Wrapper.has_on_tick c.

Local Open Scope Q_scope.

(** *** Concrete inputs *)

Definition tr_a : Transition :=
  {| tr_state := [1]; tr_action := 0%nat; tr_reward := 0; tr_next_state := [2];
     tr_done := false |}.

Definition tr_b : Transition :=
  {| tr_state := [2]; tr_action := 1%nat; tr_reward := 1; tr_next_state := [3];
     tr_done := false |}.

Definition tr_c : Transition :=
  {| tr_state := [3]; tr_action := 2%nat; tr_reward := -1; tr_next_state := [4];
     tr_done := true |}.

(** A request of a strategy run, whose task the worker answers with an
    error and then, wrongly, with a success. *)
Definition one_request : gmap string WorkerHandle.Handler :=
  WorkerHandle.register empty "run-1" {| WorkerHandle.onProgress := false |}.

Definition msg_error_run_1 : WorkerHandle.Message nat nat :=
  {| WorkerHandle.m_type := WorkerHandle.ERROR; WorkerHandle.m_id := "run-1";
     WorkerHandle.m_result := 0%nat; WorkerHandle.m_error := "boom";
     WorkerHandle.m_payload := 0%nat |}.

Definition msg_success_run_1 : WorkerHandle.Message nat nat :=
  {| WorkerHandle.m_type := WorkerHandle.RUN_SUCCESS; WorkerHandle.m_id := "run-1";
     WorkerHandle.m_result := 7%nat; WorkerHandle.m_error := EmptyString;
     WorkerHandle.m_payload := 0%nat |}.

(** A strategy instance that places no order. *)
Definition idle_instance : Wrapper.Instance unit :=
  {| Wrapper.inst_on_start := None;
     Wrapper.inst_on_tick := fun w u ctx => inr (w, u, ctx) |}.

(** The user classes [class Helper: pass] and
    [class MyStrategy: def on_tick(self, candles, ctx): pass]. *)
Definition helper_class : Wrapper.Class unit :=
  {| Wrapper.binding := "Helper"; Wrapper.in_main := true; Wrapper.has_on_tick := false;
     Wrapper.construct_kw := fun u => (u, inr idle_instance);
     Wrapper.construct_0 := fun u => (u, inr idle_instance) |}.

Definition strategy_class_a : Wrapper.Class unit :=
  {| Wrapper.binding := "MyStrategy"; Wrapper.in_main := true; Wrapper.has_on_tick := true;
     Wrapper.construct_kw := fun u => (u, inr idle_instance);
     Wrapper.construct_0 := fun u => (u, inr idle_instance) |}.

(** A short position of one lot entered at 105, and a long one of two lots
    entered at 100. *)
Definition short_1_at_105 : TradeLedger.Position :=
  {| TradeLedger.size := -1; TradeLedger.avgPrice := 105 |}.

Definition long_2_at_100 : TradeLedger.Position :=
  {| TradeLedger.size := 2; TradeLedger.avgPrice := 100 |}.

(** A dashboard with a balance of 100000 and no position, and a buy and a
    sell of one lot. *)
Definition fresh_dashboard : Dashboard.t :=
  {| Dashboard.currentPosition := TradeLedger.flat;
     Dashboard.executionTrades := [];
     Dashboard.simState :=
       {| Dashboard.balance := 100000; Dashboard.equity := 100000; Dashboard.dayPnL := 0 |} |}.

Definition buy_request : TradeRequest :=
  {| q_side := TradeLedger.BUY; q_price := 100; q_size := 1; q_time := "09:00";
     q_prefix := "MAN"; q_note := None; q_stamp := "1" |}.

Definition sell_request : TradeRequest :=
  {| q_side := TradeLedger.SELL; q_price := 110; q_size := 1; q_time := "09:05";
     q_prefix := "MAN"; q_note := None; q_stamp := "2" |}.

(** A network of one input, one hidden unit and two outputs, and an agent
    on it that trains on batches of one transition and has [tr_a] in its
    memory. *)
Definition tiny_model : MicroModel.t := MicroModel.init 1 2 (1 # 10) [[1]] [[1; 2]].

Definition tiny_agent : DQNAgent.t :=
  DQNAgent.remember (DQNAgent.init 1 2 1 (1 # 10) (95 # 100) 1 (995 # 1000) 1 [[1]] [[1; 2]])
    tr_a.

(** The loss and the agent of one training step of [tiny_agent] on its
    memory. *)
Definition tiny_loss : Q :=
  Eval vm_compute in
    match DQNAgent.replay (fun l _ => l) tiny_agent with
    | Some (loss, _) => loss
    | None => 0
    end.

Definition tiny_agent_trained : DQNAgent.t :=
  Eval vm_compute in
    match DQNAgent.replay (fun l _ => l) tiny_agent with
    | Some (_, self) => self
    | None => tiny_agent
    end.

(** A frame of three candles, an environment at its first candle, and what
    a buy returns on it. *)
Definition tiny_row : TradingEnv.Row :=
  {| TradingEnv.r_close := 100; TradingEnv.r_sma_fast := 99; TradingEnv.r_sma_slow := 98;
     TradingEnv.r_rsi := 50 |}.

Definition tiny_frame : list TradingEnv.Row :=
  [tiny_row;
   {| TradingEnv.r_close := 101; TradingEnv.r_sma_fast := 100; TradingEnv.r_sma_slow := 99;
      TradingEnv.r_rsi := 55 |};
   {| TradingEnv.r_close := 102; TradingEnv.r_sma_fast := 101; TradingEnv.r_sma_slow := 100;
      TradingEnv.r_rsi := 60 |}].

Definition tiny_env : TradingEnv.t :=
  {| TradingEnv.df := tiny_frame; TradingEnv.current_step := 0; TradingEnv.position := 0;
     TradingEnv.entry_price := 0; TradingEnv.done := false |}.

Definition tiny_step_result : list Q * Q * bool * TradingEnv.t :=
  Eval vm_compute in
    match TradingEnv.step tiny_env 1 with
    | Some r => r
    | None => ([], 0, false, tiny_env)
    end.

(** Draws that always explore and pick action 0, and the agent and the
    history that six episodes on [tiny_frame] leave. *)
Definition toy_draw : Trainer.Draw :=
  {| Trainer.rand := 0; Trainer.randrange := fun _ => 0%nat;
     Trainer.sample := fun l _ => l |}.

Definition toy_agent : DQNAgent.t :=
  Eval vm_compute in
    match Trainer.train TradingEnv.reset TradingEnv.step
            (fun e => Some (length (TradingEnv.df e))) (fun _ => toy_draw)
            (fun _ => None) 6 tiny_env default_agent with
    | Some (a, _) => a
    | None => default_agent
    end.

Definition toy_history : list Training.RLTrainingStep :=
  Eval vm_compute in
    match Trainer.train TradingEnv.reset TradingEnv.step
            (fun e => Some (length (TradingEnv.df e))) (fun _ => toy_draw)
            (fun _ => None) 6 tiny_env default_agent with
    | Some (_, h) => h
    | None => []
    end.

(** * Part V: properties *)

(** ** Boolean comparisons *)

Lemma Qltb_lt (a b : Q) : Qltb a b = true <-> a < b.
Proof.
  unfold Qltb. rewrite negb_true_iff, <- not_true_iff_false, Qle_bool_iff.
  split; [apply Qnot_le_lt | apply Qlt_not_le].
Qed.

Lemma Qltb_ge (a b : Q) : Qltb a b = false <-> b <= a.
Proof.
  unfold Qltb. rewrite negb_false_iff, Qle_bool_iff. tauto.
Qed.

Lemma Qeq_bool_false (a b : Q) : Qeq_bool a b = false <-> ~ a == b.
Proof.
  rewrite <- not_true_iff_false, Qeq_bool_iff. tauto.
Qed.

(** Case analysis on the comparisons of a goal, turning each into the
    order fact it decides. *)
Ltac qcases :=
  repeat match goal with
    | |- context [Qgtb ?a ?b] => unfold Qgtb
    | H : context [Qgtb ?a ?b] |- _ => unfold Qgtb in H
    | |- context [Qltb ?a ?b] =>
        let E := fresh "E" in
        destruct (Qltb a b) eqn:E;
        [apply Qltb_lt in E | apply Qltb_ge in E]
    | |- context [Qeq_bool ?a ?b] =>
        let E := fresh "E" in
        destruct (Qeq_bool a b) eqn:E;
        [apply Qeq_bool_iff in E | apply Qeq_bool_false in E]
    end.

(** ** The trade ledger *)

Section LedgerProperties.

Import TradeLedger.

Lemma tradeSign_cases (s : Side) : tradeSign s = 1 \/ tradeSign s = -1.
Proof. destruct s; auto. Qed.

(** One trade of positive size always yields a position, whose size is
    the old size plus the signed quantity, and whose average price is
    zero when its size is. *)
Lemma processTradeLogic_size (side : Side) (raw sz : Q) (tm pre : string)
  (pos : Position) (note : option string) (costs : CostConfig) (sl : bool)
  (stamp : string) :
  0 < sz ->
  exists out,
    processTradeLogic side raw sz tm pre pos note costs sl stamp = Some out
    /\ size (newPos out) == size pos + sz * tradeSign side
    /\ (size (newPos out) == 0 -> avgPrice (newPos out) == 0).
Proof.
  intros Hsz. unfold processTradeLogic.
  destruct (isClosing side pos) eqn:Hc.
  - eexists; split; [reflexivity|]. cbn [newPos size avgPrice].
    split; [reflexivity|]. intros H0.
    qcases; simpl; try reflexivity; try lra.
  - assert (Hne : ~ Qabs (size pos) + sz == 0)
      by (pose proof (Qabs_nonneg (size pos)); lra).
    apply Qeq_bool_false in Hne. rewrite Hne.
    eexists; split; [reflexivity|]. cbn [newPos size avgPrice].
    split; [reflexivity|]. intros H0. exfalso.
    unfold isClosing in Hc. destruct side; cbn [tradeSign] in H0;
      unfold Qgtb in Hc; apply Qltb_ge in Hc; lra.
Qed.

(** With a positive execution price, a non-flat position keeps a
    positive average price. *)
Lemma processTradeLogic_avg_pos (side : Side) (raw sz : Q) (tm pre : string)
  (pos : Position) (note : option string) (costs : CostConfig) (sl : bool)
  (stamp : string) (out : Outcome) :
  0 < sz ->
  0 < execPrice side raw costs sl ->
  (~ size pos == 0 -> 0 < avgPrice pos) ->
  processTradeLogic side raw sz tm pre pos note costs sl stamp = Some out ->
  ~ size (newPos out) == 0 -> 0 < avgPrice (newPos out).
Proof.
  intros Hsz Hpx Hinv. unfold processTradeLogic.
  destruct (isClosing side pos) eqn:Hc.
  - intros [= <-]. cbn [newPos size avgPrice]. intros Hn.
    assert (Hs : ~ size pos == 0).
    { unfold isClosing, Qgtb in Hc. destruct side; apply Qltb_lt in Hc; lra. }
    specialize (Hinv Hs).
    qcases; simpl; try assumption; try lra.
  - destruct (Qeq_bool (Qabs (size pos) + sz) 0) eqn:Hz; [discriminate|].
    intros [= <-]. cbn [newPos size avgPrice]. intros _.
    pose proof (Qabs_nonneg (size pos)) as Habs.
    apply Qlt_shift_div_l; [lra|].
    assert (0 <= Qabs (size pos) * avgPrice pos).
    { destruct (Qeq_dec (size pos) 0) as [Hz0|Hnz].
      - rewrite Hz0. change (Qabs 0) with 0. lra.
      - apply Qmult_le_0_compat; [assumption|]. apply Qlt_le_weak; auto. }
    assert (0 < sz * execPrice side raw costs sl) by (apply Qmult_lt_0_compat; assumption).
    lra.
Qed.

Lemma applyTrades_from (orders : list Order) :
  Forall (fun o => 0 < o_size o) orders ->
  forall pos,
    (size pos == 0 -> avgPrice pos == 0) ->
    exists pos',
      applyTrades orders pos = Some pos'
      /\ size pos' == size pos + signedSum orders
      /\ (size pos' == 0 -> avgPrice pos' == 0)
      /\ (Forall (fun o => 0 < orderExecPrice o) orders ->
          (~ size pos == 0 -> 0 < avgPrice pos) ->
          ~ size pos' == 0 -> 0 < avgPrice pos').
Proof.
  induction 1 as [|o rest Ho Hrest IH]; intros pos Hz.
  - exists pos. simpl. repeat split; auto. lra.
  - simpl.
    destruct (processTradeLogic_size (o_side o) (o_rawPrice o) (o_size o) EmptyString "T"%string
                pos None (o_costs o) (o_useSlippage o) EmptyString Ho) as (out & E & Hs & Hz').
    rewrite E.
    destruct (IH (newPos out) Hz') as (pos' & E' & Hs' & Hz'' & Hp').
    exists pos'. repeat split; auto.
    + rewrite Hs', Hs. unfold signedQty. lra.
    + intros Hall Hinv. inversion Hall as [|? ? Hpx Hpxs]; subst.
      apply Hp'; auto.
      exact (processTradeLogic_avg_pos _ _ _ _ _ _ _ _ _ _ _ Ho Hpx Hinv E).
Qed.

End LedgerProperties.

(** C2, as amended.  For every sequence of trades of positive size applied
    from the flat position, the ledger yields a position whose size is the
    signed sum of the quantities and whose average price is zero when its
    size is zero; when moreover every execution price is positive, a zero
    average price is only found on a flat position. *)
Theorem ledger_position_invariant (orders : list TradeLedger.Order) :
  Forall (fun o => 0 < TradeLedger.o_size o) orders ->
  exists pos,
    TradeLedger.applyTrades orders TradeLedger.flat = Some pos
    /\ TradeLedger.size pos == TradeLedger.signedSum orders
    /\ (TradeLedger.size pos == 0 -> TradeLedger.avgPrice pos == 0)
    /\ (Forall (fun o => 0 < TradeLedger.orderExecPrice o) orders ->
        TradeLedger.avgPrice pos == 0 -> TradeLedger.size pos == 0).
Proof.
  intros Hall.
  destruct (applyTrades_from orders Hall TradeLedger.flat) as (pos & E & Hs & Hz & Hp).
  { reflexivity. }
  exists pos. repeat split; auto.
  - rewrite Hs. simpl. lra.
  - intros Hpx Havg. destruct (Qeq_dec (TradeLedger.size pos) 0) as [|Hn]; [assumption|].
    exfalso. assert (0 < TradeLedger.avgPrice pos).
    { apply Hp; auto. simpl. intros Hc. exfalso. apply Hc. reflexivity. }
    lra.
Qed.

Lemma ledger_position_invariant_witness :
  exists pos,
    TradeLedger.applyTrades [long_100; long_110] TradeLedger.flat = Some pos
    /\ TradeLedger.size pos == TradeLedger.signedSum [long_100; long_110]
    /\ (TradeLedger.size pos == 0 -> TradeLedger.avgPrice pos == 0)
    /\ (Forall (fun o => 0 < TradeLedger.orderExecPrice o) [long_100; long_110] ->
        TradeLedger.avgPrice pos == 0 -> TradeLedger.size pos == 0).
Proof.
  apply (ledger_position_invariant [long_100; long_110]).
  repeat constructor.
Defined.

(** C2 fails as stated: a market sell of one lot quoted at 1 executes at
    price 0 and leaves a short position of one lot whose average price
    is 0. *)
Lemma ledger_zero_price_counterexample :
  exists pos,
    TradeLedger.applyTrades [short_at_1] TradeLedger.flat = Some pos
    /\ TradeLedger.avgPrice pos == 0
    /\ ~ TradeLedger.size pos == 0.
Proof.
  eexists. split; [vm_compute; reflexivity|]. split.
  - reflexivity.
  - discriminate.
Qed.

(** C3.  A trade of positive size that opens or adds to a position (a buy
    on a flat or long position, a sell on a flat or short one) sets the
    average price to the size-weighted mean of the old position and the
    fill at the execution price; and opening long one lot executed at 100,
    then adding one lot executed at 110, leaves two lots at 105. *)
Theorem open_or_add_weighted_mean :
  (forall (side : TradeLedger.Side) (rawPrice sz : Q) (tm pre : string)
          (pos : TradeLedger.Position) (note : option string)
          (costs : TradeLedger.CostConfig) (useSlippage : bool) (stamp : string),
      0 < sz ->
      (side = TradeLedger.BUY /\ 0 <= TradeLedger.size pos
       \/ side = TradeLedger.SELL /\ TradeLedger.size pos <= 0) ->
      exists out,
        TradeLedger.processTradeLogic side rawPrice sz tm pre pos note costs
          useSlippage stamp = Some out
        /\ TradeLedger.avgPrice (TradeLedger.newPos out)
           == (Qabs (TradeLedger.size pos) * TradeLedger.avgPrice pos
               + sz * TradeLedger.execPrice side rawPrice costs useSlippage)
              / (Qabs (TradeLedger.size pos) + sz)
        /\ TradeLedger.size (TradeLedger.newPos out)
           == TradeLedger.size pos + sz * TradeLedger.tradeSign side)
  /\ (TradeLedger.execPrice TradeLedger.BUY 100 TradeLedger.DEFAULT_COSTS false == 100
      /\ TradeLedger.execPrice TradeLedger.BUY 110 TradeLedger.DEFAULT_COSTS false == 110
      /\ exists pos,
           TradeLedger.applyTrades [long_100; long_110] TradeLedger.flat = Some pos
           /\ TradeLedger.size pos == 2
           /\ TradeLedger.avgPrice pos == 105).
Proof.
  split.
  - intros side raw sz tm pre pos note costs sl stamp Hsz Hsame.
    assert (Hc : TradeLedger.isClosing side pos = false).
    { unfold TradeLedger.isClosing, Qgtb.
      destruct Hsame as [[-> H]|[-> H]]; apply Qltb_ge; assumption. }
    unfold TradeLedger.processTradeLogic. rewrite Hc.
    assert (Hne : ~ Qabs (TradeLedger.size pos) + sz == 0)
      by (pose proof (Qabs_nonneg (TradeLedger.size pos)); lra).
    apply Qeq_bool_false in Hne. rewrite Hne.
    eexists. split; [reflexivity|]. split; reflexivity.
  - split; [reflexivity|]. split; [reflexivity|].
    eexists. split; [vm_compute; reflexivity|]. split; reflexivity.
Qed.

Lemma open_or_add_weighted_mean_witness :
  exists out,
    TradeLedger.processTradeLogic TradeLedger.BUY 110 1 EmptyString "T"%string
      {| TradeLedger.size := 1; TradeLedger.avgPrice := 100 |} None
      TradeLedger.DEFAULT_COSTS false EmptyString = Some out
    /\ TradeLedger.avgPrice (TradeLedger.newPos out)
       == (Qabs 1 * 100 + 1 * 110) / (Qabs 1 + 1)
    /\ TradeLedger.size (TradeLedger.newPos out) == 1 + 1 * 1.
Proof.
  apply (proj1 open_or_add_weighted_mean TradeLedger.BUY 110 1 EmptyString "T"%string
           {| TradeLedger.size := 1; TradeLedger.avgPrice := 100 |} None
           TradeLedger.DEFAULT_COSTS false EmptyString).
  - reflexivity.
  - left. split; [reflexivity | discriminate].
Defined.

(** With the default slippage of one point on, the same two buys quoted at
    100 and 110 execute at 101 and 111 and average 106. *)
Lemma default_slippage_average :
  exists pos,
    TradeLedger.applyTrades
      [ {| TradeLedger.o_side := TradeLedger.BUY; TradeLedger.o_rawPrice := 100;
           TradeLedger.o_size := 1; TradeLedger.o_costs := TradeLedger.DEFAULT_COSTS;
           TradeLedger.o_useSlippage := true |};
        {| TradeLedger.o_side := TradeLedger.BUY; TradeLedger.o_rawPrice := 110;
           TradeLedger.o_size := 1; TradeLedger.o_costs := TradeLedger.DEFAULT_COSTS;
           TradeLedger.o_useSlippage := true |} ] TradeLedger.flat = Some pos
    /\ TradeLedger.size pos == 2
    /\ TradeLedger.avgPrice pos == 106.
Proof.
  eexists. split; [vm_compute; reflexivity|]. split; reflexivity.
Qed.

(** ** The moving average of [StrategyContext] *)

Section SmaProperties.

Lemma index_nat {A} (l : list A) (i : nat) :
  Py.index l (Z.of_nat i) = nth_error l i.
Proof.
  unfold Py.index. destruct (Z.leb_spec 0 (Z.of_nat i)); [|lia].
  now rewrite Nat2Z.id.
Qed.

Lemma sum_app (l r : list Q) : Py.sum (l ++ r) == Py.sum l + Py.sum r.
Proof. induction l as [|x l IH]; simpl; [lra | rewrite IH; lra]. Qed.

Lemma sum_firstn_S (l : list Q) (k : nat) (x : Q) :
  nth_error l k = Some x ->
  Py.sum (firstn (S k) l) == Py.sum (firstn k l) + x.
Proof.
  revert l. induction k as [|k IH]; intros [|y l] H; try discriminate.
  - injection H as ->. simpl. lra.
  - simpl in H. specialize (IH l H). cbn [firstn Py.sum] in *. rewrite IH. lra.
Qed.

Lemma skipn_cons_nth {A} (l : list A) (j : nat) (x : A) :
  nth_error l j = Some x -> skipn j l = x :: skipn (S j) l.
Proof.
  revert l. induction j as [|j IH]; intros [|y d] H; try discriminate.
  - injection H as ->. reflexivity.
  - simpl in H. apply (IH d H).
Qed.

(** Sliding the window by one: drop its first value, take the next. *)
Lemma window_slide (data : list Q) (p j : nat) (old new : Q) :
  (0 < p)%nat ->
  nth_error data j = Some old ->
  nth_error data (p + j) = Some new ->
  Py.sum (firstn p (skipn (S j) data))
  == Py.sum (firstn p (skipn j data)) - old + new.
Proof.
  intros Hp Hold Hnew.
  destruct p as [|k]; [lia|].
  rewrite (skipn_cons_nth data j old Hold). cbn [firstn Py.sum].
  rewrite (sum_firstn_S (skipn (S j) data) k new).
  - lra.
  - rewrite nth_error_skipn. rewrite <- Hnew. f_equal. lia.
Qed.


Lemma sma_loop_spec (data : list Q) (p : nat) :
  (0 < p)%nat ->
  forall (m j : nat) (ws : Q) (ret : list Q),
    (p + j + m = length data)%nat ->
    ws == Py.sum (firstn p (skipn j data)) ->
    length ret = (p + j)%nat ->
    (forall i, (i < p + j)%nat -> nth i ret 0 == sma_expected data p i) ->
    exists ret',
      StrategyContext.sma_loop data (Z.of_nat p)
        (map (fun k => (Z.of_nat p + Z.of_nat k)%Z) (seq j m)) ws ret = Some ret'
      /\ length ret' = length data
      /\ forall i, (i < length data)%nat -> nth i ret' 0 == sma_expected data p i.
Proof.
  intros Hp. induction m as [|m IH]; intros j ws ret Hlen Hws Hret Hval.
  - exists ret. simpl. split; [reflexivity|]. split; [lia|].
    intros i Hi. apply Hval. lia.
  - cbn [seq map StrategyContext.sma_loop].
    replace (Z.of_nat p + Z.of_nat j - Z.of_nat p)%Z with (Z.of_nat j) by lia.
    replace (Z.of_nat p + Z.of_nat j)%Z with (Z.of_nat (p + j)) by lia.
    rewrite !index_nat.
    destruct (nth_error data j) as [old|] eqn:Eo;
      [|apply nth_error_None in Eo; lia].
    destruct (nth_error data (p + j)) as [new|] eqn:En;
      [|apply nth_error_None in En; lia].
    destruct (IH (S j) (ws - old + new)
                (ret ++ [(ws - old + new) / inject_Z (Z.of_nat p)])) as (ret' & E & Hl & Hv).
    + lia.
    + rewrite (window_slide data p j old new Hp Eo En), Hws. reflexivity.
    + rewrite length_app. simpl. lia.
    + intros i Hi. destruct (Nat.eq_dec i (p + j)%nat) as [->|Hne].
      * rewrite app_nth2 by lia. rewrite Hret, Nat.sub_diag. cbn [nth].
        unfold sma_expected, window_at.
        destruct (Nat.ltb_spec (p + j)%nat (p - 1)%nat); [lia|].
        replace (S (p + j) - p)%nat with (S j) by lia.
        rewrite (window_slide data p j old new Hp Eo En), Hws. reflexivity.
      * rewrite app_nth1 by lia. apply Hval. lia.
    + exists ret'. split; [|split; assumption].
      rewrite <- E. f_equal.
Qed.


Lemma index_last {A} (l : list A) : Py.index l (-1) = last l.
Proof.
  induction l as [|x l _] using rev_ind; [reflexivity|].
  rewrite last_snoc. unfold Py.index.
  rewrite length_app. cbn [length Z.leb Z.compare].
  destruct (Z.leb_spec 0 (Z.of_nat (length l + 1) + -1)); [|lia].
  replace (Z.to_nat (Z.of_nat (length l + 1) + -1)) with (length l) by lia.
  rewrite nth_error_app2 by lia. now rewrite Nat.sub_diag.
Qed.

End SmaProperties.

(** C1, as amended.  For a period of at least one: on a non-empty series
    strictly shorter than the period, [sma] returns the series' last value
    repeated to the length of the input; on a series of at least [period]
    values it returns a series of the same length whose first [period-1]
    entries are the mean of the first window and whose entry at every later
    index is the mean of the window that ends there. *)
Theorem sma_edge_policy (data : list Q) (period : Z) :
  (0 < period)%Z ->
  (forall x, (Z.of_nat (length data) < period)%Z -> last data = Some x ->
             StrategyContext.sma data period = Some (repeat x (length data)))
  /\ ((period <= Z.of_nat (length data))%Z ->
      exists ret,
        StrategyContext.sma data period = Some ret
        /\ length ret = length data
        /\ forall i, (i < length data)%nat ->
             nth i ret 0 ==
             if (i <? Z.to_nat period - 1)%nat
             then mean (firstn (Z.to_nat period) data)
             else mean (window_at data (Z.to_nat period) i)).
Proof.
  intros Hp. split.
  - intros x Hlt Hlast. unfold StrategyContext.sma.
    destruct (Z.ltb_spec (Z.of_nat (length data)) period); [|lia].
    rewrite index_last, Hlast. unfold Py.replicate. now rewrite Nat2Z.id.
  - intros Hle. unfold StrategyContext.sma.
    destruct (Z.ltb_spec (Z.of_nat (length data)) period); [lia|].
    destruct (Z.eqb_spec period 0); [lia|].
    set (p := Z.to_nat period).
    assert (Ep : period = Z.of_nat p) by lia.
    assert (Hp' : (0 < p)%nat) by lia.
    assert (Hpl : (p <= length data)%nat) by lia.
    unfold Py.slice_to, Py.range, Py.replicate.
    destruct (Z.leb_spec 0 period); [|lia].
    fold p. rewrite Ep.
    replace (Z.to_nat (Z.of_nat p - 1)) with (p - 1)%nat by lia.
    replace (Z.to_nat (Z.of_nat (length data) - Z.of_nat p)) with (length data - p)%nat by lia.
    set (curr := Py.sum (firstn p data) / inject_Z (Z.of_nat p)).
    assert (Hrep : (repeat curr (p - 1) ++ [curr])%list = repeat curr p).
    { rewrite <- repeat_cons. destruct p; [lia|]. simpl. now rewrite Nat.sub_0_r. }
    rewrite Hrep.
    destruct (sma_loop_spec data p Hp' (length data - p) 0
                (Py.sum (firstn p data)) (repeat curr p)) as (ret & E & Hl & Hv).
    + lia.
    + reflexivity.
    + rewrite repeat_length. lia.
    + intros i Hi. rewrite nth_repeat_lt by lia. unfold sma_expected, window_at, curr.
      destruct (Nat.ltb_spec i (p - 1)%nat); [reflexivity|].
      replace (S i - p)%nat with 0%nat by lia. reflexivity.
    + exists ret. split; [exact E|]. split; [exact Hl|].
      intros i Hi. rewrite (Hv i Hi). unfold sma_expected, mean, window_at.
      rewrite !length_firstn, length_skipn.
      destruct (Nat.ltb_spec i (p - 1)%nat).
      * now replace (Init.Nat.min p (length data)) with p by lia.
      * now replace (Init.Nat.min p (length data - (S i - p))) with p by lia.
Qed.


Lemma sma_edge_policy_witness :
  (forall x, (Z.of_nat (length [1; 2; 3; 4]) < 2)%Z -> last [1; 2; 3; 4] = Some x ->
             StrategyContext.sma [1; 2; 3; 4] 2 = Some (repeat x (length [1; 2; 3; 4])))
  /\ ((2 <= Z.of_nat (length [1; 2; 3; 4]))%Z ->
      exists ret,
        StrategyContext.sma [1; 2; 3; 4] 2 = Some ret
        /\ length ret = length [1; 2; 3; 4]
        /\ forall i, (i < length [1; 2; 3; 4])%nat ->
             nth i ret 0 ==
             if (i <? Z.to_nat 2 - 1)%nat
             then mean (firstn (Z.to_nat 2) [1; 2; 3; 4])
             else mean (window_at [1; 2; 3; 4] (Z.to_nat 2) i)).
Proof.
  apply (sma_edge_policy [1; 2; 3; 4] 2). reflexivity.
Defined.

(** C1 fails as stated: on the series 1, 3 and a period of 5 the result
    repeats 3, the last value, while the mean of the series is 2. *)
Lemma sma_short_input_counterexample :
  StrategyContext.sma [1; 3] 5 = Some [3; 3] /\ ~ 3 == mean [1; 3].
Proof.
  split; [reflexivity | discriminate].
Qed.

(** On an empty series and a positive period the source raises. *)
Lemma sma_empty_raises (period : Z) :
  (0 < period)%Z -> StrategyContext.sma [] period = None.
Proof.
  intros H. unfold StrategyContext.sma.
  assert (E : (Z.of_nat (length (@nil Q)) <? period)%Z = true)
    by (apply Z.ltb_lt; simpl; lia).
  rewrite E. reflexivity.
Qed.

(** ** The decay of epsilon *)

Lemma decay_epsilon_step (b : DQNAgent.t) :
  0 < DQNAgent.epsilon_decay b ->
  DQNAgent.epsilon_min b * DQNAgent.epsilon_decay b <= DQNAgent.epsilon b ->
  DQNAgent.epsilon_min (DQNAgent.decay_epsilon b) = DQNAgent.epsilon_min b
  /\ DQNAgent.epsilon_decay (DQNAgent.decay_epsilon b) = DQNAgent.epsilon_decay b
  /\ DQNAgent.epsilon_min b * DQNAgent.epsilon_decay b
     <= DQNAgent.epsilon (DQNAgent.decay_epsilon b).
Proof.
  intros Hd H. unfold DQNAgent.decay_epsilon, Qgtb.
  destruct (Qltb (DQNAgent.epsilon_min b) (DQNAgent.epsilon b)) eqn:E.
  - apply Qltb_lt in E. cbn. split; [reflexivity|]. split; [reflexivity|].
    apply Qmult_le_compat_r; lra.
  - auto.
Qed.

Lemma decay_epsilon_lower_bound (a : DQNAgent.t) (n : nat) :
  0 < DQNAgent.epsilon_decay a ->
  DQNAgent.epsilon_min a * DQNAgent.epsilon_decay a <= DQNAgent.epsilon a ->
  DQNAgent.epsilon_min a * DQNAgent.epsilon_decay a
  <= DQNAgent.epsilon (Nat.iter n DQNAgent.decay_epsilon a).
Proof.
  intros Hd H.
  enough (G : DQNAgent.epsilon_min (Nat.iter n DQNAgent.decay_epsilon a)
              = DQNAgent.epsilon_min a
              /\ DQNAgent.epsilon_decay (Nat.iter n DQNAgent.decay_epsilon a)
                 = DQNAgent.epsilon_decay a
              /\ DQNAgent.epsilon_min a * DQNAgent.epsilon_decay a
                 <= DQNAgent.epsilon (Nat.iter n DQNAgent.decay_epsilon a)) by apply G.
  induction n as [|n (E1 & E2 & IH)]; [auto|].
  rewrite !Nat.iter_succ.
  set (b := Nat.iter n DQNAgent.decay_epsilon a) in *.
  destruct (decay_epsilon_step b) as (F1 & F2 & F3).
  - now rewrite E2.
  - now rewrite E1, E2.
  - rewrite E1, E2 in F3. repeat split; [congruence | congruence | exact F3].
Qed.

(** C4, on the code.  With the default arguments (epsilon 1.0, decay
    0.995) epsilon is still above the floor of 0.01 after 918 episodes, and
    the 919th decay takes it strictly below the floor, where it stays. *)
Theorem epsilon_falls_below_floor :
  DQNAgent.epsilon_min default_agent == 1 # 100
  /\ 1 # 100 < DQNAgent.epsilon (Nat.iter 918 DQNAgent.decay_epsilon default_agent)
  /\ DQNAgent.epsilon (Nat.iter 919 DQNAgent.decay_epsilon default_agent) < 1 # 100
  /\ DQNAgent.epsilon (Nat.iter 920 DQNAgent.decay_epsilon default_agent)
     = DQNAgent.epsilon (Nat.iter 919 DQNAgent.decay_epsilon default_agent).
Proof.
  split; [reflexivity|]. split; [vm_compute; reflexivity|].
  split; [vm_compute; reflexivity|]. vm_compute. reflexivity.
Qed.

(** ** The learning step *)

(** C8.  While the replay buffer holds fewer than [batch_size] transitions,
    [replay] returns a loss of 0 and leaves the agent, and with it the
    weights and biases of its network, as they were. *)
Theorem replay_noop_below_batch_size
  (sample : list Transition -> nat -> list Transition) (self : DQNAgent.t) :
  (ReplayBuffer.len (DQNAgent.memory self) < DQNAgent.batch_size self)%nat ->
  exists self',
    DQNAgent.replay sample self = Some (0, self')
    /\ MicroModel.W1 (DQNAgent.model self') = MicroModel.W1 (DQNAgent.model self)
    /\ MicroModel.b1 (DQNAgent.model self') = MicroModel.b1 (DQNAgent.model self)
    /\ MicroModel.W2 (DQNAgent.model self') = MicroModel.W2 (DQNAgent.model self)
    /\ MicroModel.b2 (DQNAgent.model self') = MicroModel.b2 (DQNAgent.model self)
    /\ self' = self.
Proof.
  intros H. exists self. unfold DQNAgent.replay.
  apply Nat.ltb_lt in H. rewrite H. repeat split; reflexivity.
Qed.

Lemma replay_noop_below_batch_size_witness :
  exists self',
    DQNAgent.replay (fun b k => firstn k b) default_agent = Some (0, self')
    /\ MicroModel.W1 (DQNAgent.model self') = MicroModel.W1 (DQNAgent.model default_agent)
    /\ MicroModel.b1 (DQNAgent.model self') = MicroModel.b1 (DQNAgent.model default_agent)
    /\ MicroModel.W2 (DQNAgent.model self') = MicroModel.W2 (DQNAgent.model default_agent)
    /\ MicroModel.b2 (DQNAgent.model self') = MicroModel.b2 (DQNAgent.model default_agent)
    /\ self' = default_agent.
Proof.
  apply (replay_noop_below_batch_size (fun b k => firstn k b) default_agent).
  vm_compute. lia.
Defined.

(** ** Order ids *)

Lemma str_of_nat_inj (n m : nat) : Py.str_of_nat n = Py.str_of_nat m -> n = m.
Proof.
  unfold Py.str_of_nat. intros H.
  apply (f_equal NilEmpty.uint_of_string) in H. rewrite !NilEmpty.usu in H.
  injection H as H. apply (f_equal Nat.of_uint) in H.
  now rewrite !Unsigned.of_to in H.
Qed.

Lemma order_id_of_inj (n m : nat) :
  StrategyContext.order_id_of n = StrategyContext.order_id_of m -> n = m.
Proof.
  unfold StrategyContext.order_id_of. cbn [String.append]. intros [= H].
  now apply str_of_nat_inj.
Qed.

Lemma order_returns (parse : string -> option Py.float) (ctx : StrategyContext.t)
  (action size price reason : Py.value) :
  fst (StrategyContext.order parse ctx action size price reason)
  = StrategyContext.order_id_of (S (StrategyContext.order_counter ctx))
  /\ StrategyContext.order_counter (snd (StrategyContext.order parse ctx action size price reason))
     = S (StrategyContext.order_counter ctx).
Proof.
  unfold StrategyContext.order.
  destruct (StrategyContext.current_candle ctx); [|split; reflexivity].
  match goal with |- context [let '(_, _) := ?x in _] => destruct x end.
  split; reflexivity.
Qed.

Lemma place_orders_ids parse calls : forall ctx,
  fst (place_orders parse ctx calls)
  = map StrategyContext.order_id_of (seq (S (StrategyContext.order_counter ctx)) (length calls))
  /\ StrategyContext.order_counter (snd (place_orders parse ctx calls))
     = (StrategyContext.order_counter ctx + length calls)%nat.
Proof.
  induction calls as [|c rest IH]; intros ctx; cbn [place_orders fst snd length seq map].
  - split; [reflexivity | lia].
  - destruct (order_returns parse (StrategyContext.set_current ctx (oc_candle c))
                (oc_action c) (oc_size c) (oc_price c) (oc_reason c)) as [E1 E2].
    destruct (IH (snd (StrategyContext.order parse
                         (StrategyContext.set_current ctx (oc_candle c))
                         (oc_action c) (oc_size c) (oc_price c) (oc_reason c)))) as [I1 I2].
    rewrite E1, I1, I2, E2. cbn [StrategyContext.set_current StrategyContext.order_counter].
    split; [reflexivity | lia].
Qed.

Lemma order_ids_NoDup (a k : nat) : NoDup (map StrategyContext.order_id_of (seq a k)).
Proof.
  apply NoDup_fmap_2; [|apply NoDup_seq].
  intros n m. apply order_id_of_inj.
Qed.

(** C9.  Every call of [order] increments the counter and returns the id
    ["ORD-n"] of the new count, whether or not a candle is current; without
    a current candle the signal log is left as it was, with one the signal
    appended carries the id.  The ids of successive calls are those of
    consecutive counts, hence pairwise distinct; and an id returned before
    the first candle is absent from the log. *)
Theorem order_assigns_fresh_ids (parse : string -> option Py.float)
  (ctx : StrategyContext.t) (calls : list OrderCall) (c : Candle)
  (action size price reason : Py.value) :
  (fst (StrategyContext.order parse ctx action size price reason)
   = ("ORD-" ++ Py.str_of_nat (S (StrategyContext.order_counter ctx)))%string
   /\ StrategyContext.order_counter
        (snd (StrategyContext.order parse ctx action size price reason))
      = S (StrategyContext.order_counter ctx))
  /\ StrategyContext.signals
       (snd (StrategyContext.order parse (StrategyContext.set_current ctx None)
               action size price reason))
     = StrategyContext.signals ctx
  /\ (exists sg,
        StrategyContext.signals
          (snd (StrategyContext.order parse (StrategyContext.set_current ctx (Some c))
                  action size price reason))
        = (StrategyContext.signals ctx ++ [sg])%list
        /\ sg_orderId sg
           = Some (Py.VStr (StrategyContext.order_id_of
                              (S (StrategyContext.order_counter ctx)))))
  /\ fst (place_orders parse ctx calls)
     = map StrategyContext.order_id_of
         (seq (S (StrategyContext.order_counter ctx)) (length calls))
  /\ NoDup (fst (place_orders parse ctx calls))
  /\ (fst (StrategyContext.order parse StrategyContext.init action size price reason)
      = "ORD-1"%string
      /\ StrategyContext.signals
           (snd (StrategyContext.order parse StrategyContext.init action size price reason))
         = []).
Proof.
  split; [apply order_returns|].
  split; [reflexivity|].
  split.
  { unfold StrategyContext.order.
    cbn [StrategyContext.set_current StrategyContext.current_candle].
    match goal with |- context [let '(_, _) := ?x in _] => destruct x end.
    eexists. split; reflexivity. }
  split; [apply place_orders_ids|].
  split; [|split; reflexivity].
  rewrite (proj1 (place_orders_ids parse calls ctx)). apply order_ids_NoDup.
Qed.

(** ** Numeric sanitisation *)

Lemma safe_float_finite (parse : string -> option Py.float) (val : Py.value) :
  Py.json_number_ok (Py.safe_float parse val) = true.
Proof.
  unfold Py.safe_float. destruct (Py.to_float parse val) as [[q| | |]|]; reflexivity.
Qed.

Lemma safe_float_non_finite (parse : string -> option Py.float) (f : Py.float) :
  Py.json_number_ok f = false -> Py.safe_float parse (Py.VFloat f) = Py.Fin 0.
Proof. destruct f; [discriminate | reflexivity ..]. Qed.

(** The three numbers of a record of the training history are finite,
    whatever the training produced. *)
Lemma step_data_finite (parse : string -> option Py.float) (e : Z)
  (total_reward agent_epsilon win_rate : Py.float) :
  Training.step_ok (Training.step_data parse e total_reward agent_epsilon win_rate) = true.
Proof.
  unfold Training.step_ok, Training.step_data. cbn [Training.totalReward Training.epsilon Training.winRate].
  now rewrite !safe_float_finite.
Qed.

(** C5, on the code.  The signal log is serialised without [safe_float]:
    a strategy that places an order at a NaN limit price gets that NaN
    into the log the script returns, [JSON.parse] rejects it, and the worker
    posts an error for the task. *)
Theorem nan_signal_surfaces_as_error (parse : string -> option Py.float)
  (pyodide_message pyodide_toString : Wrapper.exn -> string)
  (syntax_error_message : string) :
  (exists sg,
     Wrapper.run_script (inr (nan_strategy parse)) [candle_1] None
     = Wrapper.Returned (Wrapper.FR_signals [sg])
     /\ sg_price sg = Py.VFloat Py.NaN
     /\ sg_limitPrice sg = Some (Py.VFloat Py.NaN))
  /\ exists error,
       Wrapper.handle_RUN_STRATEGY pyodide_message pyodide_toString
         syntax_error_message true
         {| Wrapper.code := inr (nan_strategy parse);
            Wrapper.candles := [candle_1];
            Wrapper.maxLookbackCandles := None |}
       = Wrapper.ERROR error.
Proof.
  split.
  - eexists. split; [reflexivity|]. split; reflexivity.
  - unfold Wrapper.handle_RUN_STRATEGY. cbn.
    unfold Wrapper.catch. destruct (Js.includes _ _); eexists; reflexivity.
Qed.

(** ** The lookback window *)

Section Lookback.

Context {U : Type}.
Variable tick : Wrapper.tick U.

Lemma advance_uncapped (mlv : option Z) (h : Wrapper.window) (raw : Candle) :
  uncapped mlv -> Wrapper.advance mlv h raw = (h ++ [mkCandleObj raw])%list.
Proof. intros [-> | ->]; reflexivity. Qed.

Lemma replay_calls_uncapped (mlv : option Z) (Hm : uncapped mlv) (Hk : keeps_window tick)
  (raw_data : list Candle) :
  forall (h : Wrapper.window) (u : U) (ctx : StrategyContext.t) (i : nat) (w : Wrapper.window),
    fst (Wrapper.replay tick mlv raw_data h u ctx) !! i = Some w ->
    w = (h ++ map mkCandleObj (firstn (S i) raw_data))%list.
Proof.
  induction raw_data as [|raw rest IH]; intros h u ctx i w; cbn [Wrapper.replay].
  - discriminate.
  - rewrite (advance_uncapped mlv h raw Hm).
    destruct (tick _ u _) as [e|[[h' u'] ctx']] eqn:Et.
    + destruct i; [|discriminate]. intros [= <-]. reflexivity.
    + apply Hk in Et. subst h'.
      destruct (Wrapper.replay tick mlv rest _ u' ctx') as [calls r] eqn:E.
      destruct i as [|i]; cbn [fst].
      * intros [= <-]. reflexivity.
      * intros H. change ((h ++ [mkCandleObj raw])%list :: calls) with
          ([(h ++ [mkCandleObj raw])%list] ++ calls)%list in H.
        specialize (IH (h ++ [mkCandleObj raw])%list u' ctx' i w).
        rewrite E in IH. cbn [fst] in IH.
        rewrite (IH H). rewrite <- app_assoc. reflexivity.
Qed.

Lemma replay_calls_length (mlv : option Z) (raw_data : list Candle) :
  forall (h : Wrapper.window) (u : U) (ctx : StrategyContext.t) r,
    snd (Wrapper.replay tick mlv raw_data h u ctx) = inr r ->
    length (fst (Wrapper.replay tick mlv raw_data h u ctx)) = length raw_data.
Proof.
  induction raw_data as [|raw rest IH]; intros h u ctx r; cbn [Wrapper.replay].
  - reflexivity.
  - destruct (tick _ u _) as [e|[[h' u'] ctx']]; [discriminate|].
    specialize (IH h' u' ctx' r).
    destruct (Wrapper.replay tick mlv rest _ u' ctx') as [calls r']. cbn [fst snd] in *.
    intros H. cbn [length]. f_equal. exact (IH H).
Qed.

(** The entry point is called at bar [i] exactly when the replay of the
    [i] bars before raised nothing. *)
Lemma replay_calls_prefix (mlv : option Z) (raw_data : list Candle) :
  forall (h : Wrapper.window) (u : U) (ctx : StrategyContext.t) (i : nat),
    (i < length raw_data)%nat ->
    ((i < length (fst (Wrapper.replay tick mlv raw_data h u ctx)))%nat
     <-> exists r, snd (Wrapper.replay tick mlv (firstn i raw_data) h u ctx) = inr r).
Proof.
  induction raw_data as [|raw rest IH]; intros h u ctx i Hi; [cbn in Hi; lia|].
  destruct i as [|i].
  - cbn [firstn Wrapper.replay snd].
    destruct (tick _ u _) as [e|[[h' u'] ctx']].
    + cbn. split; [eauto | lia].
    + destruct (Wrapper.replay tick mlv rest h' u' ctx') as [calls r]. cbn.
      split; [eauto | lia].
  - cbn [firstn Wrapper.replay].
    destruct (tick _ u _) as [e|[[h' u'] ctx']].
    + cbn. split; [lia | intros [r H]; discriminate].
    + specialize (IH h' u' ctx' i ltac:(cbn in Hi; lia)).
      destruct (Wrapper.replay tick mlv rest h' u' ctx') as [calls r].
      destruct (Wrapper.replay tick mlv (firstn i rest) h' u' ctx') as [calls' r'].
      cbn [fst snd length] in *. rewrite <- IH. lia.
Qed.

End Lookback.

Lemma request_uncapped (x : Js.number) :
  (exists q, x = Py.Fin q /\ q == 0) \/ Py.to_int x = None ->
  uncapped (Wrapper.max_lookback_val (Wrapper.max_lookback_global (Some x))).
Proof.
  intros [(q & -> & Hq) | H]; left.
  - unfold Wrapper.max_lookback_global, Js.truthy.
    apply Qeq_bool_iff in Hq. now rewrite Hq.
  - destruct x; try discriminate; reflexivity.
Qed.

(** Standard mode is the set-up followed by the replay from the empty
    list and the serialisation of the log. *)
Lemma standard_mode_setup {U : Type} (ns : Wrapper.Namespace U) (raw_data : list Candle)
  (max_lookback : option Py.float) :
  Wrapper.standard_mode ns raw_data max_lookback
  = match entry_setup ns with
    | inl e => ([], inl e)
    | inr (t, u, ctx) =>
        match Wrapper.replay t (Wrapper.lookback_cap (Wrapper.g_max_lookback ns) max_lookback)
                raw_data [] u ctx with
        | (calls, inl e) => (calls, inl e)
        | (calls, inr (_, ctx')) => (calls, Wrapper.dumps (StrategyContext.signals ctx'))
        end
    end.
Proof.
  unfold Wrapper.standard_mode, entry_setup.
  destruct (match Wrapper.g_on_tick ns with Some f => Some f | None => Wrapper.g_strategy ns end)
    as [f|].
  - destruct (Wrapper.run_on_start _ _ _) as [e|[u ctx]]; reflexivity.
  - destruct (Wrapper.target_class _) as [c|]; [|reflexivity].
    destruct (Wrapper.instantiate c _) as [e|[u strategy]]; [reflexivity|].
    destruct (match Wrapper.inst_on_start strategy with
              | Some f => f u StrategyContext.init
              | None => inr (u, StrategyContext.init) end) as [e|[u1 ctx]]; reflexivity.
Qed.

Lemma target_class_In {U : Type} (types : list (Wrapper.Class U)) (c : Wrapper.Class U) :
  Wrapper.target_class types = Some c -> In c types.
Proof.
  unfold Wrapper.target_class. cbv zeta.
  set (all := filter _ types).
  assert (Hall : forall x, elem_of x all -> In x types).
  { intros x Hin. subst all. apply list_elem_of_filter in Hin as [_ Hin].
    now apply list_elem_of_In. }
  destruct (last (filter _ all)) as [x|] eqn:E1.
  - intros [= <-]. apply last_Some_elem_of in E1.
    apply list_elem_of_filter in E1 as [_ Hin]. exact (Hall x Hin).
  - destruct (last all) as [x|] eqn:E2.
    + intros [= <-]. apply Hall. now apply last_Some_elem_of.
    + intros H. apply head_Some_elem_of in H.
      apply list_elem_of_filter in H as [_ Hin]. now apply list_elem_of_In.
Qed.

Lemma instantiate_constructs {U : Type} (c : Wrapper.Class U) (u u' : U)
  (strategy : Wrapper.Instance U) :
  Wrapper.instantiate c u = inr (u', strategy) ->
  exists u0,
    Wrapper.construct_kw c u0 = (u', inr strategy)
    \/ Wrapper.construct_0 c u0 = (u', inr strategy).
Proof.
  unfold Wrapper.instantiate.
  destruct (Wrapper.construct_kw c u) as [u1 [e|s]] eqn:E1.
  - destruct (Wrapper.is_TypeError e); [|discriminate].
    destruct (Wrapper.construct_0 c u1) as [u2 [e2|s2]] eqn:E2.
    + destruct (Wrapper.is_TypeError e2); discriminate.
    + intros [= <- <-]. exists u1. right. exact E2.
  - intros [= <- <-]. exists u. left. exact E1.
Qed.

Lemma entry_setup_keeps {U : Type} (ns : Wrapper.Namespace U) (t : Wrapper.tick U) (u : U)
  (ctx : StrategyContext.t) :
  keeps_windows ns -> entry_setup ns = inr (t, u, ctx) -> keeps_window t.
Proof.
  intros [Hf Hc]. unfold entry_setup.
  destruct (match Wrapper.g_on_tick ns with Some f => Some f | None => Wrapper.g_strategy ns end)
    as [f|] eqn:Ef.
  - destruct (Wrapper.run_on_start _ _ _) as [e|[u0 ctx0]]; [discriminate|].
    intros [= <- <- <-].
    assert (Hin : Wrapper.g_on_tick ns = Some f \/ Wrapper.g_strategy ns = Some f).
    { destruct (Wrapper.g_on_tick ns); [left; exact Ef | right; exact Ef]. }
    destruct (Hf f Hin) as [H1 H2]. unfold Wrapper.call_strategy.
    destruct (match Wrapper.parameters f with Some n => n | None => 2%nat end <=? 1)%nat;
      assumption.
  - destruct (Wrapper.target_class _) as [c|] eqn:Ec; [|discriminate].
    destruct (Wrapper.instantiate c _) as [e|[u0 strategy]] eqn:Ei; [discriminate|].
    destruct (match Wrapper.inst_on_start strategy with
              | Some f => f u0 StrategyContext.init
              | None => inr (u0, StrategyContext.init) end) as [e|[u1 ctx1]]; [discriminate|].
    intros [= <- <- <-].
    destruct (instantiate_constructs c _ _ _ Ei) as [u' Hk].
    exact (Hc c u' u0 strategy (target_class_In _ _ Ec) Hk).
Qed.

(** C10, as amended.  When the request carries a [maxLookbackCandles] that
    is zero, or one whose conversion by [int] raises, and the user code
    neither binds [max_lookback] itself nor changes the candle list it is
    handed, the entry point is called at bar [i] with all the candles
    processed so far, the first [i+1] of the series.  A run that completes
    has called it once per candle, and in every run it is called at bar [i]
    exactly when the run got that far: the set-up succeeded and no bar
    before raised. *)
Theorem zero_lookback_disables_cap {U : Type} (user_code : Wrapper.exn + Wrapper.Namespace U)
  (raw_data : list Candle) (x : Js.number) :
  (exists q, x = Py.Fin q /\ q == 0) \/ Py.to_int x = None ->
  lookback_untouched user_code ->
  windows_kept user_code ->
  let max_lookback := Wrapper.max_lookback_global (Some x) in
  let calls := Wrapper.entry_point_calls user_code raw_data max_lookback in
  (forall i w, calls !! i = Some w -> w = map mkCandleObj (firstn (S i) raw_data))
  /\ (forall signals, Wrapper.run_phases user_code raw_data max_lookback = inr signals ->
                      length calls = length raw_data)
  /\ (forall i, (i < length raw_data)%nat ->
                ((i < length calls)%nat
                 <-> reaches_bar user_code raw_data max_lookback i = true)).
Proof.
  intros Hx Hun Hkeep max_lookback calls. pose proof (request_uncapped x Hx) as Hm.
  fold max_lookback in Hm. subst calls.
  unfold Wrapper.entry_point_calls, Wrapper.run_phases, reaches_bar, effective_cap.
  destruct user_code as [e|ns].
  { split; [discriminate|]. split; [discriminate|]. intros i Hi. cbn. split; [lia|discriminate]. }
  cbn in Hun, Hkeep. rewrite Hun in *. cbn [Wrapper.lookback_cap] in *.
  rewrite standard_mode_setup, Hun. cbn [Wrapper.lookback_cap].
  set (mlv := Wrapper.max_lookback_val max_lookback) in *.
  destruct (entry_setup ns) as [e|[[t u] ctx]] eqn:Es.
  { split; [discriminate|]. split; [discriminate|]. intros i Hi. cbn. split; [lia|discriminate]. }
  pose proof (entry_setup_keeps ns t u ctx Hkeep Es) as Hk.
  pose proof (replay_calls_uncapped t mlv Hm Hk raw_data [] u ctx) as Hc.
  pose proof (replay_calls_length t mlv raw_data [] u ctx) as Hl.
  pose proof (replay_calls_prefix t mlv raw_data [] u ctx) as Hp.
  destruct (Wrapper.replay t mlv raw_data [] u ctx) as [calls [e|[u' ctx']]];
    cbn [fst snd] in *.
  - split; [exact Hc|]. split; [discriminate|].
    intros i Hi. rewrite (Hp i Hi).
    destruct (snd (Wrapper.replay t mlv (firstn i raw_data) [] u ctx)) as [e'|r'].
    + split; [intros [r H]; discriminate | discriminate].
    + split; [reflexivity | eauto].
  - split; [exact Hc|]. split; [intros sg _; now apply (Hl (u', ctx'))|].
    intros i Hi. rewrite (Hp i Hi).
    destruct (snd (Wrapper.replay t mlv (firstn i raw_data) [] u ctx)) as [e'|r'].
    + split; [intros [r H]; discriminate | discriminate].
    + split; [reflexivity | eauto].
Qed.

Lemma raising_strategy_keeps_windows : keeps_windows raising_strategy.
Proof.
  split.
  - intros f [H|H]; [|discriminate]. injection H as <-. cbn.
    split; intros w u ctx w' u' ctx' E; [discriminate|].
    cbn in E. destruct (length w) as [|[|n]]; congruence.
  - intros c u u' strategy [].
Qed.

Lemma zero_lookback_disables_cap_witness :
  let max_lookback := Wrapper.max_lookback_global (Some (Py.Fin 0)) in
  let calls := Wrapper.entry_point_calls (inr raising_strategy) [candle_1; candle_1]
                 max_lookback in
  (forall i w, calls !! i = Some w -> w = map mkCandleObj (firstn (S i) [candle_1; candle_1]))
  /\ (forall signals,
        Wrapper.run_phases (inr raising_strategy) [candle_1; candle_1] max_lookback
        = inr signals ->
        length calls = length [candle_1; candle_1])
  /\ (forall i, (i < length [candle_1; candle_1])%nat ->
                ((i < length calls)%nat
                 <-> reaches_bar (inr raising_strategy) [candle_1; candle_1] max_lookback i
                     = true)).
Proof.
  apply (zero_lookback_disables_cap (inr raising_strategy) [candle_1; candle_1] (Py.Fin 0)).
  - left. exists 0. split; reflexivity.
  - reflexivity.
  - exact raising_strategy_keeps_windows.
Defined.

(** C10 fails as stated: a strategy that removes the oldest candle from
    the list it is handed is called at the second bar with the second
    candle only, although the request asks for no cap. *)
Lemma mutated_window_counterexample :
  Wrapper.entry_point_calls (inr popping_strategy) [candle_1; candle_2]
    (Wrapper.max_lookback_global (Some (Py.Fin 0))) !! 1%nat
  = Some [mkCandleObj candle_2]
  /\ [mkCandleObj candle_2] <> map mkCandleObj (firstn 2 [candle_1; candle_2]).
Proof. split; [reflexivity | discriminate]. Qed.

(** So does user code that binds [max_lookback] itself: the wrapper reads
    the global after the user code ran, and the request's zero is lost. *)
Lemma rebound_lookback_example :
  Wrapper.entry_point_calls (inr rebinding_strategy) [candle_1; candle_2]
    (Wrapper.max_lookback_global (Some (Py.Fin 0)))
  = [[mkCandleObj candle_1]; [mkCandleObj candle_2]].
Proof. reflexivity. Qed.

(** With a cap of one candle the window at the second bar holds the second
    candle only. *)
Lemma capped_window_example :
  Wrapper.entry_point_calls (inr raising_strategy) [candle_1; candle_1]
    (Wrapper.max_lookback_global (Some (Py.Fin 1)))
  = [[mkCandleObj candle_1]; [mkCandleObj candle_1]].
Proof. reflexivity. Qed.

(** ** Exceptions in a strategy task *)

Section WorkerErrors.

Context {U : Type}.
Variable pyodide_message pyodide_toString : Wrapper.exn -> string.
Variable syntax_error_message : string.

Lemma catch_posts_error (message toString : string) :
  exists error, Wrapper.catch message toString = Wrapper.ERROR error.
Proof.
  unfold Wrapper.catch. destruct (Js.includes _ _); eexists; reflexivity.
Qed.

Lemma format_exc_nonempty (e : Wrapper.exn) (other : string) :
  Js.or_else (Wrapper.format_exc e) other = Wrapper.format_exc e.
Proof. reflexivity. Qed.

Lemma catch_plain_traceback (e : Wrapper.exn) (toString : string) :
  Js.includes (Wrapper.format_exc e) "PythonError:" = false ->
  Wrapper.catch (Wrapper.format_exc e) toString = Wrapper.ERROR (Wrapper.format_exc e).
Proof.
  intros H. unfold Wrapper.catch. rewrite format_exc_nonempty, H. reflexivity.
Qed.

End WorkerErrors.

(** *** What [split] keeps of a message *)

Lemma prefix_length (m s : string) :
  String.prefix m s = true ->
  String.length s = (String.length m + String.length (Js.drop (String.length m) s))%nat.
Proof.
  revert s. induction m as [|c m IH]; intros s; [reflexivity|].
  destruct s as [|c' s]; [discriminate|]. cbn [String.prefix].
  destruct (Ascii.ascii_dec c c'); [|discriminate].
  intros H. cbn [String.length Js.drop]. rewrite (IH s H). reflexivity.
Qed.

Lemma find_length (m s b a : string) :
  Js.find m s = Some (b, a) ->
  String.length s = (String.length b + String.length m + String.length a)%nat.
Proof.
  revert b a. induction s as [|c s IH]; intros b a.
  - cbn [Js.find]. destruct (String.prefix m EmptyString) eqn:Ep; [|discriminate].
    intros [= <- <-]. pose proof (prefix_length _ _ Ep) as H.
    cbn [String.length] in *. lia.
  - cbn [Js.find]. destruct (String.prefix m (String c s)) eqn:Ep.
    + intros [= <- <-]. pose proof (prefix_length _ _ Ep) as H.
      cbn [String.length] in *. lia.
    + destruct (Js.find m s) as [[b' a']|]; [|discriminate].
      intros [= <- <-]. cbn [String.length]. rewrite (IH b' a' eq_refl). lia.
Qed.

(** The piece [split] keeps is shorter than the message by at least the
    marker. *)
Lemma split_1_shorter (m s part : string) :
  Js.split_1 s m = Some part ->
  (String.length part + String.length m <= String.length s)%nat.
Proof.
  unfold Js.split_1. destruct (Js.find m s) as [[b a]|] eqn:E1; [|discriminate].
  apply find_length in E1.
  destruct (Js.find m a) as [[b' a']|] eqn:E2.
  - intros [= <-]. apply find_length in E2. lia.
  - intros [= <-]. lia.
Qed.

(** When an exception is raised while the user code is evaluated, the
    entry point resolved, the class instantiated, the start hook run, the
    candles replayed or the log serialised, the worker posts one error
    message and no signals.  For an exception the wrapper's handler
    catches, the message is the traceback whenever the traceback does not
    contain the text [PythonError:], and in general the traceback as the
    handler's [catch] cuts it; for an exception that escapes the script, it
    is Pyodide's message cut the same way. *)
Lemma strategy_exception_yields_error {U : Type}
  (pyodide_message pyodide_toString : Wrapper.exn -> string) (syntax_error_message : string)
  (payload : Wrapper.Payload U) (e : Wrapper.exn) :
  Wrapper.run_phases (Wrapper.code payload) (Wrapper.candles payload)
    (Wrapper.max_lookback_global (Wrapper.maxLookbackCandles payload)) = inl e ->
  let posted := Wrapper.handle_RUN_STRATEGY pyodide_message pyodide_toString
                  syntax_error_message true payload in
  (exists error, posted = Wrapper.ERROR error)
  /\ (forall ns, Wrapper.code payload = inr ns -> Wrapper.is_Exception e = true ->
        Js.includes (Wrapper.format_exc e) "PythonError:" = false ->
        posted = Wrapper.ERROR (Wrapper.format_exc e))
  /\ (forall ns, Wrapper.code payload = inr ns -> Wrapper.is_Exception e = true ->
        posted = Wrapper.catch (Wrapper.format_exc e) ("Error: " ++ Wrapper.format_exc e))
  /\ (Wrapper.code payload = inl e \/ Wrapper.is_Exception e = false ->
        posted = Wrapper.catch (pyodide_message e) (pyodide_toString e)).
Proof.
  intros Hrun posted. subst posted.
  unfold Wrapper.handle_RUN_STRATEGY, Wrapper.run_script. cbn [negb].
  unfold Wrapper.run_phases in Hrun.
  destruct (Wrapper.code payload) as [e0|ns] eqn:Ecode.
  - injection Hrun as ->. split; [apply catch_posts_error|].
    split; [discriminate|]. split; [discriminate|]. reflexivity.
  - rewrite Hrun. destruct (Wrapper.is_Exception e) eqn:Ex.
    + assert (Hcatch : match Wrapper.format_exc e with
                       | EmptyString => Wrapper.RUN_SUCCESS (Wrapper.R_errors (Wrapper.format_exc e))
                       | String _ _ => Wrapper.catch (Wrapper.format_exc e)
                                         ("Error: " ++ Wrapper.format_exc e)
                       end = Wrapper.catch (Wrapper.format_exc e) ("Error: " ++ Wrapper.format_exc e))
        by reflexivity.
      rewrite Hcatch. split; [apply catch_posts_error|].
      split; [intros _ _ _ H; now apply catch_plain_traceback|].
      split; [reflexivity|]. intros [H|H]; discriminate.
    + split; [apply catch_posts_error|].
      split; [discriminate|]. split; [discriminate|]. reflexivity.
Qed.

(** C7, on the code.  The wrapper's handler builds the full traceback of
    an exception it catches, and the worker's [catch] then cuts the message
    at the text [PythonError:], which is meant to strip the prefix Pyodide
    puts before its own errors.  The strategy that raises
    [Exception("PythonError: boom")] on its second bar, after an order on
    the first, leaves the script with the traceback as its error result,
    and is answered with the message [" boom"]: no signals, but no
    traceback either.  In general, whenever the traceback of a caught
    exception contains that text, the message posted is the piece of the
    traceback between its first and second occurrence, which is shorter
    than the traceback by at least the marker. *)
Theorem marker_in_message_loses_traceback
  (pyodide_message pyodide_toString : Wrapper.exn -> string) (syntax_error_message : string) :
  (Wrapper.run_phases (Wrapper.code raising_payload) (Wrapper.candles raising_payload)
     (Wrapper.max_lookback_global (Wrapper.maxLookbackCandles raising_payload)) = inl boom
   /\ Wrapper.run_script (Wrapper.code raising_payload) (Wrapper.candles raising_payload)
        (Wrapper.max_lookback_global (Wrapper.maxLookbackCandles raising_payload))
      = Wrapper.Returned (Wrapper.FR_error (Wrapper.format_exc boom))
   /\ Wrapper.handle_RUN_STRATEGY pyodide_message pyodide_toString syntax_error_message true
        raising_payload
      = Wrapper.ERROR (" boom" ++ Wrapper.nl)
   /\ Js.includes (" boom" ++ Wrapper.nl) "Traceback" = false
   /\ Js.includes (Wrapper.format_exc boom) "Traceback" = true)
  /\ (forall (U : Type) (payload : Wrapper.Payload U) (ns : Wrapper.Namespace U)
             (e : Wrapper.exn),
        Wrapper.code payload = inr ns ->
        Wrapper.run_phases (Wrapper.code payload) (Wrapper.candles payload)
          (Wrapper.max_lookback_global (Wrapper.maxLookbackCandles payload)) = inl e ->
        Wrapper.is_Exception e = true ->
        Js.includes (Wrapper.format_exc e) "PythonError:" = true ->
        exists part,
          Wrapper.handle_RUN_STRATEGY pyodide_message pyodide_toString syntax_error_message
            true payload = Wrapper.ERROR part
          /\ Js.split_1 (Wrapper.format_exc e) "PythonError:" = Some part
          /\ (String.length part + 12 <= String.length (Wrapper.format_exc e))%nat).
Proof.
  split.
  - split; [reflexivity|]. split; [reflexivity|].
    split; [vm_compute; reflexivity|]. split; vm_compute; reflexivity.
  - intros U payload ns e Hcode Hrun Hex Hinc.
    destruct (strategy_exception_yields_error pyodide_message pyodide_toString
                syntax_error_message payload e Hrun) as (_ & _ & Hcatch & _).
    rewrite (Hcatch ns Hcode Hex). unfold Wrapper.catch.
    rewrite format_exc_nonempty, Hinc.
    destruct (Js.split_1 (Wrapper.format_exc e) "PythonError:") as [part|] eqn:Es.
    + exists part. split; [reflexivity|]. split; [reflexivity|].
      apply split_1_shorter in Es. cbn [String.length] in Es. exact Es.
    + exfalso. unfold Js.split_1, Js.includes in *.
      destruct (Js.find "PythonError:" (Wrapper.format_exc e)) as [[b a]|]; [|discriminate].
      destruct (Js.find "PythonError:" a) as [[b' a']|]; discriminate.
Qed.

(** ** The batch dispatcher *)

Local Close Scope Q_scope.

Section DispatcherProperties.

Context {Task Signals : Type}.
Variable runOnWorker : nat -> list Task -> Task -> option (Signals + string).
Variable shouldCancel : option (nat -> bool).
Variable tasks : list Task.

Abbreviation State := (Batch.State Task Signals).
Abbreviation step := (Batch.step runOnWorker shouldCancel tasks).
Abbreviation run := (Batch.run runOnWorker shouldCancel tasks).
Abbreviation served := (Batch.served runOnWorker tasks).
Abbreviation Inv := (Batch.Inv runOnWorker tasks).
Abbreviation exhausted := (Batch.exhausted tasks).
Abbreviation measure := (Batch.measure tasks).
Abbreviation never_cancels := (Batch.never_cancels shouldCancel).
Abbreviation always_settles := (Batch.always_settles runOnWorker).
Abbreviation stuck := (Batch.stuck runOnWorker tasks).
Abbreviation weight := Batch.weight.

(** A served slot stays served when nothing is written to it and the
    handles only add to the lists of the tasks they ran. *)
Lemma served_kept (st st' : State) (i : nat) :
  Batch.results st' !! i = Batch.results st !! i ->
  (forall w l, Batch.ran st !! w = Some l ->
               exists more, Batch.ran st' !! w = Some (l ++ more)%list) ->
  served st i -> served st' i.
Proof.
  intros Hr Hran (w & h & more & task & settled & Ht & Hw & Hs & Hi).
  destruct (Hran w _ Hw) as [more' Hw'].
  exists w, h, (more ++ more')%list, task, settled.
  split; [exact Ht|]. split; [|split; [exact Hs | now rewrite Hr]].
  rewrite Hw'. f_equal. rewrite <- app_assoc. reflexivity.
Qed.

Lemma ran_kept (l : list (list Task)) : forall w l0, l !! w = Some l0 ->
  exists more, l !! w = Some (l0 ++ more)%list.
Proof. intros w l0 H. exists []. now rewrite app_nil_r. Qed.

Lemma Inv_initial (workerCount : option Z) : Inv (Batch.initial Signals tasks workerCount).
Proof.
  split; cbn.
  - apply length_replicate.
  - now rewrite !length_replicate.
  - intros w i H. apply lookup_replicate in H. destruct H as [H _]. discriminate.
  - intros w i H. apply lookup_replicate in H. destruct H as [H _]. discriminate.
  - lia.
  - intros i e H. apply lookup_replicate in H. destruct H as [H _]. discriminate.
  - intros i _ Hi. apply lookup_replicate. split; [reflexivity | exact Hi].
Qed.

Lemma Inv_step (w : nat) (st : State) : Inv st -> Inv (step w st).
Proof.
  intros [Hlen Hha Haw Had Hcl Hfi Hun]. unfold Batch.step.
  destruct (Batch.workers st !! w) as [[| idx |]|] eqn:Ew; try (split; assumption).
  - (* at the head of the loop *)
    assert (Hw : w < length (Batch.workers st)) by (eapply lookup_lt_Some; eauto).
    destruct (match shouldCancel with Some f => f (Batch.cancelCalls st) | None => false end).
    + split; cbn [Batch.results Batch.ran Batch.workers Batch.nextIndex].
      * exact Hlen.
      * rewrite length_insert. exact Hha.
      * intros w' i H. destruct (decide (w = w')) as [<-|Hne].
        -- rewrite list_lookup_insert_eq in H by assumption. discriminate.
        -- rewrite list_lookup_insert_ne in H by assumption. eauto.
      * intros w' i H. destruct (decide (w = w')) as [<-|Hne].
        -- rewrite list_lookup_insert_eq in H by assumption. discriminate.
        -- rewrite list_lookup_insert_ne in H by assumption. eauto.
      * intros i H1 H2. destruct (Hcl i H1 H2) as [Hs|[w' Hw']].
        -- left. revert Hs. apply served_kept; [reflexivity | apply ran_kept].
        -- right. exists w'. rewrite list_lookup_insert_ne; [assumption|congruence].
      * intros i e H. generalize (Hfi i e H).
        apply served_kept; [reflexivity | apply ran_kept].
      * exact Hun.
    + split; cbn [Batch.results Batch.ran Batch.workers Batch.nextIndex].
      * exact Hlen.
      * rewrite length_insert. exact Hha.
      * intros w' i H. destruct (decide (w = w')) as [<-|Hne].
        -- rewrite list_lookup_insert_eq in H by assumption.
           destruct (Nat.leb_spec (length tasks) (Batch.nextIndex st)); [discriminate|].
           injection H as <-. assumption.
        -- rewrite list_lookup_insert_ne in H by assumption. eauto.
      * intros w' i H. destruct (decide (w = w')) as [<-|Hne].
        -- rewrite list_lookup_insert_eq in H by assumption.
           destruct (Nat.leb_spec (length tasks) (Batch.nextIndex st)); [discriminate|].
           injection H as <-. lia.
        -- rewrite list_lookup_insert_ne in H by assumption.
           specialize (Had w' i H). lia.
      * intros i H1 H2. destruct (decide (i = Batch.nextIndex st)) as [->|Hne].
        -- right. exists w. rewrite list_lookup_insert_eq by assumption.
           destruct (Nat.leb_spec (length tasks) (Batch.nextIndex st)); [lia|reflexivity].
        -- destruct (Hcl i ltac:(lia) H2) as [Hs|[w' Hw']].
           ++ left. revert Hs. apply served_kept; [reflexivity | apply ran_kept].
           ++ right. exists w'. rewrite list_lookup_insert_ne; [assumption|congruence].
      * intros i e H. generalize (Hfi i e H).
        apply served_kept; [reflexivity | apply ran_kept].
      * intros i H1 H2. apply Hun; [lia | exact H2].
  - (* a task settles *)
    assert (Hw : w < length (Batch.workers st)) by (eapply lookup_lt_Some; eauto).
    pose proof (Haw w idx Ew) as Hidx. pose proof (Had w idx Ew) as Hclaimed.
    destruct (tasks !! idx) as [task|] eqn:Et; [|split; assumption].
    destruct (lookup_lt_is_Some_2 (Batch.ran st) w ltac:(lia)) as [h0 Eh].
    rewrite Eh. cbn [default from_option]. change (id h0) with h0.
    destruct (runOnWorker w h0 task) as [settled|] eqn:Er; [|split; assumption].
    set (st' := {| Batch.nextIndex := Batch.nextIndex st;
                   Batch.completed := S (Batch.completed st);
                   Batch.results :=
                     <[idx := Some (Batch.entry_of settled)]> (Batch.results st);
                   Batch.workers := <[w := Batch.AtLoopHead]> (Batch.workers st);
                   Batch.ran := <[w := (h0 ++ [task])%list]> (Batch.ran st);
                   Batch.cancelCalls := Batch.cancelCalls st;
                   Batch.progress :=
                     (Batch.progress st ++ [(S (Batch.completed st), length tasks)])%list |}).
    assert (Hran : forall w1 l, Batch.ran st !! w1 = Some l ->
                     exists more, Batch.ran st' !! w1 = Some (l ++ more)%list).
    { intros w1 l H1. cbn [st' Batch.ran]. destruct (decide (w = w1)) as [<-|Hne].
      - rewrite list_lookup_insert_eq by lia. exists [task]. congruence.
      - rewrite list_lookup_insert_ne by assumption. exists []. now rewrite app_nil_r. }
    assert (Hold : forall i, i <> idx -> served st i -> served st' i).
    { intros i Hne. apply served_kept; [|exact Hran].
      cbn [st' Batch.results]. now rewrite list_lookup_insert_ne by congruence. }
    assert (Hnew : served st' idx).
    { exists w, h0, [], task, settled. split; [exact Et|]. cbn [st' Batch.ran Batch.results].
      split; [now rewrite list_lookup_insert_eq by lia|]. split; [exact Er|].
      now rewrite list_lookup_insert_eq by lia. }
    split; cbn [st' Batch.results Batch.ran Batch.workers Batch.nextIndex].
    + rewrite length_insert. assumption.
    + rewrite !length_insert. exact Hha.
    + intros w' i H. destruct (decide (w = w')) as [<-|Hne].
      * rewrite list_lookup_insert_eq in H by assumption. discriminate.
      * rewrite list_lookup_insert_ne in H by assumption. eauto.
    + intros w' i H. destruct (decide (w = w')) as [<-|Hne].
      * rewrite list_lookup_insert_eq in H by assumption. discriminate.
      * rewrite list_lookup_insert_ne in H by assumption. eauto.
    + intros i H1 H2. destruct (decide (i = idx)) as [->|Hne]; [left; exact Hnew|].
      destruct (Hcl i H1 H2) as [Hs|[w' Hw']].
      * left. apply Hold; assumption.
      * right. exists w'. rewrite list_lookup_insert_ne; [assumption|].
        intros <-. rewrite Ew in Hw'. congruence.
    + intros i e H. destruct (decide (i = idx)) as [->|Hne]; [exact Hnew|].
      rewrite list_lookup_insert_ne in H by congruence.
      apply Hold; [assumption|]. eapply Hfi; eauto.
    + intros i H1 H2. rewrite list_lookup_insert_ne by lia. apply Hun; assumption.
Qed.

Lemma exhausted_step (w : nat) (st : State) :
  never_cancels -> exhausted st -> exhausted (step w st).
Proof.
  intros Hnc Hex. unfold Batch.step.
  destruct (Batch.workers st !! w) as [[| idx |]|] eqn:Ew; try assumption.
  - assert (Hw : w < length (Batch.workers st)) by (eapply lookup_lt_Some; eauto).
    assert (Hc : match shouldCancel with Some f => f (Batch.cancelCalls st) | None => false end
                 = false).
    { unfold Batch.never_cancels in Hnc. destruct shouldCancel; [apply Hnc | reflexivity]. }
    rewrite Hc. intros w' H. cbn in *.
    destruct (decide (w = w')) as [<-|Hne].
    + rewrite list_lookup_insert_eq in H by assumption.
      destruct (Nat.leb_spec (length tasks) (Batch.nextIndex st)); [lia|discriminate].
    + rewrite list_lookup_insert_ne in H by assumption. specialize (Hex w' H). lia.
  - destruct (tasks !! idx); [|assumption].
    destruct (runOnWorker _ _ _); [|assumption].
    intros w' H. cbn in *. destruct (decide (w = w')) as [<-|Hne].
    + assert (Hw : w < length (Batch.workers st)) by (eapply lookup_lt_Some; eauto).
      rewrite list_lookup_insert_eq in H by assumption. discriminate.
    + rewrite list_lookup_insert_ne in H by assumption. exact (Hex w' H).
Qed.

Lemma workers_length_step (w : nat) (st : State) :
  length (Batch.workers (step w st)) = length (Batch.workers st).
Proof.
  unfold Batch.step.
  destruct (Batch.workers st !! w) as [[| idx |]|]; try reflexivity.
  - destruct (match shouldCancel with Some f => f (Batch.cancelCalls st) | None => false end);
      cbn; apply length_insert.
  - destruct (tasks !! idx); [|reflexivity].
    destruct (runOnWorker _ _ _); [cbn; apply length_insert | reflexivity].
Qed.

Lemma Inv_run (schedule : list nat) : forall st, Inv st -> Inv (run schedule st).
Proof.
  induction schedule as [|w rest IH]; intros st H; [exact H|].
  cbn [Batch.run]. apply IH, Inv_step, H.
Qed.

Lemma exhausted_run (schedule : list nat) :
  never_cancels -> forall st, exhausted st -> exhausted (run schedule st).
Proof.
  intros Hnc. induction schedule as [|w rest IH]; intros st H; [exact H|].
  cbn [Batch.run]. apply IH, exhausted_step; assumption.
Qed.

Lemma run_app (s1 s2 : list nat) : forall st, run (s1 ++ s2) st = run s2 (run s1 st).
Proof.
induction s1 as [|w rest IH]; intros st; [reflexivity|].
cbn [app Batch.run]. apply IH.
Qed.

Lemma workers_length_run (schedule : list nat) : forall st,
  length (Batch.workers (run schedule st)) = length (Batch.workers st).
Proof.
  induction schedule as [|w rest IH]; intros st; [reflexivity|].
  cbn [Batch.run]. rewrite IH. apply workers_length_step.
Qed.

Lemma finished_lookup (st : State) (w : nat) (x : Batch.Worker) :
  Batch.finished st = true -> Batch.workers st !! w = Some x -> x = Batch.Done.
Proof.
  unfold Batch.finished. rewrite forallb_forall. intros Hall Hw.
  apply list_elem_of_lookup_2 in Hw. apply list_elem_of_In in Hw.
  specialize (Hall x Hw). destruct x; [discriminate .. | reflexivity].
Qed.

(** Once every worker has returned, every task that was claimed has been
    served. *)
Lemma finished_claimed_served (st : State) :
  Inv st -> Batch.finished st = true ->
  forall i, i < Batch.nextIndex st -> i < length tasks -> served st i.
Proof.
  intros HI Hfin i Hi Hn.
  destruct (Batch.inv_claimed runOnWorker tasks st HI i Hi Hn) as [Hs|[w Hw]]; [exact Hs|].
  pose proof (finished_lookup st w _ Hfin Hw). discriminate.
Qed.

(** Once every worker has returned, and none was told to cancel, every
    task was claimed. *)
Lemma finished_exhausted (st : State) :
  exhausted st -> 0 < length (Batch.workers st) -> Batch.finished st = true ->
  length tasks <= Batch.nextIndex st.
Proof.
  intros Hex Hpos Hfin.
  destruct (lookup_lt_is_Some_2 (Batch.workers st) 0 Hpos) as [x Hx].
  pose proof (finished_lookup st 0 x Hfin Hx) as ->.
  exact (Hex 0 Hx).
Qed.

(** *** Termination *)

Lemma sum_weight_insert (ws : list Batch.Worker) (w : nat) (x y : Batch.Worker) :
  ws !! w = Some x ->
  sum_list (map weight (<[w := y]> ws)) + weight x = sum_list (map weight ws) + weight y.
Proof.
  revert w. induction ws as [|z ws IH]; intros [|w] H; try discriminate.
  - injection H as ->. cbn. lia.
  - change (<[S w := y]> (z :: ws)) with (z :: <[w := y]> ws).
    specialize (IH w H). cbn [map sum_list sum_list_with]. lia.
Qed.

Lemma unfinished_worker (st : State) :
  Batch.finished st = false ->
  exists w x, Batch.workers st !! w = Some x /\ x <> Batch.Done.
Proof.
  unfold Batch.finished. induction (Batch.workers st) as [|x ws IH]; [discriminate|].
  cbn [forallb]. destruct x; cbn [Batch.is_done andb].
  - intros _. exists 0, Batch.AtLoopHead. split; [reflexivity | discriminate].
  - intros _. exists 0, (Batch.Awaiting taskIndex). split; [reflexivity | discriminate].
  - intros H. destruct (IH H) as (w & x & Hw & Hx). exists (S w), x. split; assumption.
Qed.

Lemma step_decreases (st : State) (w : nat) (x : Batch.Worker) :
  always_settles ->
  Inv st -> Batch.workers st !! w = Some x -> x <> Batch.Done ->
  measure (step w st) < measure st.
Proof.
  intros Hset HI Hw Hx. unfold Batch.step, Batch.measure. rewrite Hw.
  destruct x as [| idx |]; [| |contradiction].
  - destruct (match shouldCancel with Some f => f (Batch.cancelCalls st) | None => false end);
      cbn [Batch.nextIndex Batch.workers].
    + pose proof (sum_weight_insert _ w _ Batch.Done Hw). cbn [Batch.weight] in *. lia.
    + destruct (Nat.leb_spec (length tasks) (Batch.nextIndex st)).
      * pose proof (sum_weight_insert _ w _ Batch.Done Hw). cbn [Batch.weight] in *. lia.
      * pose proof (sum_weight_insert _ w _ (Batch.Awaiting (Batch.nextIndex st)) Hw).
        cbn [Batch.weight] in *. lia.
  - pose proof (Batch.inv_awaiting runOnWorker tasks st HI w idx Hw) as Hidx.
    destruct (lookup_lt_is_Some_2 tasks idx Hidx) as [task Et]. rewrite Et.
    destruct (runOnWorker w _ task) as [settled|] eqn:Er; [|now apply Hset in Er].
    cbn [Batch.nextIndex Batch.workers].
    pose proof (sum_weight_insert _ w _ Batch.AtLoopHead Hw). cbn [Batch.weight] in *. lia.
Qed.

(** When every run settles, from every reachable state some interleaving
    lets all workers return. *)
Lemma terminates (st : State) :
  always_settles -> Inv st -> exists schedule, Batch.finished (run schedule st) = true.
Proof.
  intros Hset. remember (Batch.measure tasks st) as m eqn:Hm. revert st Hm.
  induction m as [m IH] using lt_wf_ind. intros st -> HI.
  destruct (Batch.finished st) eqn:Hf.
  - exists []. exact Hf.
  - destruct (unfinished_worker st Hf) as (w & x & Hw & Hx).
    destruct (IH (measure (step w st)) (step_decreases st w x Hset HI Hw Hx) (step w st) eq_refl
                (Inv_step w st HI)) as [schedule Hs].
    exists (w :: schedule). exact Hs.
Qed.

(** *** A run that never settles *)

Lemma stuck_step (st : State) (w w' : nat) : stuck st w -> stuck (step w' st) w.
Proof.
  intros (i & task & h & Hw & Ht & Hh & Hr). unfold Batch.step.
  destruct (Batch.workers st !! w') as [[| idx |]|] eqn:Ew;
    try (exists i, task, h; repeat split; assumption).
  - assert (Hne : w' <> w) by (intros ->; congruence).
    destruct (match shouldCancel with Some f => f (Batch.cancelCalls st) | None => false end);
      exists i, task, h; cbn; rewrite list_lookup_insert_ne by assumption;
      repeat split; assumption.
  - destruct (tasks !! idx) as [task'|] eqn:Et';
      [|exists i, task, h; repeat split; assumption].
    destruct (runOnWorker w' _ task') as [settled|] eqn:Er;
      [|exists i, task, h; repeat split; assumption].
    assert (Hne : w' <> w).
    { intros ->. rewrite Hw in Ew. injection Ew as <-. rewrite Ht in Et'. injection Et' as <-.
      rewrite Hh in Er. cbn in Er. congruence. }
    exists i, task, h. cbn. rewrite !list_lookup_insert_ne by assumption.
    repeat split; assumption.
Qed.

Lemma stuck_run (schedule : list nat) : forall st w, stuck st w -> stuck (run schedule st) w.
Proof.
  induction schedule as [|w' rest IH]; intros st w H; [exact H|].
  cbn [Batch.run]. apply IH, stuck_step, H.
Qed.

Lemma stuck_unfinished (st : State) (w : nat) : stuck st w -> Batch.finished st = false.
Proof.
  intros (i & task & h & Hw & _). destruct (Batch.finished st) eqn:Hf; [|reflexivity].
  pose proof (finished_lookup st w _ Hf Hw). discriminate.
Qed.

End DispatcherProperties.

Lemma maxWorkers_pos (workerCount : option Z) (n : nat) : 0 < Batch.maxWorkers workerCount n.
Proof. unfold Batch.maxWorkers. lia. Qed.

(** C6, as amended.  Provided the pool of handles initialises and every
    run of a task settles, every interleaving of the workers can be
    continued until the batch returns.  What the batch returns is an array
    of the length of the task list: the tasks that were claimed are the
    first [claimed] of the list; the slot of each of them holds the entry
    (the signals, or the error message of a rejected run) of the run of
    that task on one handle of the pool, after the tasks that handle had
    run before; the slots of the tasks never claimed are empty; and when
    [shouldCancel] is absent or never answers true, every task is claimed.
    A pool that fails to initialise makes the call reject with the
    message, and while a handle never answers, at initialisation or for a
    task, the call does not return. *)
Theorem batch_one_entry_per_task {Task Signals : Type}
  (runOnWorker : nat -> list Task -> Task -> option (Signals + string))
  (shouldCancel : option (nat -> bool)) (tasks : list Task) (workerCount : option Z) :
  (Batch.always_settles runOnWorker ->
   forall schedule, exists more results,
      Batch.runPythonStrategyBatch runOnWorker shouldCancel tasks workerCount Batch.Ready
        (schedule ++ more)
      = Batch.Returns results)
  /\ (forall schedule results,
        Batch.runPythonStrategyBatch runOnWorker shouldCancel tasks workerCount Batch.Ready
          schedule
        = Batch.Returns results ->
        length results = length tasks
        /\ exists claimed,
             claimed <= length tasks
             /\ (forall i task, i < claimed -> tasks !! i = Some task ->
                   exists w h settled,
                     w < Batch.maxWorkers workerCount (length tasks)
                     /\ (exists more,
                           Batch.ran (Batch.run runOnWorker shouldCancel tasks schedule
                                        (Batch.initial Signals tasks workerCount)) !! w
                           = Some (h ++ task :: more))
                     /\ runOnWorker w h task = Some settled
                     /\ results !! i = Some (Some (Batch.entry_of settled)))
             /\ (forall i, claimed <= i -> i < length tasks -> results !! i = Some None)
             /\ (Batch.never_cancels shouldCancel -> claimed = length tasks))
  /\ (tasks <> [] ->
      forall schedule,
        (forall message,
            Batch.runPythonStrategyBatch runOnWorker shouldCancel tasks workerCount
              (Batch.InitRejected message) schedule
            = Batch.Rejects message)
        /\ Batch.runPythonStrategyBatch runOnWorker shouldCancel tasks workerCount
             Batch.InitPending schedule
           = Batch.Pending
        /\ (forall w i task h,
              let st := Batch.run runOnWorker shouldCancel tasks schedule
                          (Batch.initial Signals tasks workerCount) in
              Batch.workers st !! w = Some (Batch.Awaiting i) ->
              tasks !! i = Some task ->
              Batch.ran st !! w = Some h ->
              runOnWorker w h task = None ->
              forall more,
                Batch.runPythonStrategyBatch runOnWorker shouldCancel tasks workerCount
                  Batch.Ready (schedule ++ more)
                = Batch.Pending)).
Proof.
  unfold Batch.runPythonStrategyBatch.
  destruct tasks as [|t0 ts] eqn:Et.
  { split; [intros _ schedule; exists [], []; reflexivity|].
    split; [|intros H; contradiction].
    intros schedule results [= <-]. split; [reflexivity|]. exists 0.
    split; [reflexivity|]. split; [intros i task H; lia|].
    split; [intros i _ H; cbn in H; lia | reflexivity]. }
  rewrite <- Et. clear Et t0 ts.
  pose proof (Inv_initial runOnWorker tasks workerCount) as HI0.
  split; [|split].
  - intros Hset schedule.
    destruct (terminates runOnWorker shouldCancel tasks _ Hset
                (Inv_run runOnWorker shouldCancel tasks schedule _ HI0)) as [more Hs].
    exists more. rewrite run_app, Hs. eexists; reflexivity.
  - intros schedule results.
    set (st := Batch.run runOnWorker shouldCancel tasks schedule
                 (Batch.initial Signals tasks workerCount)).
    destruct (Batch.finished st) eqn:Hfin; [|discriminate]. intros [= <-].
    pose proof (Inv_run runOnWorker shouldCancel tasks schedule _ HI0) as HI. fold st in HI.
    assert (Hlen : length (Batch.workers st) = Batch.maxWorkers workerCount (length tasks)).
    { unfold st. rewrite workers_length_run. cbn. apply length_replicate. }
    split; [apply (Batch.inv_length _ _ _ HI)|].
    exists (Nat.min (Batch.nextIndex st) (length tasks)).
    split; [lia|]. split; [|split].
    + intros i task Hi Ht.
      destruct (finished_claimed_served runOnWorker tasks st HI Hfin i ltac:(lia) ltac:(lia))
        as (w & h & more & task' & settled & Ht' & Hw & Hs & Hr).
      assert (task' = task) as -> by congruence.
      exists w, h, settled. split; [|split; [exists more; exact Hw | split; assumption]].
      apply lookup_lt_Some in Hw. rewrite (Batch.inv_handles _ _ _ HI) in Hw. lia.
    + intros i Hi Hn. apply (Batch.inv_unclaimed _ _ _ HI); lia.
    + intros Hnc.
      assert (Hex0 : Batch.exhausted tasks (Batch.initial Signals tasks workerCount)).
      { intros w H. cbn in H. apply lookup_replicate in H. destruct H as [H _]. discriminate. }
      pose proof (exhausted_run runOnWorker shouldCancel tasks schedule Hnc _ Hex0) as Hex.
      fold st in Hex.
      pose proof (maxWorkers_pos workerCount (length tasks)) as Hpos.
      pose proof (finished_exhausted tasks st Hex ltac:(lia) Hfin). lia.
  - intros Hne schedule. destruct tasks as [|t0 ts] eqn:Et; [contradiction|].
    rewrite <- Et. split; [reflexivity|]. split; [reflexivity|].
    intros w i task h. cbv zeta.
    set (st := Batch.run runOnWorker shouldCancel tasks schedule
                 (Batch.initial Signals tasks workerCount)).
    intros Hw Ht Hh Hr more.
    assert (Hst : Batch.stuck runOnWorker tasks st w)
      by (exists i, task, h; repeat split; assumption).
    rewrite run_app. fold st.
    rewrite (stuck_unfinished runOnWorker tasks _ w
               (stuck_run runOnWorker shouldCancel tasks more st w Hst)).
    reflexivity.
Qed.

(** C6 fails as stated: with a [shouldCancel] that answers true, the
    worker returns before claiming the single task, and the array the batch
    resolves to has an empty slot for it. *)
Lemma cancelled_batch_counterexample :
  Batch.runPythonStrategyBatch (fun _ _ (_ : unit) => Some (inl tt)) (Some (fun _ => true))
    [tt] None Batch.Ready [0%nat]
  = Batch.Returns [@None (Batch.Entry unit)].
Proof. reflexivity. Qed.

Lemma batch_one_entry_per_task_witness :
  exists more results,
    Batch.runPythonStrategyBatch (fun _ _ (_ : unit) => Some (@inl unit string tt)) None
      [tt] None Batch.Ready ([0%nat] ++ more)
    = Batch.Returns results.
Proof.
  apply (proj1 (batch_one_entry_per_task (fun _ _ (_ : unit) => Some (@inl unit string tt))
                  None [tt] None)).
  intros w h task. discriminate.
Defined.

(** * Part VI: further properties of the engine and its callers *)

(** ** The replay buffer *)

Lemma mod_distinct (c j n : nat) : j < n -> n - j < c -> j mod c <> n mod c.
Proof.
  intros Hjn Hd He.
  assert (Hc : c <> 0) by lia.
  pose proof (Nat.div_mod_eq j c) as Hj. pose proof (Nat.div_mod_eq n c) as Hn.
  assert (Hq : j / c <= n / c) by (apply Nat.Div0.div_le_mono; lia).
  set (qj := j / c) in *. set (qn := n / c) in *. rewrite He in Hj.
  set (r := n mod c) in *.
  destruct (Nat.eq_dec qj qn) as [E|E]; [rewrite E in Hj; lia|].
  assert (qj + 1 <= qn) by lia.
  assert (c * (qj + 1) <= c * qn) by (apply Nat.mul_le_mono_l; lia).
  lia.
Qed.

Lemma holds_last_push (c : nat) (xs : list Transition) (b : ReplayBuffer.t) (x : Transition) :
  0 < c -> holds_last c xs b -> holds_last c (xs ++ [x]) (ReplayBuffer.push b x).
Proof.
  intros Hc (Hcap & Hlen & Hpos & Hget). unfold holds_last, ReplayBuffer.push.
  cbn [ReplayBuffer.buffer ReplayBuffer.position ReplayBuffer.capacity].
  rewrite Hcap, Hpos, Hlen. rewrite length_app. cbn [length].
  set (n := length xs) in *.
  assert (Hmod : n mod c < c) by (apply Nat.mod_upper_bound; lia).
  split; [reflexivity|].
  destruct (Nat.ltb_spec (Nat.min n c) c) as [Hlt|Hge].
  - (* still filling *)
    assert (Hn : n < c) by lia.
    rewrite (Nat.mod_small n c Hn) in *.
    assert (Hins : <[n := x]> (ReplayBuffer.buffer b ++ [x]) = ReplayBuffer.buffer b ++ [x]).
    { apply list_eq. intros i. destruct (decide (i = n)) as [->|Hne].
      - rewrite list_lookup_insert_eq by (rewrite length_app; cbn; lia).
        rewrite lookup_app_r by lia. replace (n - length (ReplayBuffer.buffer b)) with 0 by lia.
        reflexivity.
      - now rewrite list_lookup_insert_ne by congruence. }
    cbn [ReplayBuffer.buffer ReplayBuffer.position ReplayBuffer.capacity].
    rewrite Hins. split; [rewrite length_app; cbn; lia|].
    split.
    { replace (n + 1) with (S n) by lia. reflexivity. }
    intros j Hlo Hhi.
    assert (Hj : j mod c = j) by (apply Nat.mod_small; lia). rewrite Hj.
    destruct (decide (j = n)) as [->|Hne].
    + rewrite lookup_app_r by lia. rewrite lookup_app_r by lia.
      replace (n - length (ReplayBuffer.buffer b)) with 0 by lia.
      fold n. rewrite Nat.sub_diag. reflexivity.
    + rewrite lookup_app_l by lia. rewrite (lookup_app_l xs) by (fold n; lia).
      specialize (Hget j ltac:(lia) ltac:(lia)). now rewrite Nat.mod_small in Hget by lia.
  - (* full: the oldest is overwritten *)
    assert (Hn : c <= n) by lia.
    cbn [ReplayBuffer.buffer ReplayBuffer.position ReplayBuffer.capacity].
    split; [rewrite length_insert; lia|].
    split.
    { rewrite <- (Nat.Div0.add_mod_idemp_l n 1 c). f_equal. lia. }
    intros j Hlo Hhi. destruct (decide (j = n)) as [->|Hne].
    + rewrite list_lookup_insert_eq by lia.
      rewrite lookup_app_r by (fold n; lia). fold n. now rewrite Nat.sub_diag.
    + rewrite list_lookup_insert_ne by (apply not_eq_sym, mod_distinct; lia).
      rewrite lookup_app_l by (fold n; lia). apply Hget; lia.
Qed.

(** X10.  A replay buffer of positive capacity that was pushed the
    transitions [xs] holds [min (length xs) capacity] of them; its write
    position is [length xs mod capacity]; each of the last [capacity]
    transitions sits at the slot of its number modulo the capacity, so an
    older transition is overwritten exactly when the buffer is full; while
    no more than [capacity] were pushed, the buffer is the list itself. *)
Theorem replay_buffer_keeps_latest (capacity : nat) (xs : list Transition) :
  0 < capacity ->
  let b := push_all (ReplayBuffer.init capacity) xs in
  ReplayBuffer.len b = Nat.min (length xs) capacity
  /\ ReplayBuffer.position b = length xs mod capacity
  /\ (forall j, length xs - capacity <= j -> j < length xs ->
                ReplayBuffer.buffer b !! (j mod capacity) = xs !! j)
  /\ (length xs <= capacity -> ReplayBuffer.buffer b = xs).
Proof.
  intros Hc b.
  assert (H : holds_last capacity xs b).
  { subst b. unfold push_all.
    induction xs as [|x xs IH] using rev_ind.
    - cbn. repeat split; try reflexivity; try (now rewrite Nat.Div0.mod_0_l).
      all: intros; cbn in *; lia.
    - rewrite fold_left_app. cbn [fold_left]. apply holds_last_push; assumption. }
  destruct H as (_ & Hlen & Hpos & Hget). unfold ReplayBuffer.len.
  split; [exact Hlen|]. split; [exact Hpos|]. split; [exact Hget|].
  intros Hle. apply list_eq. intros i.
  destruct (Nat.lt_ge_cases i (length xs)) as [Hi|Hi].
  - specialize (Hget i ltac:(lia) Hi). now rewrite Nat.mod_small in Hget by lia.
  - rewrite !lookup_ge_None_2; [reflexivity | lia | lia].
Qed.

Lemma replay_buffer_keeps_latest_witness :
  ReplayBuffer.buffer (push_all (ReplayBuffer.init 2) [tr_a; tr_b; tr_c]) !! (2 mod 2)
  = [tr_a; tr_b; tr_c] !! 2.
Proof.
  apply (replay_buffer_keeps_latest 2 [tr_a; tr_b; tr_c]); cbn; lia.
Defined.

(** ** The worker handle *)

Section HandleProperties.

Context {R P : Type}.
Implicit Types (queue : gmap string WorkerHandle.Handler) (m : WorkerHandle.Message R P).

Lemma onmessage_cases queue m (id : string) :
  posted_by_worker (WorkerHandle.m_type m) = true ->
  let r := WorkerHandle.onmessage queue m in
  (ends_request id m = true ->
     r.1 !! id = None
     /\ List.filter (WorkerHandle.settles id) r.2
        = match queue !! id with Some _ => [outcome m] | None => [] end)
  /\ (ends_request id m = false ->
     r.1 !! id = queue !! id /\ List.filter (WorkerHandle.settles id) r.2 = []).
Proof.
  intros Hk. unfold WorkerHandle.onmessage, ends_request, outcome.
  destruct (String.eqb (WorkerHandle.m_id m) id) eqn:Ei.
  - apply String.eqb_eq in Ei. subst id.
    destruct (WorkerHandle.m_type m) eqn:Et; try discriminate Hk; cbn [andb WorkerHandle.is_final];
      destruct (queue !! WorkerHandle.m_id m) as [h|] eqn:Eq; cbn [fst snd];
      (split; [intros H; try discriminate H | intros H; try discriminate H]);
      rewrite ?lookup_delete_eq, ?Eq; cbn [List.filter WorkerHandle.settles];
      rewrite ?String.eqb_refl; try (split; reflexivity).
    destruct (WorkerHandle.onProgress h); split; reflexivity.
  - assert (Hne : WorkerHandle.m_id m <> id) by (apply String.eqb_neq; exact Ei).
    cbn [andb]. split; [discriminate|]. intros _.
    destruct (WorkerHandle.m_type m) eqn:Et; try discriminate Hk; cbn [WorkerHandle.is_final];
      destruct (queue !! WorkerHandle.m_id m) as [h|] eqn:Eq; cbn [fst snd];
      rewrite ?lookup_delete_ne by exact Hne; cbn [List.filter WorkerHandle.settles];
      rewrite ?Ei; try (split; reflexivity).
    destruct (WorkerHandle.onProgress h); split; reflexivity.
Qed.

Lemma deliver_settles (ms : list (WorkerHandle.Message R P)) : forall queue (id : string),
  Forall (fun m => posted_by_worker (WorkerHandle.m_type m) = true) ms ->
  List.filter (WorkerHandle.settles id) (WorkerHandle.deliver queue ms).2
  = match queue !! id, List.find (ends_request id) ms with
    | Some _, Some m => [outcome m]
    | _, _ => []
    end
  /\ (WorkerHandle.deliver queue ms).1 !! id
     = match List.find (ends_request id) ms with
       | Some _ => None
       | None => queue !! id
       end.
Proof.
  induction ms as [|m rest IH]; intros queue id Hk.
  - cbn. destruct (queue !! id); split; reflexivity.
  - inversion Hk as [|? ? Hm Hrest]; subst.
    cbn [WorkerHandle.deliver List.find].
    pose proof (onmessage_cases queue m id Hm) as [Hend Hnot]. cbn zeta in Hend, Hnot.
    destruct (WorkerHandle.onmessage queue m) as [q1 ev1] eqn:E1.
    destruct (IH q1 id Hrest) as [IH1 IH2].
    destruct (WorkerHandle.deliver q1 rest) as [q2 ev2] eqn:E2.
    cbn [fst snd] in *. rewrite List.filter_app, IH1, IH2.
    destruct (ends_request id m) eqn:Ee.
    + destruct (Hend eq_refl) as [Hq Hf]. rewrite Hq, Hf.
      destruct (queue !! id); destruct (List.find (ends_request id) rest); split; reflexivity.
    + destruct (Hnot eq_refl) as [Hq Hf]. rewrite Hq, Hf. split; reflexivity.
Qed.

End HandleProperties.

(** X20.  Of the messages a worker posts, the first one that ends request
    [id] settles its promise, and nothing else does: the promise is resolved
    or rejected at most once, with the result or the error of that message;
    a request that is not pending is never settled; and a request is pending
    afterwards exactly when it was pending and no message ended it. *)
Theorem request_settled_once {R P : Type} (queue : gmap string WorkerHandle.Handler)
  (ms : list (WorkerHandle.Message R P)) (id : string) :
  Forall (fun m => posted_by_worker (WorkerHandle.m_type m) = true) ms ->
  let settled := List.filter (WorkerHandle.settles id) (WorkerHandle.deliver queue ms).2 in
  length settled <= 1
  /\ (queue !! id = None -> settled = [])
  /\ (forall h m, queue !! id = Some h -> List.find (ends_request id) ms = Some m ->
        settled = [outcome m])
  /\ (List.find (ends_request id) ms = None ->
        settled = [] /\ (WorkerHandle.deliver queue ms).1 !! id = queue !! id)
  /\ (forall m, List.find (ends_request id) ms = Some m ->
        (WorkerHandle.deliver queue ms).1 !! id = None).
Proof.
  intros Hk settled. subst settled.
  destruct (deliver_settles ms queue id Hk) as [Hs Hq]. rewrite Hs, Hq.
  destruct (queue !! id) as [h|]; destruct (List.find (ends_request id) ms) as [m|];
    cbn [length]; repeat split; try lia; try reflexivity; try discriminate.
  - intros h' m' _ [= <-]. reflexivity.
Qed.

Lemma request_settled_once_witness :
  List.filter (WorkerHandle.settles "run-1")
    (WorkerHandle.deliver one_request [msg_error_run_1; msg_success_run_1]).2
  = [WorkerHandle.Rejected "run-1" "boom"].
Proof.
  refine (proj1 (proj2 (proj2 (request_settled_once one_request
                                 [msg_error_run_1; msg_success_run_1] "run-1" _)))
            {| WorkerHandle.onProgress := false |} msg_error_run_1 _ _).
  - repeat constructor.
  - apply lookup_insert_eq.
  - reflexivity.
Defined.

(** ** The counters of the batch dispatcher *)

Lemma sum_map_insert {A : Type} (f : A -> nat) (ws : list A) (w : nat) (x y : A) :
  ws !! w = Some x ->
  sum_list (map f (<[w := y]> ws)) + f x = sum_list (map f ws) + f y.
Proof.
  revert w. induction ws as [|z ws IH]; intros [|w] H; try discriminate.
  - injection H as ->. cbn. lia.
  - change (<[S w := y]> (z :: ws)) with (z :: <[w := y]> ws).
    specialize (IH w H). cbn [map sum_list sum_list_with]. lia.
Qed.

Section DispatcherCounters.

Context {Task Signals : Type}.
Variable runOnWorker : nat -> list Task -> Task -> option (Signals + string).
Variable shouldCancel : option (nat -> bool).
Variable tasks : list Task.

Lemma Counted_initial (workerCount : option Z) :
  Counted tasks (Batch.initial Signals tasks workerCount).
Proof.
  split; cbn.
  - reflexivity.
  - induction (Batch.maxWorkers workerCount (length tasks)) as [|k IH]; cbn; [lia | exact IH].
  - rewrite !length_replicate. reflexivity.
  - induction (Batch.maxWorkers workerCount (length tasks)) as [|k IH]; cbn; [lia | exact IH].
Qed.

Lemma Counted_step (w : nat) (st : Batch.State Task Signals) :
  Counted tasks st -> Counted tasks (Batch.step runOnWorker shouldCancel tasks w st).
Proof.
  intros [Hp Hc Hh Hr]. unfold Batch.step.
  destruct (Batch.workers st !! w) as [[| idx |]|] eqn:Ew; try (split; assumption).
  - destruct (match shouldCancel with Some f => f (Batch.cancelCalls st) | None => false end).
    + split; cbn [Batch.progress Batch.completed Batch.workers Batch.nextIndex Batch.ran]; try assumption.
      * pose proof (sum_map_insert in_flight _ w _ Batch.Done Ew). cbn [in_flight] in *. lia.
      * rewrite length_insert. exact Hh.
    + split; cbn [Batch.progress Batch.completed Batch.workers Batch.nextIndex Batch.ran]; try assumption.
      * destruct (Nat.leb_spec (length tasks) (Batch.nextIndex st)).
        -- pose proof (sum_map_insert in_flight _ w _ Batch.Done Ew). cbn [in_flight] in *. lia.
        -- pose proof (sum_map_insert in_flight _ w _ (Batch.Awaiting (Batch.nextIndex st)) Ew).
           cbn [in_flight] in *. lia.
      * rewrite length_insert. exact Hh.
  - destruct (tasks !! idx) as [task|]; [|split; assumption].
    destruct (runOnWorker w _ task) as [settled|]; [|split; assumption].
    assert (Hw : w < length (Batch.ran st)).
    { rewrite Hh. eapply lookup_lt_Some; eauto. }
    destruct (lookup_lt_is_Some_2 _ _ Hw) as [h Eh].
    split; cbn [Batch.progress Batch.completed Batch.workers Batch.nextIndex Batch.ran].
    + rewrite Hp. unfold progress_calls. rewrite seq_S, map_app. reflexivity.
    + pose proof (sum_map_insert in_flight _ w _ Batch.AtLoopHead Ew). cbn [in_flight] in *. rewrite <- Hc. clear - H. lia.
    + rewrite !length_insert. exact Hh.
    + rewrite Eh. cbn [default from_option]. change (id h) with h.
      pose proof (sum_map_insert (@length Task) _ w _ (h ++ [task])%list Eh) as Hs.
      rewrite length_app in Hs. cbn [length] in Hs. lia.
Qed.

Lemma Counted_run (schedule : list nat) : forall st,
  Counted tasks st -> Counted tasks (Batch.run runOnWorker shouldCancel tasks schedule st).
Proof.
  induction schedule as [|w rest IH]; intros st H; [exact H|].
  cbn [Batch.run]. apply IH, Counted_step, H.
Qed.

Lemma finished_none_in_flight (ws : list Batch.Worker) :
  forallb Batch.is_done ws = true -> sum_list (map in_flight ws) = 0.
Proof.
  induction ws as [|x ws IH]; [reflexivity|]. cbn [forallb].
  intros H. apply andb_true_iff in H as [Hx Hws]. destruct x; try discriminate.
  cbn. apply IH, Hws.
Qed.

End DispatcherCounters.

Lemma in_flight_le_length (ws : list Batch.Worker) :
  sum_list (map in_flight ws) <= length ws.
Proof. induction ws as [|[| |] ws IH]; cbn in *; lia. Qed.

(** X21.  The progress callback of a batch counts up by one from 1, whatever
    the interleaving; the handles together have run as many tasks as have
    settled; no more tasks are in flight than there are handles; a batch
    that was never told to cancel has reported every task once all workers
    have returned. *)
Theorem batch_progress_counts_up {Task Signals : Type}
  (runOnWorker : nat -> list Task -> Task -> option (Signals + string))
  (shouldCancel : option (nat -> bool)) (tasks : list Task) (workerCount : option Z)
  (schedule : list nat) :
  let st := Batch.run runOnWorker shouldCancel tasks schedule
              (Batch.initial Signals tasks workerCount) in
  Batch.progress st = progress_calls (Batch.completed st) (length tasks)
  /\ Batch.completed st <= length tasks
  /\ sum_list (map (@length Task) (Batch.ran st)) = Batch.completed st
  /\ sum_list (map in_flight (Batch.workers st)) <= Batch.maxWorkers workerCount (length tasks)
  /\ (Batch.never_cancels shouldCancel -> Batch.finished st = true ->
      Batch.completed st = length tasks).
Proof.
  intros st.
  pose proof (Counted_run runOnWorker shouldCancel tasks schedule _
                (Counted_initial tasks workerCount)) as [Hp Hc Hh Hr].
  fold st in Hp, Hc, Hh, Hr.
  assert (Hlen : length (Batch.workers st) = Batch.maxWorkers workerCount (length tasks)).
  { unfold st. rewrite workers_length_run. cbn. apply length_replicate. }
  split; [exact Hp|]. split; [lia|]. split; [exact Hr|]. split.
  { rewrite <- Hlen. apply in_flight_le_length. }
  intros Hnc Hfin.
  assert (Hex0 : Batch.exhausted tasks (Batch.initial Signals tasks workerCount)).
  { intros w H. cbn in H. apply lookup_replicate in H. destruct H as [H _]. discriminate. }
  pose proof (exhausted_run runOnWorker shouldCancel tasks schedule Hnc _ Hex0) as Hex.
  fold st in Hex.
  pose proof (maxWorkers_pos workerCount (length tasks)) as Hpos.
  destruct (lookup_lt_is_Some_2 (Batch.workers st) 0 ltac:(lia)) as [x Hx].
  pose proof (finished_lookup st 0 x Hfin Hx) as ->.
  specialize (Hex 0 Hx).
  rewrite (finished_none_in_flight _ Hfin) in Hc. lia.
Qed.

Lemma batch_progress_counts_up_witness :
  Batch.completed
    (Batch.run (fun _ _ (t : nat) => Some (@inl nat string t)) None [7; 8; 9] [0; 1; 0; 1; 1; 1; 0; 1]
       (Batch.initial nat [7; 8; 9] (Some 2%Z)))
  = length [7; 8; 9].
Proof.
  apply (batch_progress_counts_up (fun _ _ (t : nat) => Some (@inl nat string t)) None [7; 8; 9]
           (Some 2%Z) [0; 1; 0; 1; 1; 1; 0; 1]); [exact I | reflexivity].
Defined.

(** ** The lookback cap, the choice of the class and the success message *)


Section LookbackCap.

Context {U : Type}.
Variable tick : Wrapper.tick U.
Hypothesis tick_keeps : keeps_window tick.





End LookbackCap.




(** X23.  When the user code defines no [on_tick] or [strategy] function,
    the class the wrapper picks is the last class of the namespace that the
    user code defined in [__main__] under a name that is not one of the
    wrapper's and that has an [on_tick], whatever other classes come before
    or after it. *)
Theorem last_strategy_class_wins {U : Type} (before after : list (Wrapper.Class U))
  (c : Wrapper.Class U) :
  strategy_class c = true ->
  Forall (fun d => strategy_class d = false) after ->
  Wrapper.target_class (before ++ c :: after) = Some c.
Proof.
  intros Hc Hafter. unfold strategy_class in Hc.
  apply andb_true_iff in Hc as [Hc Hot]. 
  unfold Wrapper.target_class. cbv zeta.
  rewrite !filter_app, (filter_cons_True _ c) by (apply Is_true_true; exact Hc).
  rewrite (filter_cons_True _ c) by (apply Is_true_true; exact Hot).
  assert (Hnil : filter (fun d => Wrapper.has_on_tick d)
                   (filter (fun c0 => negb (Wrapper.mem (Wrapper.binding c0) Wrapper.builtin_names)
                                      && Wrapper.in_main c0) after) = []).
  { induction Hafter as [|d rest Hd _ IH]; [reflexivity|].
    unfold strategy_class in Hd.
    destruct (negb (Wrapper.mem (Wrapper.binding d) Wrapper.builtin_names) && Wrapper.in_main d)
      eqn:Ed.
    - rewrite filter_cons_True by (apply Is_true_true; exact Ed).
      cbn [andb] in Hd. rewrite filter_cons_False by (apply Is_true_false; exact Hd). exact IH.
    - rewrite filter_cons_False by (apply Is_true_false; exact Ed). exact IH. }
  rewrite Hnil, last_snoc. reflexivity.
Qed.

Lemma last_strategy_class_wins_witness :
  Wrapper.target_class ([helper_class] ++ strategy_class_a :: [helper_class])
  = Some strategy_class_a.
Proof.
  apply (last_strategy_class_wins [helper_class] [helper_class] strategy_class_a).
  - reflexivity.
  - repeat constructor.
Defined.




Local Open Scope Q_scope.

(** ** The ledger: closing, reversing and the fees *)

Section LedgerClosing.

Import TradeLedger.

Variables (side : Side) (rawPrice sz : Q) (tm pre : string) (pos : Position)
          (note : option string) (costs : CostConfig) (useSlippage : bool) (stamp : string).

Abbreviation exec := (execPrice side rawPrice costs useSlippage).

Lemma isClosing_nonflat : isClosing side pos = true -> ~ size pos == 0.
Proof.
  unfold isClosing, Qgtb. destruct side; intros H; apply Qltb_lt in H; lra.
Qed.

Lemma closing_sign :
  isClosing side pos = true ->
  (0 < size pos /\ tradeSign side = -1) \/ (size pos < 0 /\ tradeSign side = 1).
Proof.
  unfold isClosing, Qgtb. destruct side; intros H; apply Qltb_lt in H; [right|left]; auto.
Qed.

Lemma Qabs_by_sign (x : Q) : (0 < x -> Qabs x == x) /\ (x < 0 -> Qabs x == - x).
Proof.
  split; intros H; [apply Qabs_pos | apply Qabs_neg]; lra.
Qed.

(** X1.  A trade against the position that is larger than the position
    reverses it: the new position has the size of the excess on the other
    side, its average price is the execution price of the trade, and the
    profit booked is the edge on the lots that were held, not on the lots
    traded. *)
Theorem reversal_flips_position :
  isClosing side pos = true ->
  Qabs (size pos) < sz ->
  exists out,
    processTradeLogic side rawPrice sz tm pre pos note costs useSlippage stamp = Some out
    /\ size (newPos out) == size pos + sz * tradeSign side
    /\ Qabs (size (newPos out)) == sz - Qabs (size pos)
    /\ (0 < size pos <-> size (newPos out) < 0)
    /\ avgPrice (newPos out) = exec
    /\ realizedGrossPnL out == closing_edge pos exec * Qabs (size pos) * POINT_VALUE costs.
Proof.
  intros Hc Hlt. unfold processTradeLogic. rewrite Hc.
  eexists. split; [reflexivity|]. cbn [newPos size avgPrice realizedGrossPnL].
  destruct (Qabs_by_sign (size pos)) as [Hp Hn].
  destruct (closing_sign Hc) as [[Hs Ht]|[Hs Ht]]; rewrite Ht.
  - specialize (Hp Hs). rewrite Hp in Hlt.
    split; [reflexivity|]. split.
    { rewrite Hp. rewrite Qabs_neg by lra. lra. }
    split; [split; intros; lra|]. split.
    + qcases; try reflexivity; lra.
    + unfold closing_edge, Qgtb. qcases; try lra.
      rewrite (Q.min_l (Qabs (size pos)) sz) by (rewrite Hp; lra). reflexivity.
  - specialize (Hn Hs). rewrite Hn in Hlt.
    split; [reflexivity|]. split.
    { rewrite Hn. rewrite Qabs_pos by lra. lra. }
    split; [split; intros; lra|]. split.
    + qcases; try reflexivity; lra.
    + unfold closing_edge, Qgtb. qcases; try lra.
      rewrite (Q.min_l (Qabs (size pos)) sz) by (rewrite Hn; lra). reflexivity.
Qed.

(** X2.  A trade against the position of at most its size reduces it by
    the lots traded and books the edge on them; the average price of what
    remains is unchanged, and a position closed in full is flat with an
    average price of zero. *)
Theorem close_without_reversal :
  isClosing side pos = true ->
  0 < sz -> sz <= Qabs (size pos) ->
  exists out,
    processTradeLogic side rawPrice sz tm pre pos note costs useSlippage stamp = Some out
    /\ size (newPos out) == size pos + sz * tradeSign side
    /\ Qabs (size (newPos out)) == Qabs (size pos) - sz
    /\ (sz < Qabs (size pos) -> avgPrice (newPos out) = avgPrice pos)
    /\ (sz == Qabs (size pos) -> avgPrice (newPos out) = 0 /\ size (newPos out) == 0)
    /\ realizedGrossPnL out == closing_edge pos exec * sz * POINT_VALUE costs.
Proof.
  intros Hc Hsz Hle. unfold processTradeLogic. rewrite Hc.
  eexists. split; [reflexivity|]. cbn [newPos size avgPrice realizedGrossPnL].
  destruct (Qabs_by_sign (size pos)) as [Hp Hn].
  destruct (closing_sign Hc) as [[Hs Ht]|[Hs Ht]]; rewrite Ht.
  - specialize (Hp Hs). rewrite Hp in Hle.
    split; [reflexivity|]. split.
    { rewrite Hp. rewrite Qabs_pos by lra. lra. }
    split; [|split].
    + rewrite Hp. intros Hlt. qcases; try reflexivity; lra.
    + rewrite Hp. intros He. split; [|lra]. qcases; try reflexivity; lra.
    + unfold closing_edge, Qgtb. qcases; try lra.
      rewrite (Q.min_r (Qabs (size pos)) sz) by (rewrite Hp; lra). reflexivity.
  - specialize (Hn Hs). rewrite Hn in Hle.
    split; [reflexivity|]. split.
    { rewrite Hn. rewrite Qabs_neg by lra. lra. }
    split; [|split].
    + rewrite Hn. intros Hlt. qcases; try reflexivity; lra.
    + rewrite Hn. intros He. split; [|lra]. qcases; try reflexivity; lra.
    + unfold closing_edge, Qgtb. qcases; try lra.
      rewrite (Q.min_r (Qabs (size pos)) sz) by (rewrite Hn; lra). reflexivity.
Qed.

Lemma Math_round_bounds (x : Q) :
  x - (1 # 2) < Math_round x <= x + (1 # 2)
  /\ exists z : Z, Math_round x = inject_Z z.
Proof.
  unfold Math_round. split; [|eexists; reflexivity].
  pose proof (Qfloor_le (x + (1 # 2))) as Hl.
  pose proof (Qlt_floor (x + (1 # 2))) as Hu.
  rewrite inject_Z_plus in Hu. change (inject_Z 1) with 1 in Hu. split; lra.
Qed.

(** X3.  For every trade the ledger accepts: the net profit is the gross
    profit less the fees; the fees are the commission per lot plus the tax;
    the tax is a whole number within one half of the notional times the tax
    rate; a trade that opens or adds books no gross profit and costs its
    fees; the trade record carries the execution price, the net profit and
    the size of the position after it. *)
Theorem trade_accounting (out : Outcome) :
  processTradeLogic side rawPrice sz tm pre pos note costs useSlippage stamp = Some out ->
  netPnL out == realizedGrossPnL out - fees out
  /\ fees out == COMMISSION costs * sz + tax out
  /\ (exists z : Z, tax out = inject_Z z)
  /\ exec * POINT_VALUE costs * sz * TAX_RATE costs - (1 # 2) < tax out
     <= exec * POINT_VALUE costs * sz * TAX_RATE costs + (1 # 2)
  /\ (isClosing side pos = false -> realizedGrossPnL out == 0 /\ netPnL out == - fees out)
  /\ t_price (trade out) = exec
  /\ t_pnl (trade out) = netPnL out
  /\ t_positionAfter (trade out) = size (newPos out).
Proof.
  unfold processTradeLogic.
  destruct (Math_round_bounds (exec * POINT_VALUE costs * sz * TAX_RATE costs)) as [Hb Hz].
 
  destruct (isClosing side pos) eqn:Hc.
  - intros [= <-]. cbn. repeat split; try reflexivity; try apply Hb; try exact Hz; discriminate.
  - destruct (Qeq_bool _ 0); [discriminate|]. intros [= <-]. cbn.
    repeat split; try reflexivity; try apply Hb; try exact Hz; lra.
Qed.

(** X4.  Adding to a position that is not flat leaves an average price
    between the old average price and the execution price of the trade. *)
Theorem added_average_between :
  isClosing side pos = false ->
  0 < sz -> ~ size pos == 0 ->
  exists out,
    processTradeLogic side rawPrice sz tm pre pos note costs useSlippage stamp = Some out
    /\ Qmin (avgPrice pos) exec <= avgPrice (newPos out) <= Qmax (avgPrice pos) exec.
Proof.
  intros Hc Hsz Hnz. unfold processTradeLogic. rewrite Hc.
  pose proof (Qabs_nonneg (size pos)) as Ha.
  assert (Hapos : 0 < Qabs (size pos)).
  { destruct (Qlt_le_dec 0 (size pos)) as [H|H].
    - rewrite Qabs_pos; lra.
    - rewrite Qabs_neg by assumption.
      destruct (Qeq_dec (size pos) 0); [contradiction|]. lra. }
  assert (Hne : ~ Qabs (size pos) + sz == 0) by lra.
  apply Qeq_bool_false in Hne. rewrite Hne.
  eexists. split; [reflexivity|]. cbn [newPos avgPrice].
  set (a := Qabs (size pos)) in *. set (A := avgPrice pos). set (E := exec).
  pose proof (Q.le_min_l A E). pose proof (Q.le_min_r A E).
  pose proof (Q.le_max_l A E). pose proof (Q.le_max_r A E).
  split.
  - apply Qle_shift_div_l; [lra|]. nra.
  - apply Qle_shift_div_r; [lra|]. nra.
Qed.

End LedgerClosing.

Lemma reversal_flips_position_witness :
  exists out,
    TradeLedger.processTradeLogic TradeLedger.BUY 100 3 "09:00" "T" short_1_at_105 None
      TradeLedger.DEFAULT_COSTS false "1" = Some out
    /\ TradeLedger.size (TradeLedger.newPos out) == 2
    /\ TradeLedger.avgPrice (TradeLedger.newPos out) = 100
    /\ TradeLedger.realizedGrossPnL out == 1000.
Proof.
  destruct (reversal_flips_position TradeLedger.BUY 100 3 "09:00" "T" short_1_at_105 None
              TradeLedger.DEFAULT_COSTS false "1" eq_refl eq_refl)
    as (out & E & Hs & _ & _ & Ha & Hr).
  exists out. split; [exact E|]. split; [exact Hs|]. split; [exact Ha | exact Hr].
Defined.

Lemma close_without_reversal_witness :
  exists out,
    TradeLedger.processTradeLogic TradeLedger.SELL 110 1 "09:00" "T" long_2_at_100 None
      TradeLedger.DEFAULT_COSTS false "1" = Some out
    /\ TradeLedger.size (TradeLedger.newPos out) == 1
    /\ TradeLedger.avgPrice (TradeLedger.newPos out) = 100
    /\ TradeLedger.realizedGrossPnL out == 2000.
Proof.
  destruct (close_without_reversal TradeLedger.SELL 110 1 "09:00" "T" long_2_at_100 None
              TradeLedger.DEFAULT_COSTS false "1" eq_refl eq_refl ltac:(discriminate))
    as (out & E & Hs & _ & Ha & _ & Hr).
  exists out. split; [exact E|]. split; [exact Hs|]. split; [apply Ha; reflexivity | exact Hr].
Defined.

Lemma trade_accounting_witness :
  exists out,
    TradeLedger.processTradeLogic TradeLedger.SELL 110 1 "09:00" "T" long_2_at_100 None
      TradeLedger.DEFAULT_COSTS true "1" = Some out
    /\ TradeLedger.netPnL out == TradeLedger.realizedGrossPnL out - TradeLedger.fees out
    /\ TradeLedger.fees out == 50 * 1 + TradeLedger.tax out.
Proof.
  eexists. split; [reflexivity|].
  split; apply (trade_accounting TradeLedger.SELL 110 1 "09:00" "T" long_2_at_100 None
                  TradeLedger.DEFAULT_COSTS true "1" _ eq_refl).
Defined.

Lemma added_average_between_witness :
  exists out,
    TradeLedger.processTradeLogic TradeLedger.BUY 110 1 "09:00" "T" long_2_at_100 None
      TradeLedger.DEFAULT_COSTS false "1" = Some out
    /\ Qmin 100 110 <= TradeLedger.avgPrice (TradeLedger.newPos out) <= Qmax 100 110.
Proof.
  apply (added_average_between TradeLedger.BUY 110 1 "09:00" "T" long_2_at_100 None
           TradeLedger.DEFAULT_COSTS false "1" eq_refl eq_refl).
  discriminate.
Defined.

(** X5.  Opening a position from flat and closing it with a trade of the
    same size on the other side leaves the ledger flat with an average
    price of zero; the gross profit of the round trip is the difference of
    the two execution prices, signed by the side of the opening trade,
    times the size and the point value, and the net profit is that less the
    fees of both trades. *)
Theorem round_trip_realizes_spread (side : TradeLedger.Side) (raw1 raw2 sz : Q)
  (costs : TradeLedger.CostConfig) (useSlippage : bool) (tm pre stamp : string)
  (note : option string) :
  0 < sz ->
  let e1 := TradeLedger.execPrice side raw1 costs useSlippage in
  let e2 := TradeLedger.execPrice (opposite side) raw2 costs useSlippage in
  exists out1 out2,
    TradeLedger.processTradeLogic side raw1 sz tm pre TradeLedger.flat note costs
      useSlippage stamp = Some out1
    /\ TradeLedger.processTradeLogic (opposite side) raw2 sz tm pre
         (TradeLedger.newPos out1) note costs useSlippage stamp = Some out2
    /\ TradeLedger.avgPrice (TradeLedger.newPos out1) == e1
    /\ TradeLedger.size (TradeLedger.newPos out2) == 0
    /\ TradeLedger.avgPrice (TradeLedger.newPos out2) = 0
    /\ TradeLedger.realizedGrossPnL out2
       == TradeLedger.tradeSign side * (e2 - e1) * sz * TradeLedger.POINT_VALUE costs
    /\ TradeLedger.netPnL out1 + TradeLedger.netPnL out2
       == TradeLedger.tradeSign side * (e2 - e1) * sz * TradeLedger.POINT_VALUE costs
          - TradeLedger.fees out1 - TradeLedger.fees out2.
Proof.
  intros Hsz e1 e2.
  assert (Hne : Qeq_bool (Qabs 0 + sz) 0 = false).
  { apply Qeq_bool_false. change (Qabs 0) with 0. lra. }
  assert (Havg : (Qabs 0 * 0 + sz * e1) / (Qabs 0 + sz) == e1).
  { change (Qabs 0) with 0. field. lra. }
  destruct (TradeLedger.processTradeLogic side raw1 sz tm pre TradeLedger.flat note costs
              useSlippage stamp) as [out1|] eqn:E1.
  2:{ exfalso. unfold TradeLedger.processTradeLogic in E1.
      destruct side; cbn [TradeLedger.isClosing TradeLedger.flat TradeLedger.size] in E1;
        [change (Qltb 0 0) with false in E1 | change (Qgtb 0 0) with false in E1];
        cbv iota in E1; cbn [TradeLedger.size TradeLedger.avgPrice] in E1;
        rewrite Hne in E1; discriminate. }
  assert (F1 : TradeLedger.newPos out1
               = {| TradeLedger.size := 0 + sz * TradeLedger.tradeSign side;
                    TradeLedger.avgPrice := (Qabs 0 * 0 + sz * e1) / (Qabs 0 + sz) |}
               /\ TradeLedger.netPnL out1 = 0 - TradeLedger.fees out1).
  { unfold TradeLedger.processTradeLogic in E1.
    destruct side; cbn [TradeLedger.isClosing TradeLedger.flat TradeLedger.size] in E1;
      [change (Qltb 0 0) with false in E1 | change (Qgtb 0 0) with false in E1];
      cbv iota in E1; cbn [TradeLedger.size TradeLedger.avgPrice] in E1;
      rewrite Hne in E1; injection E1 as <-; split; reflexivity. }
  destruct F1 as [Ep Hn1].
  exists out1. rewrite Ep, Hn1.
  assert (Hc : TradeLedger.isClosing (opposite side)
                 {| TradeLedger.size := 0 + sz * TradeLedger.tradeSign side;
                    TradeLedger.avgPrice := (Qabs 0 * 0 + sz * e1) / (Qabs 0 + sz) |} = true).
  { unfold TradeLedger.isClosing, Qgtb. destruct side; cbn; apply Qltb_lt; lra. }
  unfold TradeLedger.processTradeLogic. rewrite Hc. fold e2.
  eexists. split; [reflexivity|]. split; [reflexivity|].
  cbn [TradeLedger.newPos TradeLedger.size TradeLedger.avgPrice TradeLedger.realizedGrossPnL
       TradeLedger.netPnL TradeLedger.fees].
  split; [exact Havg|].
  destruct side; cbn [opposite TradeLedger.tradeSign] in *.
  - assert (Hmin : Qmin (Qabs (0 + sz * 1)) sz == sz).
    { rewrite Qabs_pos by lra. apply Q.min_r. lra. }
    split; [lra|]. split; [qcases; try reflexivity; lra|].
    assert (Hg : Qgtb (0 + sz * 1) 0 = true) by (unfold Qgtb; apply Qltb_lt; lra).
    rewrite Hg, Hmin, Havg. split; lra.
  - assert (Hmin : Qmin (Qabs (0 + sz * -1)) sz == sz).
    { rewrite Qabs_neg by lra. apply Q.min_r. lra. }
    split; [lra|]. split; [qcases; try reflexivity; lra|].
    assert (Hg : Qgtb (0 + sz * -1) 0 = false) by (unfold Qgtb; apply Qltb_ge; lra).
    rewrite Hg, Hmin, Havg. split; lra.
Qed.

Lemma round_trip_realizes_spread_witness :
  exists out1 out2,
    TradeLedger.processTradeLogic TradeLedger.BUY 100 1 "09:00" "T" TradeLedger.flat None
      TradeLedger.DEFAULT_COSTS true "1" = Some out1
    /\ TradeLedger.processTradeLogic TradeLedger.SELL 110 1 "09:00" "T"
         (TradeLedger.newPos out1) None TradeLedger.DEFAULT_COSTS true "1" = Some out2
    /\ TradeLedger.size (TradeLedger.newPos out2) == 0
    /\ TradeLedger.realizedGrossPnL out2 == 1 * (109 - 101) * 1 * 200.
Proof.
  destruct (round_trip_realizes_spread TradeLedger.BUY 100 110 1 TradeLedger.DEFAULT_COSTS true
              "09:00" "T" "1" None eq_refl)
    as (out1 & out2 & E1 & E2 & _ & Hs & _ & Hr & _).
  exists out1, out2. split; [exact E1|]. split; [exact E2|]. split; [exact Hs | exact Hr].
Defined.

(** ** The dashboard: what its counters keep *)

Lemma newPos_independent_of_labels (side : TradeLedger.Side) (raw sz : Q)
  (tm pre tm' pre' : string) (pos : TradeLedger.Position) (note note' : option string)
  (costs : TradeLedger.CostConfig) (sl : bool) (stamp stamp' : string) :
  option_map TradeLedger.newPos
    (TradeLedger.processTradeLogic side raw sz tm pre pos note costs sl stamp)
  = option_map TradeLedger.newPos
      (TradeLedger.processTradeLogic side raw sz tm' pre' pos note' costs sl stamp').
Proof.
  unfold TradeLedger.processTradeLogic.
  destruct (TradeLedger.isClosing side pos); [reflexivity|].
  destruct (Qeq_bool _ 0); reflexivity.
Qed.

Lemma handleTradeLogic_step (costConfig : TradeLedger.CostConfig) (r : TradeRequest)
  (st st1 : Dashboard.t) :
  Dashboard.handleTradeLogic costConfig (q_side r) (q_price r) (q_size r)
    (q_time r) (q_prefix r) (q_note r) (q_stamp r) st = Some st1 ->
  Dashboard.balance (Dashboard.simState st1) - Dashboard.dayPnL (Dashboard.simState st1)
  == Dashboard.balance (Dashboard.simState st) - Dashboard.dayPnL (Dashboard.simState st)
  /\ (length (Dashboard.executionTrades st1) <= 200)%nat
  /\ (TradeLedger.size (Dashboard.currentPosition st1) == 0 ->
      Dashboard.equity (Dashboard.simState st1) == Dashboard.balance (Dashboard.simState st1))
  /\ TradeLedger.applyTrades [request_order costConfig r] (Dashboard.currentPosition st)
     = Some (Dashboard.currentPosition st1).
Proof.
  unfold Dashboard.handleTradeLogic. cbn [TradeLedger.applyTrades request_order
    TradeLedger.o_side TradeLedger.o_rawPrice TradeLedger.o_size TradeLedger.o_costs
    TradeLedger.o_useSlippage].
  pose proof (newPos_independent_of_labels (q_side r) (q_price r) (q_size r)
                (q_time r) (q_prefix r) EmptyString "T" (Dashboard.currentPosition st)
                (q_note r) None costConfig true (q_stamp r) EmptyString) as Hind.
  destruct (TradeLedger.processTradeLogic (q_side r) (q_price r) (q_size r) (q_time r)
              (q_prefix r) (Dashboard.currentPosition st) (q_note r) costConfig true
              (q_stamp r)) as [out|]; [|discriminate].
  intros [= <-]. cbn [Dashboard.simState Dashboard.balance Dashboard.dayPnL Dashboard.equity
                      Dashboard.executionTrades Dashboard.currentPosition].
  split; [lra|]. split.
  { cbn [length]. pose proof (firstn_le_length 199 (Dashboard.executionTrades st)). lia. }
  split.
  - intros Hz. apply Qeq_bool_iff in Hz. rewrite Hz. cbn [negb]. lra.
  - destruct (TradeLedger.processTradeLogic _ _ _ EmptyString _ _ None _ _ EmptyString)
      as [out'|]; [|discriminate]. cbn in Hind. injection Hind as Hind. now rewrite Hind.
Qed.

(** X6.  Whatever trades the dashboard handles, the balance and the profit
    of the day move together (their difference never changes), the list of
    executed trades never holds more than 200 entries, the equity shown
    equals the balance whenever the position is flat, and the position is
    the one the ledger computes from the same trades with slippage on. *)
Theorem dashboard_accounting (costConfig : TradeLedger.CostConfig)
  (reqs : list TradeRequest) (st st' : Dashboard.t) :
  handle_all costConfig reqs st = Some st' ->
  Dashboard.balance (Dashboard.simState st') - Dashboard.dayPnL (Dashboard.simState st')
  == Dashboard.balance (Dashboard.simState st) - Dashboard.dayPnL (Dashboard.simState st)
  /\ (reqs <> [] -> (length (Dashboard.executionTrades st') <= 200)%nat)
  /\ (reqs <> [] -> TradeLedger.size (Dashboard.currentPosition st') == 0 ->
      Dashboard.equity (Dashboard.simState st') == Dashboard.balance (Dashboard.simState st'))
  /\ TradeLedger.applyTrades (map (request_order costConfig) reqs) (Dashboard.currentPosition st)
     = Some (Dashboard.currentPosition st').
Proof.
  revert st. induction reqs as [|r rest IH]; intros st; cbn [handle_all].
  - intros [= <-]. split; [lra|]. split; [congruence|]. split; [congruence|]. reflexivity.
  - destruct (Dashboard.handleTradeLogic _ _ _ _ _ _ _ _ st) as [st1|] eqn:E1; [|discriminate].
    intros Hrest.
    destruct (handleTradeLogic_step costConfig r st st1 E1) as (Hb & Hl & He & Hp).
    destruct (IH st1 Hrest) as (Hb' & Hl' & He' & Hp').
    split; [lra|].
    assert (Hcase : rest = [] /\ st' = st1 \/ rest <> []).
    { destruct rest; [left; split; [reflexivity|]; cbn in Hrest; congruence | right; discriminate]. }
    split; [|split].
    + intros _. destruct Hcase as [[-> ->]|Hne]; auto.
    + intros _. destruct Hcase as [[-> ->]|Hne]; auto.
    + cbn [map TradeLedger.applyTrades]. cbn [TradeLedger.applyTrades] in Hp.
      destruct (TradeLedger.processTradeLogic _ _ _ _ _ _ _ _ _ _) as [out|]; [|discriminate].
      injection Hp as Hp. rewrite Hp. exact Hp'.
Qed.

Lemma dashboard_accounting_witness :
  exists st',
    handle_all TradeLedger.DEFAULT_COSTS [buy_request; sell_request] fresh_dashboard = Some st'
    /\ Dashboard.balance (Dashboard.simState st') - Dashboard.dayPnL (Dashboard.simState st')
       == 100000 - 0
    /\ Dashboard.equity (Dashboard.simState st') == Dashboard.balance (Dashboard.simState st').
Proof.
  eexists. split; [reflexivity|].
  destruct (dashboard_accounting TradeLedger.DEFAULT_COSTS [buy_request; sell_request]
              fresh_dashboard _ eq_refl) as (Hb & _ & He & _).
  split; [exact Hb|]. apply He; [discriminate | reflexivity].
Defined.

(** X25.  A manual order does nothing while there are no candles.  On a
    flat book it trades at the close of the last candle, and right after it
    the equity shown is below the balance by the slippage on the lots
    traded: the position is marked at the close, and was entered one
    slippage away from it. *)
Theorem manual_trade_marks_at_last_close (costConfig : TradeLedger.CostConfig)
  (data : list Candle) (manualOrderSize : Q) (side : TradeLedger.Side) (stamp : string)
  (st : Dashboard.t) :
  0 < manualOrderSize ->
  TradeLedger.size (Dashboard.currentPosition st) == 0 ->
  Dashboard.handleManualTrade costConfig [] manualOrderSize side stamp st = Some st
  /\ forall candle, last data = Some candle ->
       exists st',
         Dashboard.handleManualTrade costConfig data manualOrderSize side stamp st = Some st'
         /\ TradeLedger.size (Dashboard.currentPosition st')
            == manualOrderSize * TradeLedger.tradeSign side
         /\ TradeLedger.avgPrice (Dashboard.currentPosition st')
            == TradeLedger.execPrice side (close candle) costConfig true
         /\ Dashboard.equity (Dashboard.simState st')
            == Dashboard.balance (Dashboard.simState st')
               - TradeLedger.SLIPPAGE costConfig * manualOrderSize
                 * TradeLedger.POINT_VALUE costConfig.
Proof.
  intros Hsz Hflat. split; [reflexivity|]. intros candle Hlast.
  unfold Dashboard.handleManualTrade, Dashboard.handleTradeLogic. rewrite Hlast.
  unfold TradeLedger.processTradeLogic.
  assert (Hc : TradeLedger.isClosing side (Dashboard.currentPosition st) = false).
  { unfold TradeLedger.isClosing, Qgtb. destruct side; apply Qltb_ge; lra. }
  rewrite Hc.
  assert (Habs : Qabs (TradeLedger.size (Dashboard.currentPosition st)) == 0).
  { rewrite Hflat. reflexivity. }
  assert (Hne : Qeq_bool (Qabs (TradeLedger.size (Dashboard.currentPosition st))
                          + manualOrderSize) 0 = false).
  { apply Qeq_bool_false. lra. }
  rewrite Hne. eexists. split; [reflexivity|].
  cbn [Dashboard.currentPosition Dashboard.simState Dashboard.equity Dashboard.balance
       TradeLedger.newPos TradeLedger.size TradeLedger.avgPrice TradeLedger.netPnL].
  set (exec := TradeLedger.execPrice side (close candle) costConfig true).
  assert (Havg : (Qabs (TradeLedger.size (Dashboard.currentPosition st))
                  * TradeLedger.avgPrice (Dashboard.currentPosition st)
                  + manualOrderSize * exec)
                 / (Qabs (TradeLedger.size (Dashboard.currentPosition st)) + manualOrderSize)
                 == exec).
  { rewrite Habs. field. lra. }
  split; [lra|]. split; [exact Havg|].
  assert (Hnz : Qeq_bool (TradeLedger.size (Dashboard.currentPosition st)
                          + manualOrderSize * TradeLedger.tradeSign side) 0 = false).
  { apply Qeq_bool_false. destruct side; cbn [TradeLedger.tradeSign]; lra. }
  rewrite Hnz. cbn [negb]. rewrite Havg.
  subst exec. unfold TradeLedger.execPrice.
  destruct side; cbn [TradeLedger.tradeSign]; rewrite Hflat; ring.
Qed.

Lemma manual_trade_marks_at_last_close_witness :
  exists st',
    Dashboard.handleManualTrade TradeLedger.DEFAULT_COSTS [candle_1] 2 TradeLedger.BUY "1"
      fresh_dashboard = Some st'
    /\ Dashboard.equity (Dashboard.simState st')
       == Dashboard.balance (Dashboard.simState st') - 1 * 2 * 200.
Proof.
  destruct (proj2 (manual_trade_marks_at_last_close TradeLedger.DEFAULT_COSTS [candle_1] 2
                     TradeLedger.BUY "1" fresh_dashboard eq_refl ltac:(reflexivity))
              candle_1 eq_refl) as (st' & E & _ & _ & He).
  exists st'. split; [exact E | exact He].
Defined.

(** ** The strategy context: the signal log *)

Lemma api_step_log (parse : string -> option Py.float) (ctx : StrategyContext.t) (c : ApiCall) :
  exists added,
    StrategyContext.signals (api_step parse ctx c) = (StrategyContext.signals ctx ++ added)%list
    /\ (length added <= if is_signal_call c then 1 else 0)%nat
    /\ StrategyContext.order_counter (api_step parse ctx c)
       = (StrategyContext.order_counter ctx + if is_order c then 1 else 0)%nat
    /\ (StrategyContext.current_candle ctx = None -> sets_no_candle c = true ->
        added = [] /\ StrategyContext.current_candle (api_step parse ctx c) = None)
    /\ Forall (fun sg => In (sg_time sg) (candle_times ctx [c])) added
    /\ (forall k, StrategyContext.current_candle (api_step parse ctx c) = Some k ->
                  In (time k) (candle_times ctx [c])).
Proof.
  destruct ctx as [sigs cur n]. destruct c as [a s p r|i r|r|k];
    cbn [api_step is_signal_call is_order sets_no_candle].
  - unfold StrategyContext.order. cbn [StrategyContext.current_candle StrategyContext.signals
                                        StrategyContext.order_counter].
    destruct cur as [candle|].
    + match goal with |- context [let '(_, _) := ?x in _] => destruct x end.
      eexists. split; [reflexivity|]. cbn. split; [lia|]. split; [lia|].
      split; [discriminate|]. split; [repeat constructor; auto|].
      intros k0 [= <-]. auto.
    + exists []. cbn. rewrite app_nil_r. split; [reflexivity|]. split; [lia|]. split; [lia|].
      split; [auto|]. split; [constructor|]. discriminate.
  - unfold StrategyContext.cancel. cbn [StrategyContext.current_candle].
    destruct cur as [candle|]; [destruct (StrategyContext.truthy i)|].
    + eexists. split; [reflexivity|]. cbn. split; [lia|]. split; [lia|].
      split; [discriminate|]. split; [repeat constructor; auto|].
      intros k0 [= <-]. auto.
    + exists []. cbn. rewrite app_nil_r. split; [reflexivity|]. split; [lia|]. split; [lia|].
      split; [discriminate|]. split; [constructor|]. intros k0 [= <-]. auto.
    + exists []. cbn. rewrite app_nil_r. split; [reflexivity|]. split; [lia|]. split; [lia|].
      split; [auto|]. split; [constructor|]. discriminate.
  - unfold StrategyContext.close_all. cbn [StrategyContext.current_candle].
    destruct cur as [candle|].
    + eexists. split; [reflexivity|]. cbn. split; [lia|]. split; [lia|].
      split; [discriminate|]. split; [repeat constructor; auto|].
      intros k0 [= <-]. auto.
    + exists []. cbn. rewrite app_nil_r. split; [reflexivity|]. split; [lia|]. split; [lia|].
      split; [auto|]. split; [constructor|]. discriminate.
  - exists []. cbn. rewrite app_nil_r. split; [reflexivity|]. split; [lia|]. split; [lia|].
    split; [|split; [constructor|]].
    + intros -> Hk. destruct k; [discriminate|]. split; reflexivity.
    + intros k' [= ->]. destruct cur; cbn; auto.
Qed.

Lemma candle_times_cons (ctx : StrategyContext.t) (c : ApiCall) (rest : list ApiCall)
  (parse : string -> option Py.float) (t : string) :
  In t (candle_times (api_step parse ctx c) rest) -> In t (candle_times ctx (c :: rest)).
Proof.
  unfold candle_times. rewrite !in_app_iff. cbn [flat_map]. rewrite in_app_iff.
  destruct (api_step_log parse ctx c) as (_ & _ & _ & _ & _ & _ & Hk).
  intros [H|H]; [|auto].
  destruct (StrategyContext.current_candle (api_step parse ctx c)) as [k|] eqn:E; [|destruct H].
  destruct H as [<-|[]]. specialize (Hk k eq_refl).
  unfold candle_times in Hk. cbn [flat_map] in Hk. rewrite app_nil_r in Hk.
  apply in_app_iff in Hk. tauto.
Qed.

(** X7.  The calls of [order], [cancel] and [close_all] only ever append to
    the signal log: after any sequence of calls the log is the old log
    followed by at most one signal per call; the order counter has grown by
    the number of calls of [order], whether or not they logged a signal;
    nothing is logged while no candle has been set; and every signal logged
    carries the time of a candle that was current during the run. *)
Theorem signal_log_is_append_only (parse : string -> option Py.float)
  (calls : list ApiCall) (ctx : StrategyContext.t) :
  exists added,
    StrategyContext.signals (api_run parse ctx calls)
    = (StrategyContext.signals ctx ++ added)%list
    /\ (length added <= length (List.filter is_signal_call calls))%nat
    /\ StrategyContext.order_counter (api_run parse ctx calls)
       = (StrategyContext.order_counter ctx + length (List.filter is_order calls))%nat
    /\ (StrategyContext.current_candle ctx = None ->
        forallb sets_no_candle calls = true -> added = [])
    /\ Forall (fun sg => In (sg_time sg) (candle_times ctx calls)) added.
Proof.
  revert ctx. induction calls as [|c rest IH]; intros ctx.
  - exists []. cbn. rewrite app_nil_r. repeat split; try lia; constructor.
  - unfold api_run. cbn [fold_left]. fold (api_run parse (api_step parse ctx c) rest).
    destruct (api_step_log parse ctx c) as (a1 & E1 & L1 & C1 & N1 & T1 & _).
    destruct (IH (api_step parse ctx c)) as (a2 & E2 & L2 & C2 & N2 & T2).
    exists (a1 ++ a2)%list. rewrite E2, E1, C2, C1, app_assoc.
    split; [reflexivity|]. split; [|split; [|split]].
    + rewrite length_app. cbn [List.filter].
      destruct (is_signal_call c); cbn [length]; lia.
    + cbn [List.filter]. destruct (is_order c); cbn [length]; lia.
    + intros Hn Hall. cbn [forallb] in Hall. apply andb_true_iff in Hall as [Hc Hr].
      destruct (N1 Hn Hc) as [-> Hn1]. now rewrite (N2 Hn1 Hr).
    + apply Forall_app. split.
      * eapply Forall_impl; [exact T1|]. intros sg H. cbn beta in *.
        unfold candle_times in *. cbn [flat_map] in *. rewrite app_nil_r in H.
        rewrite !in_app_iff in *. tauto.
      * eapply Forall_impl; [exact T2|]. intros sg H. cbn beta in *.
        eapply candle_times_cons; eauto.
Qed.

(** X8.  What [order] logs on a candle.  A string in the price slot with no
    reason is taken for the reason, and the order is a market order.  A
    price that converts to a float gives a LIMIT order at that price, which
    also is its [limitPrice]; no price, or one that does not convert, gives
    a MARKET order at the close of the candle with a [limitPrice] of
    [None]; an integer too large for a double is such a price.  The signal
    always carries the time of the candle and the action and size as
    given. *)
Theorem order_market_or_limit (parse : string -> option Py.float) (ctx : StrategyContext.t)
  (c : Candle) (action size price reason : Py.value) :
  (forall text,
      StrategyContext.order parse ctx action size (Py.VStr text) (Py.VStr EmptyString)
      = StrategyContext.order parse ctx action size Py.VNone (Py.VStr text))
  /\ (forall f, shimmed price reason = false -> price <> Py.VNone ->
                Py.to_float parse price = Some f ->
        exists sg, order_signal parse ctx c action size price reason = Some sg
                   /\ sg_orderType sg = Some "LIMIT"%string
                   /\ sg_price sg = Py.VFloat f
                   /\ sg_limitPrice sg = Some (Py.VFloat f)
                   /\ sg_reason sg = reason)
  /\ (shimmed price reason = true \/ price = Py.VNone \/ Py.to_float parse price = None ->
        exists sg, order_signal parse ctx c action size price reason = Some sg
                   /\ sg_orderType sg = Some "MARKET"%string
                   /\ sg_price sg = Py.VFloat (Py.Fin (close c))
                   /\ sg_limitPrice sg = Some Py.VNone
                   /\ sg_reason sg = if shimmed price reason then price else reason)
  /\ (exists sg, order_signal parse ctx c action size price reason = Some sg
                 /\ sg_time sg = time c /\ sg_action sg = action /\ sg_size sg = size)
  /\ (forall z, Py.int_overflows z = true ->
        exists sg, order_signal parse ctx c action size (Py.VInt z) reason = Some sg
                   /\ sg_orderType sg = Some "MARKET"%string
                   /\ sg_price sg = Py.VFloat (Py.Fin (close c))
                   /\ sg_limitPrice sg = Some Py.VNone).
Proof.
  assert (Hbig : forall z, Py.int_overflows z = true ->
            exists sg, order_signal parse ctx c action size (Py.VInt z) reason = Some sg
                       /\ sg_orderType sg = Some "MARKET"%string
                       /\ sg_price sg = Py.VFloat (Py.Fin (close c))
                       /\ sg_limitPrice sg = Some Py.VNone).
  { intros z Hz. unfold order_signal, StrategyContext.order.
    cbn [StrategyContext.set_current StrategyContext.current_candle Py.to_float].
    rewrite Hz. cbn [snd StrategyContext.append StrategyContext.signals].
    rewrite last_snoc. eexists. split; [reflexivity|]. cbn. repeat split. }
  unfold order_signal, StrategyContext.order.
  cbn [StrategyContext.set_current StrategyContext.current_candle].
  fold (shimmed price reason).
  split; [|split; [|split; [|split; [|exact Hbig]]]].
  - intros text. destruct (StrategyContext.current_candle ctx); reflexivity.
  - intros f Hs Hn Hf. rewrite Hs. cbv iota.
    assert (E : match price with
                | Py.VNone => ("MARKET"%string, None)
                | _ => match Py.to_float parse price with
                       | Some f0 => ("LIMIT"%string, Some f0)
                       | None => ("MARKET"%string, None)
                       end
                end = ("LIMIT"%string, Some f)).
    { destruct price; try contradiction; rewrite Hf; reflexivity. }
    rewrite E. cbn [snd StrategyContext.append StrategyContext.signals].
    rewrite last_snoc. eexists. split; [reflexivity|]. cbn. repeat split.
  - intros H.
    destruct (shimmed price reason) eqn:Hs; cbv iota.
    + cbn [snd StrategyContext.append StrategyContext.signals].
      rewrite last_snoc. eexists. split; [reflexivity|]. cbn. repeat split.
    + assert (E : match price with
                  | Py.VNone => ("MARKET"%string, @None Py.float)
                  | _ => match Py.to_float parse price with
                         | Some f0 => ("LIMIT"%string, Some f0)
                         | None => ("MARKET"%string, None)
                         end
                  end = ("MARKET"%string, None)).
      { destruct H as [H|[->|H]]; [discriminate|reflexivity|].
        destruct price; try reflexivity; rewrite H; reflexivity. }
      rewrite E. cbn [snd StrategyContext.append StrategyContext.signals].
      rewrite last_snoc. eexists. split; [reflexivity|]. cbn. repeat split.
  - match goal with |- context [let '(_, _) := ?x in _] => destruct x end.
    cbn [snd StrategyContext.append StrategyContext.signals].
    rewrite last_snoc. eexists. split; [reflexivity|]. cbn. repeat split.
Qed.

Lemma sma_loop_index_error (data : list Q) (period : Z) (i : Z) (todo : list Z) :
  In i todo -> Py.index data (i - period) = None ->
  forall ws ret, StrategyContext.sma_loop data period todo ws ret = None.
Proof.
  intros Hin Hi. induction todo as [|j rest IH]; [destruct Hin|].
  intros ws ret. cbn [StrategyContext.sma_loop].
  destruct (Py.index data (j - period)) as [old|] eqn:Eo; [|reflexivity].
  destruct (Py.index data j) as [new|]; [|reflexivity].
  apply IH. destruct Hin as [->|H]; [congruence | exact H].
Qed.

(** X9.  [sma] raises for every period that is zero or negative, whatever
    the series: on zero by the division, on a negative period by an index
    out of range in its loop. *)
Theorem sma_rejects_nonpositive_period (data : list Q) (period : Z) :
  (period <= 0)%Z -> StrategyContext.sma data period = None.
Proof.
  intros Hp. unfold StrategyContext.sma.
  destruct (Z.ltb_spec (Z.of_nat (length data)) period); [lia|].
  destruct (Z.eqb_spec period 0); [reflexivity|].
  apply (sma_loop_index_error data period (Z.of_nat (length data) + period)%Z).
  - unfold Py.range. apply in_map_iff. exists (length data). split; [lia|].
    apply in_seq. lia.
  - replace (Z.of_nat (length data) + period - period)%Z with (Z.of_nat (length data)) by lia.
    unfold Py.index. destruct (Z.leb_spec 0 (Z.of_nat (length data))); [|lia].
    rewrite Nat2Z.id. apply nth_error_None. lia.
Qed.

Lemma sma_rejects_nonpositive_period_witness :
  StrategyContext.sma [1; 2; 3] (-2) = None.
Proof. apply (sma_rejects_nonpositive_period [1; 2; 3] (-2)). discriminate. Defined.

(** ** The network: the forward and the backward pass *)

Lemma list_lookup_map {A B} (f : A -> B) (l : list A) (i : nat) :
  map f l !! i = option_map f (l !! i).
Proof.
  revert i. induction l as [|x l IH]; intros [|i]; try reflexivity. apply IH.
Qed.

Lemma forward_rows (self : MicroModel.t) (X : Np.matrix) :
  fst (MicroModel.forward self X) = map (q_row self) X.
Proof.
  unfold MicroModel.forward, q_row. cbn [fst].
  unfold Np.add_bias, Np.dot, Np.mmap. rewrite !map_map. reflexivity.
Qed.

(** X11.  The forward pass treats every state of a batch on its own: it
    returns one row of Q-values per state, the row of a state in a batch is
    the row the network gives for that state alone, the result does not
    depend on what an earlier pass left in the cache, and the pass changes
    no weight. *)
Theorem forward_is_rowwise (self : MicroModel.t) (X : Np.matrix) :
  length (fst (MicroModel.forward self X)) = length X
  /\ (forall i x, X !! i = Some x ->
        fst (MicroModel.forward self X) !! i = fst (MicroModel.forward self [x]) !! 0%nat)
  /\ (forall X', fst (MicroModel.forward (snd (MicroModel.forward self X')) X)
                  = fst (MicroModel.forward self X))
  /\ MicroModel.W1 (snd (MicroModel.forward self X)) = MicroModel.W1 self
  /\ MicroModel.W2 (snd (MicroModel.forward self X)) = MicroModel.W2 self.
Proof.
  rewrite !forward_rows. split; [apply length_map|]. split.
  - intros i x Hx. rewrite !forward_rows. unfold Np.matrix in *.
    rewrite list_lookup_map, Hx. reflexivity.
  - split; [intros X'; rewrite !forward_rows; reflexivity|]. split; reflexivity.
Qed.

Lemma clip1_bounds (x : Q) : Qabs (Np.clip1 x) <= 1.
Proof.
  unfold Np.clip1. apply Qabs_Qle_condition.
  pose proof (Q.le_min_l 1 (Qmax (-1) x)). pose proof (Q.le_max_l (-1) x).
  split; [|assumption].
  apply Q.min_glb; [lra | assumption].
Qed.

Lemma entry_map2 (f : Q -> Q -> Q) (A B : Np.matrix) (i j : nat) (c : Q) :
  entry (Np.map2 f A B) i j = Some c ->
  exists a b, entry A i j = Some a /\ entry B i j = Some b /\ c = f a b.
Proof.
  unfold entry, Np.map2, Np.matrix in *. rewrite lookup_zip_with.
  destruct (A !! i) as [ra|]; [|discriminate]. cbn.
  destruct (B !! i) as [rb|]; [|discriminate]. cbn.
  rewrite lookup_zip_with.
  destruct (ra !! j) as [a|]; [|discriminate]. cbn.
  destruct (rb !! j) as [b|]; [|discriminate]. cbn.
  intros [= <-]. exists a, b. auto.
Qed.

Lemma entry_mmap (f : Q -> Q) (A : Np.matrix) (i j : nat) (c : Q) :
  entry (Np.mmap f A) i j = Some c -> exists a, entry A i j = Some a /\ c = f a.
Proof.
  unfold entry, Np.mmap, Np.matrix in *. rewrite list_lookup_map.
  destruct (A !! i) as [ra|]; [|discriminate]. cbn. rewrite list_lookup_map.
  destruct (ra !! j) as [a|]; [|discriminate]. cbn. intros [= <-]. exists a. auto.
Qed.

(** X12.  One backward pass moves no weight of [W1] or [W2] by more than
    the learning rate divided by the batch size, whatever the gradients
    are: they are clipped to [-1, 1] before the update.  The learning rate
    is unchanged. *)
Theorem backward_moves_weights_by_at_most_lr
  (self self' : MicroModel.t) (d_loss_output : Np.matrix) :
  MicroModel.backward self d_loss_output = Some self' ->
  0 <= MicroModel.lr self ->
  d_loss_output <> [] ->
  let bound := MicroModel.lr self / inject_Z (Z.of_nat (length d_loss_output)) in
  (forall i j w', entry (MicroModel.W1 self') i j = Some w' ->
      exists w, entry (MicroModel.W1 self) i j = Some w /\ Qabs (w' - w) <= bound)
  /\ (forall i j w', entry (MicroModel.W2 self') i j = Some w' ->
      exists w, entry (MicroModel.W2 self) i j = Some w /\ Qabs (w' - w) <= bound)
  /\ MicroModel.lr self' = MicroModel.lr self.
Proof.
  unfold MicroModel.backward. destruct (MicroModel.cache self) as [c|]; [|discriminate].
  intros H Hlr Hne.
  set (bound := MicroModel.lr self / inject_Z (Z.of_nat (length d_loss_output))).
  injection H as <-. cbn [MicroModel.W1 MicroModel.W2 MicroModel.lr].
  set (m := inject_Z (Z.of_nat (length d_loss_output))) in *.
  assert (Hm : 0 < m).
  { subst m. change 0 with (inject_Z 0). rewrite <- Zlt_Qlt.
    destruct d_loss_output; [contradiction | cbn [length]; lia]. }
  assert (Hstep : forall w g, Qabs (w - MicroModel.lr self * (Np.clip1 g / m) - w) <= bound).
  { intros w g. subst bound.
    assert (E : w - MicroModel.lr self * (Np.clip1 g / m) - w
                == - (MicroModel.lr self / m * Np.clip1 g)) by (field; lra).
    rewrite E, Qabs_opp, Qabs_Qmult.
    assert (H0 : 0 <= MicroModel.lr self / m) by (apply Qle_shift_div_l; lra).
    rewrite (Qabs_pos _ H0). pose proof (clip1_bounds g). nra. }
  split; [|split; [|reflexivity]].
  - intros i j w' H. apply entry_map2 in H as (w & g & Hw & Hg & ->).
    apply entry_mmap in Hg as (g0 & _ & ->). exists w. split; [exact Hw | apply Hstep].
  - intros i j w' H. apply entry_map2 in H as (w & g & Hw & Hg & ->).
    apply entry_mmap in Hg as (g0 & _ & ->). exists w. split; [exact Hw | apply Hstep].
Qed.

Lemma backward_moves_weights_by_at_most_lr_witness :
  exists self',
    MicroModel.backward (snd (MicroModel.forward tiny_model [[1]])) [[1; 1]] = Some self'
    /\ MicroModel.lr self' = 1 # 10.
Proof.
  eexists. split; [reflexivity|].
  apply (backward_moves_weights_by_at_most_lr (snd (MicroModel.forward tiny_model [[1]])) _
           [[1; 1]] eq_refl); discriminate.
Defined.

(** ** The training step *)

Lemma sum_nonneg (l : list Q) : (forall x, In x l -> 0 <= x) -> 0 <= Py.sum l.
Proof.
  induction l as [|x l IH]; intros H; cbn [Py.sum]; [lra|].
  pose proof (H x (or_introl eq_refl)). specialize (IH (fun y Hy => H y (or_intror Hy))). lra.
Qed.

Lemma mean_squares_nonneg (M : Np.matrix) (l : Q) :
  Np.mean (Np.mmap (fun x => x * x) M) = Some l -> 0 <= l.
Proof.
  unfold Np.mean. set (xs := concat (Np.mmap (fun x => x * x) M)).
  assert (Hx : forall x, In x xs -> 0 <= x).
  { subst xs. intros x Hin. apply in_concat in Hin as (r & Hr & Hxr).
    unfold Np.mmap in Hr. apply in_map_iff in Hr as (r0 & <- & _).
    apply in_map_iff in Hxr as (y & <- & _). nra. }
  destruct xs as [|x0 rest] eqn:E; [discriminate|]. intros [= <-].
  apply Qle_shift_div_l.
  - change 0 with (inject_Z 0). rewrite <- Zlt_Qlt. cbn [length]. lia.
  - rewrite Qmult_0_l. apply (sum_nonneg (x0 :: rest)). exact Hx.
Qed.

(** X13.  A training step that completes returns a loss that is not
    negative and changes nothing of the agent but its network: the memory,
    epsilon and its floor and decay, gamma, the batch size, the number of
    actions and the learning rate are as before. *)
Theorem replay_changes_only_the_network
  (sample : list Transition -> nat -> list Transition) (self self' : DQNAgent.t) (loss : Q) :
  DQNAgent.replay sample self = Some (loss, self') ->
  0 <= loss
  /\ DQNAgent.memory self' = DQNAgent.memory self
  /\ DQNAgent.epsilon self' = DQNAgent.epsilon self
  /\ DQNAgent.epsilon_min self' = DQNAgent.epsilon_min self
  /\ DQNAgent.epsilon_decay self' = DQNAgent.epsilon_decay self
  /\ DQNAgent.gamma self' = DQNAgent.gamma self
  /\ DQNAgent.batch_size self' = DQNAgent.batch_size self
  /\ DQNAgent.action_dim self' = DQNAgent.action_dim self
  /\ MicroModel.lr (DQNAgent.model self') = MicroModel.lr (DQNAgent.model self).
Proof.
  unfold DQNAgent.replay.
  destruct (_ <? _)%nat.
  - intros [= <- <-]. repeat split; try reflexivity. lra.
  - destruct (MicroModel.forward (DQNAgent.model self) _) as [current_qs m1] eqn:F1.
    destruct (MicroModel.forward m1 _) as [next_qs m2] eqn:F2.
    destruct (DQNAgent.all_some _) as [mx|]; [|discriminate].
    destruct (DQNAgent.write_targets _ _ _ _ _) as [target|]; [|discriminate].
    destruct (MicroModel.backward m2 _) as [m3|] eqn:B; [|discriminate].
    destruct (Np.mean _) as [l|] eqn:M; [|discriminate].
    intros [= <- <-]. split; [eapply mean_squares_nonneg; eauto|].
    cbn. repeat split; try reflexivity.
    unfold MicroModel.backward in B. destruct (MicroModel.cache m2); [|discriminate].
    injection B as <-. cbn.
    unfold MicroModel.forward in F1, F2. injection F2 as _ <-. injection F1 as _ <-. reflexivity.
Qed.

Lemma replay_changes_only_the_network_witness :
  DQNAgent.replay (fun l _ => l) tiny_agent = Some (tiny_loss, tiny_agent_trained)
  /\ 0 <= tiny_loss
  /\ DQNAgent.memory tiny_agent_trained = DQNAgent.memory tiny_agent.
Proof.
  split; [reflexivity|].
  split; apply (replay_changes_only_the_network (fun l _ => l) tiny_agent tiny_agent_trained
                  tiny_loss eq_refl).
Defined.

(** X26.  The backward pass of a training step runs on the cache of the
    forward pass over the next states of the minibatch, which overwrote the
    cache of the pass over its states: the network a completed step leaves
    is the backward pass, on the error of the Q-values of the states,
    applied to the network as the pass over the next states left it. *)
Theorem replay_backpropagates_through_next_states
  (sample : list Transition -> nat -> list Transition) (self self' : DQNAgent.t) (loss : Q) :
  (DQNAgent.batch_size self <= ReplayBuffer.len (DQNAgent.memory self))%nat ->
  DQNAgent.replay sample self = Some (loss, self') ->
  let minibatch := sample (ReplayBuffer.buffer (DQNAgent.memory self))
                     (DQNAgent.batch_size self) in
  let current_qs := fst (MicroModel.forward (DQNAgent.model self) (map tr_state minibatch)) in
  let after_next :=
    snd (MicroModel.forward (DQNAgent.model self) (map tr_next_state minibatch)) in
  (exists target_qs,
     MicroModel.backward after_next (Np.map2 Qminus current_qs target_qs)
     = Some (DQNAgent.model self')
     /\ Np.mean (Np.mmap (fun x => x * x) (Np.map2 Qminus current_qs target_qs)) = Some loss)
  /\ option_map MicroModel.c_X (MicroModel.cache (DQNAgent.model self'))
     = Some (map tr_next_state minibatch).
Proof.
  intros Hlen. unfold DQNAgent.replay.
  destruct (Nat.ltb_spec (ReplayBuffer.len (DQNAgent.memory self)) (DQNAgent.batch_size self));
    [lia|].
  cbv zeta.
  set (minibatch := sample (ReplayBuffer.buffer (DQNAgent.memory self))
                      (DQNAgent.batch_size self)).
  unfold MicroModel.forward at 1 2. cbn [MicroModel.W1 MicroModel.b1 MicroModel.W2 MicroModel.b2
                                         MicroModel.lr].
  destruct (DQNAgent.all_some _) as [mx|]; [|discriminate].
  destruct (DQNAgent.write_targets _ _ _ _ _) as [target|]; [|discriminate].
  destruct (MicroModel.backward _ _) as [m3|] eqn:B; [|discriminate].
  destruct (Np.mean _) as [l|] eqn:M; [|discriminate].
  intros [= <- <-]. cbn [DQNAgent.model DQNAgent.with_model fst snd].
  split.
  - exists target. split; [exact B | exact M].
  - unfold MicroModel.backward in B. cbn [MicroModel.cache] in B.
    injection B as <-. reflexivity.
Qed.

Lemma replay_backpropagates_through_next_states_witness :
  option_map MicroModel.c_X (MicroModel.cache (DQNAgent.model tiny_agent_trained))
  = Some [[2]].
Proof.
  apply (replay_backpropagates_through_next_states (fun l _ => l) tiny_agent tiny_agent_trained
           tiny_loss).
  - cbn. lia.
  - reflexivity.
Defined.

(** ** The default environment *)

Lemma tiny_env_ok : env_ok tiny_env.
Proof.
  split; [discriminate|]. split; [repeat constructor; discriminate | cbn; lia].
Qed.

Lemma index_in_range {A} (l : list A) (i : Z) :
  (0 <= i < Z.of_nat (length l))%Z -> exists x, Py.index l i = Some x /\ In x l.
Proof.
  intros Hi. unfold Py.index. destruct (Z.leb_spec 0 i); [|lia].
  destruct (nth_error l (Z.to_nat i)) as [x|] eqn:E.
  - exists x. split; [reflexivity|]. eapply nth_error_In; eauto.
  - apply nth_error_None in E. lia.
Qed.

Lemma get_state_ok (self : TradingEnv.t) :
  TradingEnv.df self <> [] ->
  Forall (fun r => ~ TradingEnv.r_close r == 0) (TradingEnv.df self) ->
  (0 <= TradingEnv.current_step self)%Z ->
  exists state self',
    TradingEnv.get_state self = Some (state, self')
    /\ length state = 3%nat
    /\ TradingEnv.df self' = TradingEnv.df self
    /\ TradingEnv.position self' = TradingEnv.position self
    /\ TradingEnv.entry_price self' = TradingEnv.entry_price self
    /\ TradingEnv.done self' = TradingEnv.done self
    /\ TradingEnv.current_step self'
       = Z.min (TradingEnv.current_step self) (Z.of_nat (length (TradingEnv.df self)) - 1).
Proof.
  intros Hne Hcl Hs. unfold TradingEnv.get_state.
  set (n := Z.of_nat (length (TradingEnv.df self))).
  assert (Hn : (0 < n)%Z).
  { subst n. destruct (TradingEnv.df self); [contradiction | cbn [length]; lia]. }
  set (k := if (n <=? TradingEnv.current_step self)%Z then (n - 1)%Z
            else TradingEnv.current_step self).
  assert (Hk : k = Z.min (TradingEnv.current_step self) (n - 1)).
  { subst k. destruct (Z.leb_spec n (TradingEnv.current_step self)); lia. }
  destruct (index_in_range (TradingEnv.df self) k) as (row & -> & Hin); [fold n; lia|].
  rewrite Forall_forall in Hcl. specialize (Hcl row).
  assert (Hrow : elem_of row (TradingEnv.df self)) by (apply list_elem_of_In; exact Hin).
  specialize (Hcl Hrow). apply Qeq_bool_false in Hcl. rewrite Hcl.
  eexists. eexists. split; [reflexivity|]. cbn. repeat split; try reflexivity. exact Hk.
Qed.

Lemma trade_cases (action : nat) (price : Q) (p : Z) (entry : Q) :
  unit_position p ->
  let '(reward, p', entry') := TradingEnv.trade action price p entry in
  unit_position p'
  /\ (action = 1%nat -> p' = 1%Z
        /\ (p = 1%Z -> entry' = entry /\ reward = 0)
        /\ (p = 0%Z -> entry' = price /\ reward = 0)
        /\ (p = (-1)%Z -> entry' = price /\ reward = (entry - price) * 200))
  /\ (action = 2%nat -> p' = (-1)%Z
        /\ (p = (-1)%Z -> entry' = entry /\ reward = 0)
        /\ (p = 0%Z -> entry' = price /\ reward = 0)
        /\ (p = 1%Z -> entry' = price /\ reward = (price - entry) * 200))
  /\ (action <> 1%nat -> action <> 2%nat -> p' = p /\ entry' = entry /\ reward = 0).
Proof.
  intros [-> | [-> | ->]]; destruct action as [|[|[|a]]]; cbn;
    unfold unit_position; repeat split; auto; try lia; try discriminate; try congruence.
Qed.

Lemma env_step_spec (self : TradingEnv.t) (action : nat) :
  env_ok self -> unit_position (TradingEnv.position self) ->
  exists row state self',
    Py.index (TradingEnv.df self) (TradingEnv.current_step self) = Some row
    /\ let '(reward, p', entry') :=
         TradingEnv.trade action (TradingEnv.r_close row) (TradingEnv.position self)
           (TradingEnv.entry_price self) in
       let n := Z.of_nat (length (TradingEnv.df self)) in
       let finished := (n - 1 <=? TradingEnv.current_step self + 1)%Z in
       let forced :=
         if finished then
           if (p' =? 1)%Z then (TradingEnv.r_close row - entry') * 200
           else if (p' =? -1)%Z then (entry' - TradingEnv.r_close row) * 200 else 0
         else 0 in
       exists reward_scaled,
         TradingEnv.step self action
         = Some (state, reward_scaled, (if finished then true else TradingEnv.done self), self')
         /\ reward_scaled == (reward - (1 # 10) + forced) / 1000
         /\ length state = 3%nat
         /\ TradingEnv.df self' = TradingEnv.df self
         /\ TradingEnv.position self' = p'
         /\ TradingEnv.entry_price self' = entry'
         /\ TradingEnv.done self' = (if finished then true else TradingEnv.done self)
         /\ TradingEnv.current_step self'
            = Z.min (TradingEnv.current_step self + 1) (n - 1).
Proof.
  intros (Hne & Hcl & Hs) Hp.
  destruct (index_in_range (TradingEnv.df self) (TradingEnv.current_step self) Hs)
    as (row & Hrow & _).
  unfold TradingEnv.step. rewrite Hrow.
  destruct (TradingEnv.trade action (TradingEnv.r_close row) (TradingEnv.position self)
              (TradingEnv.entry_price self)) as [[reward p'] entry'] eqn:Et.
  match goal with
  | |- context [TradingEnv.get_state ?e] =>
      destruct (get_state_ok e) as (state & self' & Eg & Hl & Hdf & Hpos & Hent & Hdone & Hcs);
      [exact Hne | exact Hcl | cbn; lia |]
  end.
  exists row, state, self'. split; [reflexivity|]. rewrite Et.
  rewrite Eg. cbn in Hdf, Hpos, Hent, Hdone, Hcs.
  eexists. split; [reflexivity|].
  split.
  { destruct (_ <=? _)%Z; [destruct (p' =? 1)%Z; [|destruct (p' =? -1)%Z]|]; field. }
  repeat split; assumption.
Qed.

Lemma env_step_ok (self : TradingEnv.t) (action : nat) :
  env_ok self -> unit_position (TradingEnv.position self) ->
  exists state reward done self',
    TradingEnv.step self action = Some (state, reward, done, self')
    /\ length state = 3%nat
    /\ env_ok self'
    /\ unit_position (TradingEnv.position self')
    /\ TradingEnv.df self' = TradingEnv.df self
    /\ TradingEnv.current_step self'
       = Z.min (TradingEnv.current_step self + 1)
           (Z.of_nat (length (TradingEnv.df self)) - 1)
    /\ done = TradingEnv.done self'
    /\ done = (TradingEnv.done self
               || (Z.of_nat (length (TradingEnv.df self)) - 1
                   <=? TradingEnv.current_step self + 1)%Z).
Proof.
  intros Hok Hp.
  destruct (env_step_spec self action Hok Hp) as (row & state & self' & Hrow & H).
  pose proof (trade_cases action (TradingEnv.r_close row) (TradingEnv.position self)
                (TradingEnv.entry_price self) Hp) as Ht.
  destruct (TradingEnv.trade _ _ _ _) as [[reward p'] entry'].
  destruct H as (rs & E & _ & Hl & Hdf & Hpos & _ & Hdone & Hcs).
  destruct Hok as (Hne & Hcl & Hs).
  exists state, rs, (if (Z.of_nat (length (TradingEnv.df self)) - 1
                         <=? TradingEnv.current_step self + 1)%Z
                     then true else TradingEnv.done self), self'.
  split; [exact E|]. split; [exact Hl|]. split.
  { unfold env_ok. rewrite Hdf, Hcs. repeat split; try assumption; lia. }
  split; [rewrite Hpos; apply Ht|]. split; [exact Hdf|]. split; [exact Hcs|].
  split; [now rewrite Hdone|].
  destruct (_ <=? _)%Z; [now rewrite orb_true_r | now rewrite orb_false_r].
Qed.

Lemma env_init_ok (frame : list TradingEnv.Row) :
  TradingEnv.init [] = None
  /\ (frame <> [] -> Forall (fun r => ~ TradingEnv.r_close r == 0) frame ->
      exists self,
        TradingEnv.init frame = Some self
        /\ env_ok self
        /\ TradingEnv.df self = frame
        /\ TradingEnv.position self = 0%Z
        /\ TradingEnv.done self = false
        /\ TradingEnv.current_step self = Z.min 30 (Z.of_nat (length frame) - 1)).
Proof.
  split; [reflexivity|]. intros Hne Hcl. unfold TradingEnv.init, TradingEnv.reset.
  destruct frame as [|r0 rest] eqn:E; [contradiction|]. rewrite <- E in *.
  cbn [TradingEnv.df].
  match goal with
  | |- context [TradingEnv.get_state ?e] =>
      destruct (get_state_ok e) as (state & self' & Eg & Hl & Hdf & Hpos & Hent & Hdone & Hcs);
      [exact Hne | exact Hcl | cbn; lia |]
  end.
  rewrite Eg. cbn in Hdf, Hpos, Hdone, Hcs. exists self'. split; [reflexivity|].
  assert (Hn : (0 < Z.of_nat (length frame))%Z) by (rewrite E; cbn [length]; lia).
  unfold env_ok. rewrite Hdf, Hcs. repeat split; try assumption; lia.
Qed.

(** X14.  On an environment with at least one candle, no zero close and a
    position of at most one lot, [step] never raises, for any action: it
    returns a state of three features, moves to the next candle without
    ever leaving the frame, keeps the position within one lot, and reports
    [done] from the step on which the last candle is reached. *)
Theorem env_step_never_raises (self : TradingEnv.t) (action : nat) :
  env_ok self -> unit_position (TradingEnv.position self) ->
  exists state reward done self',
    TradingEnv.step self action = Some (state, reward, done, self')
    /\ length state = 3%nat
    /\ env_ok self'
    /\ unit_position (TradingEnv.position self')
    /\ TradingEnv.df self' = TradingEnv.df self
    /\ TradingEnv.current_step self'
       = Z.min (TradingEnv.current_step self + 1)
           (Z.of_nat (length (TradingEnv.df self)) - 1)
    /\ done = TradingEnv.done self'
    /\ done = (TradingEnv.done self
               || (Z.of_nat (length (TradingEnv.df self)) - 1
                   <=? TradingEnv.current_step self + 1)%Z).
Proof. exact (env_step_ok self action). Qed.

Lemma env_step_never_raises_witness :
  exists state reward done self',
    TradingEnv.step tiny_env 1 = Some (state, reward, done, self')
    /\ length state = 3%nat
    /\ env_ok self'
    /\ unit_position (TradingEnv.position self')
    /\ TradingEnv.df self' = TradingEnv.df tiny_env
    /\ TradingEnv.current_step self'
       = Z.min (TradingEnv.current_step tiny_env + 1)
           (Z.of_nat (length (TradingEnv.df tiny_env)) - 1)
    /\ done = TradingEnv.done self'
    /\ done = (TradingEnv.done tiny_env
               || (Z.of_nat (length (TradingEnv.df tiny_env)) - 1
                   <=? TradingEnv.current_step tiny_env + 1)%Z).
Proof.
  apply (env_step_never_raises tiny_env 1); [exact tiny_env_ok | left; reflexivity].
Defined.

(** X15.  The default environment cannot be built on an empty frame.  On a
    frame with candles and no zero close it starts flat, not done, at
    candle 30, or at the last candle of a frame of fewer than 31. *)
Theorem env_init_starts_flat (frame : list TradingEnv.Row) :
  TradingEnv.init [] = None
  /\ (frame <> [] -> Forall (fun r => ~ TradingEnv.r_close r == 0) frame ->
      exists self,
        TradingEnv.init frame = Some self
        /\ env_ok self
        /\ TradingEnv.df self = frame
        /\ TradingEnv.position self = 0%Z
        /\ TradingEnv.done self = false
        /\ TradingEnv.current_step self = Z.min 30 (Z.of_nat (length frame) - 1)).
Proof. exact (env_init_ok frame). Qed.

(** X16.  What an action does and earns.  Action 1 leaves a long position
    of one lot and action 2 a short one; any other action, and an action
    towards the side already held, changes neither the position nor the
    entry price.  Every step costs 0.0001; reversing a position earns its
    profit at the close of the current candle, 200 a point, over 1000; on
    the step that ends the episode the open position is marked to the
    close the same way. *)
Theorem env_actions_and_rewards (self : TradingEnv.t) (action : nat)
  (state : list Q) (reward : Q) (done : bool) (self' : TradingEnv.t) (row : TradingEnv.Row) :
  env_ok self -> unit_position (TradingEnv.position self) ->
  Py.index (TradingEnv.df self) (TradingEnv.current_step self) = Some row ->
  TradingEnv.step self action = Some (state, reward, done, self') ->
  let price := TradingEnv.r_close row in
  let entry := TradingEnv.entry_price self in
  (action = 1%nat ->
     TradingEnv.position self' = 1%Z
     /\ (TradingEnv.position self = 0%Z -> reward == - (1 # 10000))
     /\ (TradingEnv.position self = (-1)%Z ->
         reward == ((entry - price) * 200 - (1 # 10)) / 1000))
  /\ (action = 2%nat ->
     TradingEnv.position self' = (-1)%Z
     /\ (TradingEnv.position self = 0%Z -> reward == - (1 # 10000))
     /\ (TradingEnv.position self = 1%Z ->
         reward == ((price - entry) * 200 - (1 # 10)) / 1000))
  /\ ((action <> 1%nat /\ action <> 2%nat)
      \/ (action = 1%nat /\ TradingEnv.position self = 1%Z)
      \/ (action = 2%nat /\ TradingEnv.position self = (-1)%Z) ->
     TradingEnv.position self' = TradingEnv.position self
     /\ TradingEnv.entry_price self' = entry
     /\ (done = false \/ TradingEnv.position self = 0%Z -> reward == - (1 # 10000))
     /\ (done = true -> TradingEnv.done self = false ->
         reward == (inject_Z (TradingEnv.position self) * (price - entry) * 200 - (1 # 10))
                   / 1000)).
Proof.
  intros Hok Hp Hrow Hstep price entry.
  destruct (env_step_spec self action Hok Hp) as (row' & state' & self'' & Hrow' & H).
  rewrite Hrow in Hrow'. injection Hrow' as <-.
  pose proof (trade_cases action (TradingEnv.r_close row) (TradingEnv.position self)
                (TradingEnv.entry_price self) Hp) as Ht.
  fold price entry in H, Ht.
  destruct (TradingEnv.trade action price (TradingEnv.position self) entry)
    as [[r p'] entry'].
  destruct H as (rs & E & Hr & _ & _ & Hpos & Hent & _ & _).
  rewrite Hstep in E. injection E as <- <- Hd <-.
  destruct Ht as (_ & Hbuy & Hsell & Hhold).
  rewrite Hpos, Hent.
  split; [|split].
  - intros ->. destruct (Hbuy eq_refl) as (-> & _ & H0 & Hm). split; [reflexivity|].
    split; intros Hq.
    + destruct (H0 Hq) as [-> ->]. rewrite Hr. destruct (_ <=? _)%Z; cbn; field.
    + destruct (Hm Hq) as [-> ->]. rewrite Hr. destruct (_ <=? _)%Z; cbn; field.
  - intros ->. destruct (Hsell eq_refl) as (-> & _ & H0 & Hm). split; [reflexivity|].
    split; intros Hq.
    + destruct (H0 Hq) as [-> ->]. rewrite Hr. destruct (_ <=? _)%Z; cbn; field.
    + destruct (Hm Hq) as [-> ->]. rewrite Hr. destruct (_ <=? _)%Z; cbn; field.
  - intros Hcase.
    assert (Hsame : p' = TradingEnv.position self /\ entry' = entry /\ r = 0).
    { destruct Hcase as [[H1 H2]|[[-> Hq]|[-> Hq]]].
      - apply Hhold; assumption.
      - destruct (Hbuy eq_refl) as (-> & Hl & _). destruct (Hl Hq) as [-> ->]. auto.
      - destruct (Hsell eq_refl) as (-> & Hl & _). destruct (Hl Hq) as [-> ->]. auto. }
    destruct Hsame as (-> & -> & ->). split; [reflexivity|]. split; [reflexivity|].
    split.
    + intros [Hdn|Hz].
      * rewrite Hr. rewrite Hd in Hdn.
        destruct (_ <=? _)%Z; [discriminate|]. field.
      * rewrite Hr, Hz. destruct (_ <=? _)%Z; cbn; field.
    + intros Hdt Hdf. rewrite Hr. rewrite Hd, Hdf in Hdt.
      destruct (_ <=? _)%Z; [|discriminate].
      destruct Hp as [-> | [-> | ->]]; cbn; field.
Qed.

Lemma env_steps_flags (actions : list nat) : forall self,
  env_ok self -> unit_position (TradingEnv.position self) ->
  exists flags final,
    env_steps self actions = Some (flags, final)
    /\ length flags = length actions
    /\ forall i d, flags !! i = Some d ->
         d = (TradingEnv.done self
              || (Z.of_nat (length (TradingEnv.df self)) - 1
                  <=? TradingEnv.current_step self + Z.of_nat i + 1)%Z).
Proof.
  induction actions as [|a rest IH]; intros self Hok Hp.
  - exists [], self. split; [reflexivity|]. split; [reflexivity|]. intros i d H. discriminate.
  - cbn [env_steps].
    destruct (env_step_ok self a Hok Hp)
      as (state & reward & done & self' & E & _ & Hok' & Hp' & Hdf & Hcs & Hd & Hd').
    rewrite E. destruct (IH self' Hok' Hp') as (flags & final & E' & Hl & Hf).
    rewrite E'. exists (done :: flags), final. split; [reflexivity|].
    split; [cbn [length]; lia|].
    destruct Hok as (_ & _ & Hs).
    intros [|i] d H.
    + injection H as <-. rewrite Hd'. f_equal. f_equal. lia.
    + cbn in H. rewrite (Hf i d H), Hdf, Hcs, <- Hd, Hd'.
      set (n := Z.of_nat (length (TradingEnv.df self))) in *.
      destruct (TradingEnv.done self); [reflexivity|]. cbn [orb].
      destruct (Z.leb_spec (n - 1) (TradingEnv.current_step self + 1));
        destruct (Z.leb_spec (n - 1)
                    (Z.min (TradingEnv.current_step self + 1) (n - 1) + Z.of_nat i + 1));
        destruct (Z.leb_spec (n - 1) (TradingEnv.current_step self + Z.of_nat (S i) + 1));
        try reflexivity; lia.
Qed.

Lemma env_actions_and_rewards_witness :
  TradingEnv.position (snd tiny_step_result) = 1%Z
  /\ (TradingEnv.position tiny_env = 0%Z -> snd (fst (fst tiny_step_result)) == - (1 # 10000)).
Proof.
  refine (let H := env_actions_and_rewards tiny_env 1 (fst (fst (fst tiny_step_result)))
                     (snd (fst (fst tiny_step_result))) (snd (fst tiny_step_result))
                     (snd tiny_step_result) tiny_row tiny_env_ok (or_introl eq_refl)
                     eq_refl eq_refl in _).
  destruct (proj1 H eq_refl) as (Hp & Hr & _). split; [exact Hp | exact Hr].
Defined.

(** X17.  An episode on the default environment, started by its
    constructor on a frame with candles and no zero close, never raises,
    whatever the actions; its step number [i+1] reports [done] exactly when
    [i+1] is at least the number of candles less 31, so that an episode
    that stops at the first [done] makes [max 1 (n - 31)] steps on a frame
    of [n] candles. *)
Theorem default_episode_length (frame : list TradingEnv.Row) (actions : list nat) :
  frame <> [] -> Forall (fun r => ~ TradingEnv.r_close r == 0) frame ->
  exists self flags final,
    TradingEnv.init frame = Some self
    /\ env_steps self actions = Some (flags, final)
    /\ length flags = length actions
    /\ forall i d, flags !! i = Some d ->
         (d = true <-> (Z.of_nat (length frame) - 31 <= Z.of_nat i + 1)%Z).
Proof.
  intros Hne Hcl.
  destruct (proj2 (env_init_ok frame) Hne Hcl)
    as (self & E & Hok & Hdf & Hpos & Hdone & Hcs).
  destruct (env_steps_flags actions self Hok) as (flags & final & E' & Hl & Hf).
  { left. exact Hpos. }
  exists self, flags, final. split; [exact E|]. split; [exact E'|]. split; [exact Hl|].
  intros i d H. rewrite (Hf i d H), Hdone, Hdf, Hcs. cbn [orb].
  rewrite Z.leb_le. lia.
Qed.

Lemma default_episode_length_witness :
  exists self flags final,
    TradingEnv.init tiny_frame = Some self
    /\ env_steps self [1; 0]%nat = Some (flags, final)
    /\ length flags = length [1; 0]%nat
    /\ forall i d, flags !! i = Some d ->
         (d = true <-> (Z.of_nat (length tiny_frame) - 31 <= Z.of_nat i + 1)%Z).
Proof.
  apply (default_episode_length tiny_frame [1; 0]%nat); [discriminate|].
  repeat constructor; discriminate.
Defined.

(** ** The training loop *)

Lemma replay_exploration (sample : list Transition -> nat -> list Transition)
  (self self' : DQNAgent.t) (loss : Q) :
  DQNAgent.replay sample self = Some (loss, self') -> exploration self' = exploration self.
Proof.
  unfold DQNAgent.replay. destruct (_ <? _)%nat; [intros [= <- <-]; reflexivity|].
  destruct (MicroModel.forward (DQNAgent.model self) _) as [current_qs m1].
  destruct (MicroModel.forward m1 _) as [next_qs m2].
  destruct (DQNAgent.all_some _); [|discriminate].
  destruct (DQNAgent.write_targets _ _ _ _ _); [|discriminate].
  destruct (MicroModel.backward m2 _); [|discriminate].
  destruct (Np.mean _); [|discriminate].
  intros [= <- <-]. reflexivity.
Qed.

Lemma act_exploration (d : Trainer.Draw) (self self' : DQNAgent.t) (state : list Q) (a : nat) :
  Trainer.act d self state = Some (a, self') -> exploration self' = exploration self.
Proof.
  unfold Trainer.act. destruct (Qle_bool _ _); [intros [= <- <-]; reflexivity|].
  destruct (MicroModel.forward _ _) as [[|row rows] m]; [discriminate|].
  destruct (Trainer.argmax row); [|discriminate]. intros [= <- <-]. reflexivity.
Qed.

Lemma decay_exploration (a b : DQNAgent.t) :
  exploration a = exploration b ->
  exploration (DQNAgent.decay_epsilon a) = exploration (DQNAgent.decay_epsilon b).
Proof.
  unfold exploration, DQNAgent.decay_epsilon. intros [= E1 E2 E3]. rewrite E1, E2, E3.
  destruct (Qgtb _ _); cbn; rewrite ?E1, ?E2, ?E3; reflexivity.
Qed.

Section TrainerProperties.

Context {E : Type}.
Variable env_reset : E -> option (list Q * E).
Variable env_step : E -> nat -> option (list Q * Q * bool * E).
Variable env_df_len : E -> option nat.
Variable draws : nat -> Trainer.Draw.
Variable parse : string -> option Py.float.

Lemma episode_exploration (fuel : nat) : forall step_limit tick env agent state c r,
  Trainer.episode env_step draws fuel step_limit tick env agent state c = Some r ->
  exploration (snd (fst r)) = exploration agent
  /\ (Trainer.steps (snd r) <= Trainer.steps c + fuel)%nat
  /\ (Trainer.trades (snd r) = 0%nat -> Trainer.trades c = 0%nat).
Proof.
  induction fuel as [|fuel IH]; intros step_limit tick env agent state c r; cbn [Trainer.episode];
    [discriminate|].
  destruct (Trainer.act _ agent state) as [[action agent1]|] eqn:Ea; [|discriminate].
  destruct (env_step env action) as [[[[next_state reward] done] env']|]; [|discriminate].
  destruct (DQNAgent.replay _ _) as [[loss agent3]|] eqn:Er; [|discriminate].
  apply replay_exploration in Er. apply act_exploration in Ea.
  assert (Hx : exploration agent3 = exploration agent).
  { rewrite Er. unfold exploration, DQNAgent.remember. cbn. exact Ea. }
  destruct (done || _).
  - intros [= <-]. cbn. split; [exact Hx|]. split; [lia|].
    destruct (action =? 0)%nat; [auto | discriminate].
  - intros H. destruct (IH _ _ _ _ _ _ _ H) as (H1 & H2 & H3). cbn in H2, H3.
    split; [congruence|]. split; [lia|].
    intros Hz. specialize (H3 Hz). destruct (action =? 0)%nat; [exact H3 | discriminate].
Qed.

Lemma run_episode_history (episodes e tick : nat) (env : E) (agent : DQNAgent.t)
  (history : list Training.RLTrainingStep) r :
  Trainer.run_episode env_reset env_step env_df_len draws parse episodes e tick env agent history
  = Some r ->
  exploration (snd (fst r)) = exploration (DQNAgent.decay_epsilon agent)
  /\ exists added,
       snd r = (history ++ added)%list
       /\ map Training.episode added
          = (if recorded episodes e then [(Z.of_nat e + 1)%Z] else [])
       /\ Forall (fun s => Training.step_ok s = true
                           /\ Training.epsilon s
                              = Py.Fin (DQNAgent.epsilon (snd (fst r)))) added.
Proof.
  unfold Trainer.run_episode.
  destruct (env_reset env) as [[state env0]|]; [|discriminate].
  destruct (env_df_len env0) as [n|]; [|discriminate].
  destruct (Trainer.episode _ _ _ _ _ _ _ _ _) as [[[[tick' env'] agent'] c]|] eqn:Ee;
    [|discriminate].
  apply episode_exploration in Ee as (Hx & _). cbn [fst snd] in Hx.
  fold (recorded episodes e).
  destruct (recorded episodes e).
  - intros [= <-]. cbn [fst snd]. split; [apply decay_exploration; exact Hx|].
    eexists. split; [reflexivity|]. split; [reflexivity|].
    constructor; [|constructor]. split; [apply step_data_finite | reflexivity].
  - intros [= <-]. cbn [fst snd]. split; [apply decay_exploration; exact Hx|].
    exists []. rewrite app_nil_r. repeat split; constructor.
Qed.

Lemma train_from_history (episodes : nat) (es : list nat) :
  forall tick env agent history agent' history',
    Trainer.train_from env_reset env_step env_df_len draws parse episodes es tick env agent
      history = Some (agent', history') ->
    exploration agent' = exploration (Nat.iter (length es) DQNAgent.decay_epsilon agent)
    /\ exists added,
         history' = (history ++ added)%list
         /\ map Training.episode added
            = map (fun e => (Z.of_nat e + 1)%Z) (List.filter (recorded episodes) es)
         /\ Forall (fun s => Training.step_ok s = true) added
         /\ (forall s, last added = Some s -> last es <> None ->
                       (forall e, last es = Some e -> recorded episodes e = true) ->
                       Training.epsilon s = Py.Fin (DQNAgent.epsilon agent')).
Proof.
  induction es as [|e rest IH]; intros tick env agent history agent' history';
    cbn [Trainer.train_from].
  - intros [= <- <-]. split; [reflexivity|]. exists []. rewrite app_nil_r.
    repeat split; try constructor. intros s H. discriminate.
  - destruct (Trainer.run_episode _ _ _ _ _ _ _ _ _ _ _) as [[[[tick1 env1] agent1] history1]|]
      eqn:Er; [|discriminate].
    apply run_episode_history in Er as (Hx1 & a1 & E1 & M1 & F1). cbn [fst snd] in *.
    intros Ht. destruct (IH _ _ _ _ _ _ Ht) as (Hx & a2 & E2 & M2 & F2 & L2).
    split.
    { rewrite Hx. cbn [length]. rewrite Nat.iter_succ_r.
      clear - Hx1. revert agent agent1 Hx1. induction (length rest) as [|k IHk]; intros a b H.
      - cbn. exact H.
      - cbn [Nat.iter nat_rect]. apply decay_exploration. apply IHk. exact H. }
    exists (a1 ++ a2)%list. rewrite E2, E1, app_assoc. split; [reflexivity|].
    split; [|split].
    + rewrite map_app, M1, M2. cbn [List.filter].
      destruct (recorded episodes e); reflexivity.
    + apply Forall_app. split; [|exact F2].
      eapply Forall_impl; [exact F1|]. intros s [H _]. exact H.
    + intros s Hs Hne Hrec. destruct rest as [|e2 rest'].
      * cbn in Ht. injection Ht as <- <-.
        assert (a2 = []) as ->.
        { apply (f_equal (@length _)) in E2. rewrite length_app in E2.
          destruct a2; [reflexivity | cbn in E2; lia]. }
        rewrite app_nil_r in Hs. specialize (Hrec e eq_refl).
        rewrite Hrec in M1. destruct a1 as [|s1 [|s2 a1]]; try discriminate.
        cbn in Hs. injection Hs as <-. inversion F1 as [|? ? [_ He] _]; subst. exact He.
      * assert (Hl2 : last (e2 :: rest') <> None).
        { destruct (last (e2 :: rest')) eqn:El; [discriminate|].
          apply last_None in El. discriminate. }
        assert (Hlast : last (e :: e2 :: rest') = last (e2 :: rest')) by reflexivity.
        rewrite Hlast in Hrec.
        destruct (last (e2 :: rest')) as [el|] eqn:El; [|contradiction].
        specialize (Hrec el eq_refl).
        assert (Ha2 : a2 <> []).
        { intros ->.
          assert (Hin : In el (List.filter (recorded episodes) (e2 :: rest'))).
          { apply filter_In. split; [|exact Hrec].
            apply last_Some in El as [l' El']. rewrite El'.
            apply in_app_iff. right. left. reflexivity. }
          destruct (List.filter (recorded episodes) (e2 :: rest')); [contradiction|].
          discriminate M2. }
        apply L2; [|discriminate | intros e0 [= <-]; exact Hrec].
        rewrite last_app in Hs. destruct (last a2) eqn:La; [exact Hs|].
        apply last_None in La. contradiction.
Qed.

End TrainerProperties.

Lemma last_recorded (episodes : nat) :
  (0 < episodes)%nat ->
  exists e, last (seq 0 episodes) = Some e /\ e = (episodes - 1)%nat
            /\ recorded episodes e = true.
Proof.
  intros H. destruct episodes as [|k]; [lia|]. exists k.
  rewrite seq_S, last_snoc. split; [reflexivity|]. split; [lia|].
  unfold recorded. replace (S k - 1)%nat with k by lia.
  rewrite Nat.eqb_refl. apply orb_true_r.
Qed.

(** X18.  A training run that completes records the episodes 1, 6, 11, ...
    and the last one, each once and in order, whatever happened in them;
    every number of a record is finite; and the last record is of the last
    episode and carries the epsilon the agent ends with. *)
Theorem training_history_cadence {E : Type}
  (env_reset : E -> option (list Q * E))
  (env_step : E -> nat -> option (list Q * Q * bool * E))
  (env_df_len : E -> option nat) (draws : nat -> Trainer.Draw)
  (parse : string -> option Py.float) (episodes : nat) (env : E)
  (agent agent' : DQNAgent.t) (history : list Training.RLTrainingStep) :
  Trainer.train env_reset env_step env_df_len draws parse episodes env agent
  = Some (agent', history) ->
  map Training.episode history
  = map (fun e => (Z.of_nat e + 1)%Z) (List.filter (recorded episodes) (seq 0 episodes))
  /\ Forall (fun s => Training.step_ok s = true) history
  /\ ((0 < episodes)%nat ->
      exists s, last history = Some s
                /\ Training.episode s = Z.of_nat episodes
                /\ Training.epsilon s = Py.Fin (DQNAgent.epsilon agent')).
Proof.
  unfold Trainer.train. intros H.
  destruct (train_from_history env_reset env_step env_df_len draws parse episodes
              (seq 0 episodes) 0%nat env agent [] agent' history H)
    as (_ & added & Ea & Hm & Hf & Hl).
  cbn [app] in Ea. subst added.
  split; [exact Hm|]. split; [exact Hf|]. intros Hpos.
  destruct (last_recorded episodes Hpos) as (e & Hle & He & Hr).
  assert (Hin : In e (List.filter (recorded episodes) (seq 0 episodes))).
  { apply filter_In. split; [|exact Hr].
    apply last_Some in Hle as [l' El]. rewrite El. apply in_app_iff. right. left. reflexivity. }
  assert (Hlast : last (map (fun e => (Z.of_nat e + 1)%Z)
                          (List.filter (recorded episodes) (seq 0 episodes)))
                  = Some (Z.of_nat episodes)).
  { apply last_Some in Hle as [l' El]. rewrite El, List.filter_app. cbn [List.filter].
    rewrite Hr, map_app. cbn [map]. rewrite last_snoc. f_equal. lia. }
  rewrite <- Hm in Hlast.
  destruct (last history) as [s|] eqn:Es.
  2:{ apply last_None in Es. subst history. discriminate Hlast. }
  exists s. split; [reflexivity|]. split.
  - apply last_Some in Es as [h' Eh]. rewrite Eh, map_app in Hlast. cbn [map] in Hlast.
    rewrite last_snoc in Hlast. congruence.
  - apply (Hl s eq_refl).
    + rewrite Hle. discriminate.
    + intros e0 H0. rewrite Hle in H0. injection H0 as <-. exact Hr.
Qed.

Lemma training_history_cadence_witness :
  map Training.episode toy_history = [1; 6]%Z
  /\ Forall (fun s => Training.step_ok s = true) toy_history.
Proof.
  refine (let H := training_history_cadence TradingEnv.reset TradingEnv.step
                     (fun e => Some (length (TradingEnv.df e))) (fun _ => toy_draw)
                     (fun _ => None) 6 tiny_env default_agent toy_agent toy_history
                     eq_refl in _).
  split; [exact (proj1 H) | exact (proj1 (proj2 H))].
Defined.

(** X19.  Training touches the exploration rate in one place only: after a
    run of [episodes] episodes that completes, epsilon, its floor and its
    decay are what [episodes] calls of [decay_epsilon] make of those of the
    agent it started with, whatever the environment, the draws and the
    length of the episodes. *)
Theorem training_decays_epsilon_once_per_episode {E : Type}
  (env_reset : E -> option (list Q * E))
  (env_step : E -> nat -> option (list Q * Q * bool * E))
  (env_df_len : E -> option nat) (draws : nat -> Trainer.Draw)
  (parse : string -> option Py.float) (episodes : nat) (env : E)
  (agent agent' : DQNAgent.t) (history : list Training.RLTrainingStep) :
  Trainer.train env_reset env_step env_df_len draws parse episodes env agent
  = Some (agent', history) ->
  exploration agent' = exploration (Nat.iter episodes DQNAgent.decay_epsilon agent).
Proof.
  unfold Trainer.train. intros H.
  destruct (train_from_history env_reset env_step env_df_len draws parse episodes
              (seq 0 episodes) 0%nat env agent [] agent' history H) as (Hx & _).
  rewrite length_seq in Hx. exact Hx.
Qed.

Lemma training_decays_epsilon_once_per_episode_witness :
  exploration toy_agent = exploration (Nat.iter 6 DQNAgent.decay_epsilon default_agent).
Proof.
  apply (training_decays_epsilon_once_per_episode TradingEnv.reset TradingEnv.step
           (fun e => Some (length (TradingEnv.df e))) (fun _ => toy_draw)
           (fun _ => None) 6 tiny_env default_agent toy_agent toy_history).
  reflexivity.
Defined.
